(** * Label correction workflow of [data_centric.py]

    A shallow embedding of [process_mislabeled_images]: the scan of the
    non-person directory with an object detector, the relocation of the
    files in which a person is detected, and the log written on the way;
    of [visualize_mislabeled_images], the same scan without the move; and of
    the network and the test loop of the training script.

    The Python standard library, the detector and the plotting library are
    the environment of the functions.  Their behaviour is modelled
    explicitly:
    - [PyStr], [OsPath], [Fmt]: [str.lower], [str.endswith], [os.path.join]
      (POSIX), the [.2f] format and [strftime];
    - a file system made of the three directories the function touches;
    - the detector, the refusals of a move, the failures of [os.makedirs],
      [open] and [os.listdir], the encodings of the log and of the standard
      output, and the failures of the plotting calls, as oracles of a
      [world].
    Every call that can raise in the source can raise here: a move that is
    refused can leave a copy in the person directory, a text that a stream
    cannot encode raises when it is written or printed, and an exception
    raised in a handler or outside a [try] ends the run.  A run carries a
    trace of what it did (detector calls, matches, lines written), which the
    function itself does not keep: the properties below are stated on it. *)

From Stdlib Require Import Ascii String QArith Qabs DecimalString.
From stdpp Require Import gmap strings list fin_maps.

Local Open Scope string_scope.
Local Open Scope list_scope.

(** ** Python strings *)

Module PyStr.

Definition is_upper (c : ascii) : bool :=
  let n := nat_of_ascii c in (65 <=? n)%nat && (n <=? 90)%nat.

(** [str.lower] on one character.  Only the ASCII capitals are mapped: no
    other character lowers to one of the letters of the accepted
    extensions. *)
Definition lower_char (c : ascii) : ascii :=
  if is_upper c then ascii_of_nat (nat_of_ascii c + 32) else c.

Fixpoint lower (s : string) : string :=
  match s with
  | EmptyString => EmptyString
  | String c s' => String (lower_char c) (lower s')
  end.

(** [s.endswith(suffix)] *)
Fixpoint endswith (s suffix : string) : bool :=
  if String.eqb s suffix then true
  else match s with
       | EmptyString => false
       | String _ s' => endswith s' suffix
       end.

(** [s.endswith((a, b, ...))]: a tuple of suffixes. *)
Definition endswith_any (s : string) (suffixes : list string) : bool :=
  existsb (endswith s) suffixes.

End PyStr.

(** ** [os.path.join] on a POSIX system, two components *)

Module OsPath.

Definition sep : string := "/".

Definition join (a b : string) : string :=
  if String.prefix sep b then b
  else if String.eqb a "" || PyStr.endswith a sep then a +:+ b
  else a +:+ sep +:+ b.

End OsPath.

(** ** Formatting *)

Module Fmt.

Definition dec (n : Z) : string :=
  NilZero.string_of_uint (N.to_uint (Z.to_N n)).

(** [s.zfill(width)] for a string of digits. *)
Definition zfill (width : nat) (s : string) : string :=
  String.concat "" (replicate (width - String.length s) "0") +:+ s.

(** Nearest integer, ties to the even one: the rounding of Python's
    float formatting, applied to the exact value of the float. *)
Definition round_half_even (q : Q) : Z :=
  let n := Qnum q in
  let d := Z.pos (Qden q) in
  let f := (n / d)%Z in
  match (2 * (n mod d) ?= d)%Z with
  | Lt => f
  | Gt => (f + 1)%Z
  | Eq => if Z.even f then f else (f + 1)%Z
  end.

(** [f"{q:.2f}"] *)
Definition format_2f (q : Q) : string :=
  let h := round_half_even (Qabs q * 100) in
  (if (Qnum q <? 0)%Z then "-" else "")
    +:+ dec (h / 100) +:+ "." +:+ zfill 2 (dec (h mod 100)).

(** The fields of [datetime.now()] the function uses. *)
Record datetime := {
  year : nat; month : nat; day : nat;
  hour : nat; minute : nat; second : nat
}.

Definition field (width n : nat) : string :=
  zfill width (dec (Z.of_nat n)).

(** [dt.strftime("%Y%m%d_%H%M%S")] *)
Definition strftime (dt : datetime) : string :=
  field 4 (year dt) +:+ field 2 (month dt) +:+ field 2 (day dt) +:+ "_"
    +:+ field 2 (hour dt) +:+ field 2 (minute dt) +:+ field 2 (second dt).

End Fmt.

(** ** The detector

    [model(file_path, verbose=False)] returns a list of results; each result
    has a list of boxes; the function reads [int(box.cls)] and
    [float(box.conf)] of each box.  A confidence is the exact value of the
    float, a rational number, on which [>] is the order of the rationals. *)

Record Box := { cls : Z; conf : Q }.

Record Result := { boxes : list Box }.

Inductive outcome (A : Type) : Type :=
| Returns (a : A)
| Raises (e : string).

Arguments Returns {A} a.
Arguments Raises {A} e.

Definition Model := string -> outcome (list Result).

(** [YOLO(model_path)]: the model, or one of the two failures the function
    tells apart. *)
Inductive loading :=
| Loaded (model : Model)
| NotFound (e : string)
| Unloadable (e : string).

(** ** Text streams

    The log and the standard output are text streams: a text written to one
    of them is encoded, and a character the encoding does not have raises
    [UnicodeEncodeError], the text being left out as a whole.  The encodings
    of a locale all have the characters of ASCII; which of the others an
    encoding has is asked to [encodes], and the text of the exception to
    [complaint].  A character of a [string] above 127 stands for a character
    that is not of ASCII.  A stream raises for no other reason: the device
    below it takes what it is given. *)

Record codec := {
  encodes : ascii -> bool;
  complaint : string -> string
}.

Definition is_ascii (c : ascii) : bool := (nat_of_ascii c <? 128)%nat.

(** Every character of [text] passes the test [p]. *)
Fixpoint all_chars (p : ascii -> bool) (text : string) : bool :=
  match text with
  | EmptyString => true
  | String c text' => p c && all_chars p text'
  end.

Definition encodable (k : codec) (text : string) : bool :=
  all_chars (fun c => is_ascii c || encodes k c) text.

(** What a stream of encoding [k] answers to [text]: nothing, or the text of
    the exception it raises. *)
Definition refuses (k : codec) (text : string) : option string :=
  if encodable k text then None else Some (complaint k text).

(** ** The file system below the dataset root

    [non_person] is the directory [0], in the order [os.listdir] gives its
    entries; [person] is the directory [1]; [logs] is the directory [logs],
    its files with their text.  [None] is a directory that does not exist.
    Entries are regular files. *)

Definition content := string.

Record filesystem := {
  non_person : option (list (string * content));
  person : option (gmap string content);
  logs : option (gmap string string)
}.

(** ** The environment of one run *)

(** A move that fails: the text of the exception, and what the failed move
    leaves under the name in the person directory, from the content of the
    file.  When the rename is refused [shutil.move] copies the file and
    removes the source; a failure of the copy leaves nothing or a part of the
    file, a failure of the removal leaves the copy. *)
Record refusal := {
  reason : string;
  left_behind : content -> option content
}.

(** The calls of [os] and the [open] that the two functions make after
    their checks. *)
Inductive syscall :=
| Makedirs (path : string)
| Open (path : string)
| Listdir (path : string).

(** The calls of [matplotlib.pyplot] that are made outside a [try]. *)
Inductive pyplot :=
| Figure
| TightLayout
| Show.

Record world := {
  YOLO : string -> loading;
  (** [shutil.move] of [src] to [dst] fails *)
  refused : string -> string -> option refusal;
  (** [datetime.now()] *)
  now : Fmt.datetime;
  (** a call raises; the text of the exception *)
  os_error : syscall -> option string;
  (** the encoding of a file opened in text mode *)
  log_encoding : codec;
  (** the encoding of [sys.stdout] *)
  stdout_encoding : codec;
  plt_error : pyplot -> option string
}.

(** ** What a run does, in order *)

Inductive event :=
| Detect (file_path : string)                    (* the detector is called *)
| Match (filename : string) (confidence : Q)     (* the test on a box holds *)
| Moved (filename : string) (confidence : Q)     (* the line of a move is written *)
| Failed (filename : string) (e : string).       (* the line of an error is written *)

Definition Qgtb (x y : Q) : bool := negb (Qle_bool x y).

(** The character [\n]. *)
Definition newline : string := String "010"%char EmptyString.

Definition header : string :=
  "Moved Files (Person Detected in Non-Person Directory):" +:+ newline +:+ newline.

Definition moved_line (filename : string) (confidence : Q) : string :=
  "Moved " +:+ filename +:+ " (confidence: " +:+ Fmt.format_2f confidence
    +:+ ")" +:+ newline.

Definition error_line (filename e : string) : string :=
  "Error processing " +:+ filename +:+ ": " +:+ e +:+ newline.

(** What the function prints. *)
Definition starting_notice : string :=
  "Starting scan for mislabeled images in non-person directory...".

Definition moved_notice (filename : string) (confidence : Q) : string :=
  "Moved " +:+ filename +:+ " to person directory (confidence: "
    +:+ Fmt.format_2f confidence +:+ ")".

Definition error_notice (filename e : string) : string :=
  "Error processing " +:+ filename +:+ ": " +:+ e.

Definition completed_notice (moved_count : nat) : string :=
  newline +:+ "Completed processing. Moved " +:+ Fmt.dec (Z.of_nat moved_count)
    +:+ " mislabeled images to person directory.".

Definition saved_notice (log_file_path : string) : string :=
  "Log file saved to: " +:+ log_file_path.

(** The text of [FileNotFoundError] for a path without quotes. *)
Definition enoent (path : string) : string :=
  "[Errno 2] No such file or directory: '" +:+ path +:+ "'".

(** The state the loop of the function works on. *)
Record state := {
  dir0 : list (string * content);   (* the entries of the non-person directory *)
  dir1 : gmap string content;       (* the entries of the person directory *)
  log_file : string;                (* the text written to the log so far *)
  moved_count : nat;
  trace : list event
}.

Definition record (ev : event) (st : state) : state :=
  {| dir0 := dir0 st; dir1 := dir1 st; log_file := log_file st;
     moved_count := moved_count st; trace := trace st ++ [ev] |}.

(** The log with [text] at its end. *)
Definition log_append (text : string) (st : state) : state :=
  {| dir0 := dir0 st; dir1 := dir1 st; log_file := log_file st +:+ text;
     moved_count := moved_count st; trace := trace st |}.

Definition increment (st : state) : state :=
  {| dir0 := dir0 st; dir1 := dir1 st; log_file := log_file st;
     moved_count := moved_count st + 1; trace := trace st |}.

Fixpoint lookup_file (filename : string) (d : list (string * content)) : option content :=
  match d with
  | [] => None
  | (name, data) :: d' =>
      if String.eqb name filename then Some data else lookup_file filename d'
  end.

Fixpoint remove_file (filename : string) (d : list (string * content)) : list (string * content) :=
  match d with
  | [] => []
  | (name, data) :: d' =>
      if String.eqb name filename then remove_file filename d'
      else (name, data) :: remove_file filename d'
  end.

(** [print(text)]: the text and the end of the line go to the standard
    output, of encoding [k].  What is printed is not kept: [None], or the
    text of the exception. *)
Definition print (k : codec) (text : string) : option string :=
  refuses k (text +:+ newline).

(** [log_file.write(text)], for a log of encoding [k]: the state after it,
    and the exception it raised, if any. *)
Definition write (k : codec) (text : string) (st : state) : state * option string :=
  match refuses k text with
  | Some e => (st, Some e)
  | None => (log_append text st, None)
  end.

(** The person directory with what a failed move has left under the name
    of the file. *)
Definition left_over (filename : string) (copy : option content) (st : state) : state :=
  {| dir0 := dir0 st;
     dir1 := match copy with
             | Some data => <[filename := data]> (dir1 st)
             | None => dir1 st
             end;
     log_file := log_file st;
     moved_count := moved_count st;
     trace := trace st |}.

(** [shutil.move(file_path, new_path)] for a file of the non-person
    directory and a path in the person directory: a rename, which replaces
    a file that has the name already.  A move that fails leaves the file
    where it was, and in the person directory what its refusal says. *)
Definition shutil_move (os_refused : string -> string -> option refusal)
    (file_path new_path filename : string) (st : state) : state * option string :=
  match lookup_file filename (dir0 st) with
  | None => (st, Some (enoent file_path))
  | Some data =>
      match os_refused file_path new_path with
      | Some r => (left_over filename (left_behind r data) st, Some (reason r))
      | None =>
          ({| dir0 := remove_file filename (dir0 st);
              dir1 := <[filename := data]> (dir1 st);
              log_file := log_file st;
              moved_count := moved_count st;
              trace := trace st |},
           None)
      end
  end.

(** The test on a box:
    [class_id == 0 and confidence > confidence_threshold]. *)
Definition qualifies (confidence_threshold : Q) (box : Box) : bool :=
  let class_id := cls box in
  let confidence := conf box in
  (class_id =? 0)%Z && Qgtb confidence confidence_threshold.

Definition accepted (filename : string) : bool :=
  PyStr.endswith_any (PyStr.lower filename) [".jpg"; ".jpeg"; ".png"].

Section Scan.

Variable model : Model.
Variable os_refused : string -> string -> option refusal.
Variables log out : codec.
Variables non_person_dir person_dir : string.
Variable confidence_threshold : Q.

(** The body of the test: the move, the line of the log, the counter, the
    line that is printed.  The second component is the exception that left
    the body, if any. *)
Definition relocate (filename file_path : string) (confidence : Q) (st : state)
  : state * option string :=
  let st1 := record (Match filename confidence) st in
  let new_path := OsPath.join person_dir filename in
  match shutil_move os_refused file_path new_path filename st1 with
  | (st2, Some e) => (st2, Some e)
  | (st2, None) =>
      match write log (moved_line filename confidence) st2 with
      | (st3, Some e) => (st3, Some e)
      | (st3, None) =>
          let st4 := increment (record (Moved filename confidence) st3) in
          (st4, print out (moved_notice filename confidence))
      end
  end.

(** [for box in result.boxes: ...]: the state after the loop, and the
    exception that left it, if any.  [break] and the end of the list both
    leave the loop without one. *)
Fixpoint for_boxes (filename file_path : string) (bs : list Box) (st : state)
  : state * option string :=
  match bs with
  | [] => (st, None)
  | box :: bs' =>
      if qualifies confidence_threshold box
      then relocate filename file_path (conf box) st
      else for_boxes filename file_path bs' st
  end.

(** [for result in results: ...] *)
Fixpoint for_results (filename file_path : string) (results : list Result) (st : state)
  : state * option string :=
  match results with
  | [] => (st, None)
  | result :: results' =>
      match for_boxes filename file_path (boxes result) st with
      | (st', Some e) => (st', Some e)
      | (st', None) => for_results filename file_path results' st'
      end
  end.

(** [except Exception as e: ...]: the two lines of the handler; an exception
    of one of them leaves the function. *)
Definition handler (filename e : string) (st : state) : state * option string :=
  match print out (error_notice filename e) with
  | Some e' => (st, Some e')
  | None =>
      match write log (error_line filename e) st with
      | (st', Some e') => (st', Some e')
      | (st', None) => (record (Failed filename e) st', None)
      end
  end.

(** The body of [for filename in os.listdir(non_person_dir)]; the exception
    is one that the [try] did not catch. *)
Definition process_file (st : state) (filename : string) : state * option string :=
  if accepted filename then
    let file_path := OsPath.join non_person_dir filename in
    let st1 := record (Detect file_path) st in
    match model file_path with
    | Raises e => handler filename e st1
    | Returns results =>
        match for_results filename file_path results st1 with
        | (st2, Some e) => handler filename e st2
        | (st2, None) => (st2, None)
        end
    end
  else (st, None).

Fixpoint process_files (listing : list string) (st : state) : state * option string :=
  match listing with
  | [] => (st, None)
  | filename :: listing' =>
      match process_file st filename with
      | (st', Some e) => (st', Some e)
      | (st', None) => process_files listing' st'
      end
  end.

End Scan.

(** ** The function *)

(** [Exception] is an exception of the environment that the function does
    not catch, by its text. *)
Inductive error :=
| FileNotFoundError (msg : string)
| RuntimeError (msg : string)
| Exception (msg : string).

(** A run: the file system it leaves, what it did, and either the exception
    it raised or the pair it returned. *)
Record run := {
  fs_after : filesystem;
  events : list event;
  returned : error + (nat * string)
}.

Definition raise (fs : filesystem) (e : error) : run :=
  {| fs_after := fs; events := []; returned := inl e |}.

Definition log_name (w : world) : string :=
  "moved_files_" +:+ Fmt.strftime (now w) +:+ ".txt".

(** The state when the log has been opened. *)
Definition opened (d0 : list (string * content)) (d1 : gmap string content) : state :=
  {| dir0 := d0; dir1 := d1; log_file := ""; moved_count := 0; trace := [] |}.

(** [os.listdir] *)
Definition listdir (d : list (string * content)) : list string := map fst d.

(** The block of [with open(log_file_path, "w") as log_file]: the state it
    ends in, and the exception that left it, if any. *)
Definition scan (w : world) (model : Model) (dataset_root : string)
    (confidence_threshold : Q) (d0 : list (string * content)) (d1 : gmap string content)
  : state * option string :=
  let non_person_dir := OsPath.join dataset_root "0" in
  let person_dir := OsPath.join dataset_root "1" in
  match write (log_encoding w) header (opened d0 d1) with
  | (st, Some e) => (st, Some e)
  | (st, None) =>
      match os_error w (Listdir non_person_dir) with
      | Some e => (st, Some e)
      | None =>
          process_files model (refused w) (log_encoding w) (stdout_encoding w)
            non_person_dir person_dir confidence_threshold (listdir d0) st
      end
  end.

(** The file system when the log is closed, which it is when the block is
    left, by an exception too: the two class directories of the state, and
    the log with the text that was written to it. *)
Definition closed (w : world) (files : gmap string string) (st : state) : filesystem :=
  {| non_person := Some (dir0 st);
     person := Some (dir1 st);
     logs := Some (<[log_name w := log_file st]> files) |}.

Definition process_mislabeled_images (w : world) (fs : filesystem)
    (model_path dataset_root : string) (confidence_threshold : Q) : run :=
  match YOLO w model_path with
  | NotFound e =>
      raise fs (FileNotFoundError
                  ("Model file not found at " +:+ model_path +:+ ": " +:+ e))
  | Unloadable e =>
      raise fs (RuntimeError ("Failed to load YOLO model: " +:+ e))
  | Loaded model =>
      let non_person_dir := OsPath.join dataset_root "0" in
      let person_dir := OsPath.join dataset_root "1" in
      let logs_dir := OsPath.join dataset_root "logs" in
      match non_person fs, person fs with
      | None, _ =>
          raise fs (FileNotFoundError
                      ("Dataset directory not found: " +:+ non_person_dir))
      | Some _, None =>
          raise fs (FileNotFoundError
                      ("Dataset directory not found: " +:+ person_dir))
      | Some d0, Some d1 =>
          match os_error w (Makedirs logs_dir) with
          | Some e => raise fs (Exception e)
          | None =>
              let files := default ∅ (logs fs) in
              let fs1 := {| non_person := Some d0; person := Some d1;
                            logs := Some files |} in
              let log_file_path := OsPath.join logs_dir (log_name w) in
              match print (stdout_encoding w) starting_notice with
              | Some e => raise fs1 (Exception e)
              | None =>
                  match os_error w (Open log_file_path) with
                  | Some e => raise fs1 (Exception e)
                  | None =>
                      let (st, exn) :=
                        scan w model dataset_root confidence_threshold d0 d1 in
                      {| fs_after := closed w files st;
                         events := trace st;
                         returned :=
                           match exn with
                           | Some e => inl (Exception e)
                           | None =>
                               match print (stdout_encoding w)
                                       (completed_notice (moved_count st)) with
                               | Some e => inl (Exception e)
                               | None =>
                                   match print (stdout_encoding w)
                                           (saved_notice log_file_path) with
                                   | Some e => inl (Exception e)
                                   | None => inr (moved_count st, log_file_path)
                                   end
                               end
                           end |}
                  end
              end
          end
      end
  end.

(** ** The scan when no text is refused

    The loop again, for streams that take every text: the move is then the
    only call of the body of the test that can raise, and the handler does
    not raise.  The scan of the function ends in the state of this one when
    no exception leaves it, and has done a part of what this one does when
    one leaves it; the properties of the loop are proved on this one. *)

Section Quiet.

Variable model : Model.
Variable os_refused : string -> string -> option refusal.
Variables non_person_dir person_dir : string.
Variable confidence_threshold : Q.

Definition quiet_relocate (filename file_path : string) (confidence : Q) (st : state)
  : state * option string :=
  let st1 := record (Match filename confidence) st in
  let new_path := OsPath.join person_dir filename in
  match shutil_move os_refused file_path new_path filename st1 with
  | (st2, Some e) => (st2, Some e)
  | (st2, None) =>
      (increment (record (Moved filename confidence)
                    (log_append (moved_line filename confidence) st2)), None)
  end.

Fixpoint quiet_boxes (filename file_path : string) (bs : list Box) (st : state)
  : state * option string :=
  match bs with
  | [] => (st, None)
  | box :: bs' =>
      if qualifies confidence_threshold box
      then quiet_relocate filename file_path (conf box) st
      else quiet_boxes filename file_path bs' st
  end.

Fixpoint quiet_results (filename file_path : string) (results : list Result) (st : state)
  : state * option string :=
  match results with
  | [] => (st, None)
  | result :: results' =>
      match quiet_boxes filename file_path (boxes result) st with
      | (st', Some e) => (st', Some e)
      | (st', None) => quiet_results filename file_path results' st'
      end
  end.

Definition quiet_handler (filename e : string) (st : state) : state :=
  record (Failed filename e) (log_append (error_line filename e) st).

Definition quiet_file (st : state) (filename : string) : state :=
  if accepted filename then
    let file_path := OsPath.join non_person_dir filename in
    let st1 := record (Detect file_path) st in
    match model file_path with
    | Raises e => quiet_handler filename e st1
    | Returns results =>
        match quiet_results filename file_path results st1 with
        | (st2, Some e) => quiet_handler filename e st2
        | (st2, None) => st2
        end
    end
  else st.

Fixpoint quiet_files (listing : list string) (st : state) : state :=
  match listing with
  | [] => st
  | filename :: listing' => quiet_files listing' (quiet_file st filename)
  end.

End Quiet.

(** The state when the header has been written. *)
Definition initial (d0 : list (string * content)) (d1 : gmap string content) : state :=
  {| dir0 := d0; dir1 := d1; log_file := header; moved_count := 0; trace := [] |}.

Definition quiet_scan (w : world) (model : Model) (dataset_root : string)
    (confidence_threshold : Q) (d0 : list (string * content)) (d1 : gmap string content) : state :=
  quiet_files model (refused w)
    (OsPath.join dataset_root "0") (OsPath.join dataset_root "1")
    confidence_threshold (listdir d0) (initial d0 d1).
(** ** Reading a trace *)

(** The text an event adds to the log. *)
Definition line (ev : event) : string :=
  match ev with
  | Moved filename confidence => moved_line filename confidence
  | Failed filename e => error_line filename e
  | _ => ""
  end.

Fixpoint render (evs : list event) : string :=
  match evs with
  | [] => ""
  | ev :: evs' => line ev +:+ render evs'
  end.

Definition is_moved (ev : event) : bool :=
  match ev with Moved _ _ => true | _ => false end.

Fixpoint count_moved (evs : list event) : nat :=
  match evs with
  | [] => 0
  | ev :: evs' => (if is_moved ev then 1 else 0) + count_moved evs'
  end.

(** The matches of a trace, as the pairs of a file name and a confidence. *)
Fixpoint matches (evs : list event) : list (string * Q) :=
  match evs with
  | [] => []
  | Match filename confidence :: evs' => (filename, confidence) :: matches evs'
  | _ :: evs' => matches evs'
  end.

(** [emits R st st']: going from [st] to [st'] adds events that all satisfy
    [R], writes their lines to the log and counts those that are moves. *)
Definition emits (R : event → Prop) (st st' : state) : Prop :=
  ∃ evs, trace st' = trace st ++ evs ∧ Forall R evs ∧
         log_file st' = log_file st +:+ render evs ∧
         moved_count st' = moved_count st + count_moved evs.

(** Where an event of a scan comes from: an accepted entry of the listing,
    and, for a match or a move, a box of the detector's answer for that entry
    that passes the test. *)
Definition origin (model : Model) (np : string) (t : Q) (listing : list string)
    (ev : event) : Prop :=
  ∃ f, f ∈ listing ∧ accepted f = true ∧
       match ev with
       | Detect p => p = OsPath.join np f
       | Match g c | Moved g c =>
           g = f ∧ ∃ results r b,
             model (OsPath.join np f) = Returns results ∧
             r ∈ results ∧ b ∈ boxes r ∧ qualifies t b = true ∧ conf b = c
       | Failed g e => g = f
       end.

(** Every line of a move in the log follows the match it records, and its
    file is in the person directory and no longer in the non-person one. *)
Definition settled (st : state) : Prop :=
  ∀ f c, Moved f c ∈ trace st →
         Match f c ∈ trace st ∧ is_Some (dir1 st !! f) ∧
         lookup_file f (dir0 st) = None.

(** ** Small worlds to run the function in *)

Definition clock : Fmt.datetime :=
  {| Fmt.year := 2025; Fmt.month := 3; Fmt.day := 9;
     Fmt.hour := 14; Fmt.minute := 5; Fmt.second := 0 |}.

Definition person_box (c : Q) : Box := {| cls := 0; conf := c |}.

(** A detector given by a table from paths to answers; no box elsewhere. *)
Fixpoint answers (table : list (string * outcome (list Result))) (path : string)
  : outcome (list Result) :=
  match table with
  | [] => Returns []
  | (p, a) :: table' => if String.eqb p path then a else answers table' path
  end.

(** An encoding that has every character. *)
Definition utf8 : codec :=
  {| encodes := λ _, true; complaint := λ _, "" |}.

(** An encoding that has the characters of ASCII only. *)
Definition ascii_only : codec :=
  {| encodes := λ _, false;
     complaint := λ _, "'ascii' codec can't encode character: ordinal not in range(128)" |}.

(** A world where the model loads, no move is refused, no call fails and
    every text can be written and printed. *)
Definition world_of (model : Model) : world :=
  {| YOLO := λ _, Loaded model; refused := λ _ _, None; now := clock;
     os_error := λ _, None; log_encoding := utf8; stdout_encoding := utf8;
     plt_error := λ _, None |}.

Definition dataset (d0 : list (string * content)) (d1 : gmap string content) : filesystem :=
  {| non_person := Some d0; person := Some d1; logs := None |}.

(** The text of the log a run wrote, if it wrote one. *)
Definition log_text (w : world) (r : run) : option string :=
  logs (fs_after r) ≫= λ files, files !! log_name w.

(** One image in which the detector finds a person with confidence [c]. *)
Definition one_person (c : Q) : world :=
  world_of (answers [("root/0/a.jpg", Returns [ {| boxes := [person_box c] |} ])]).

Definition one_image : filesystem := dataset [("a.jpg", "A")] ∅.

(** The extensions of an image, and a name that ends with one of them
    whatever the case of its letters. *)
Definition image_extensions : list string := [".jpg"; ".jpeg"; ".png"].

Definition has_image_extension (filename : string) : Prop :=
  ∃ stem ext, filename = stem +:+ ext ∧ PyStr.lower ext ∈ image_extensions.

(** The first box of the detector's answer that passes the test, results
    and boxes taken in order. *)
Fixpoint first_hit (t : Q) (results : list Result) : option Box :=
  match results with
  | [] => None
  | r :: results' =>
      match find (qualifies t) (boxes r) with
      | Some b => Some b
      | None => first_hit t results'
      end
  end.

(** An image, a text file and an image with capitals in its extension. *)
Definition mixed_entries : filesystem :=
  dataset [("a.jpg", "A"); ("notes.txt", "N"); ("b.PNG", "B")] ∅.

Definition nothing_found : world := world_of (answers []).

(** The detector fails on [a.jpg] and finds a person in [b.jpg]. *)
Definition fails_then_finds : world :=
  world_of (answers [("root/0/a.jpg", Raises "cannot identify image file");
                     ("root/0/b.jpg", Returns [ {| boxes := [person_box (1 # 2)] |} ])]).

Definition two_images : filesystem := dataset [("a.jpg", "A"); ("b.jpg", "B")] ∅.

(** The person directory already has a file of the name of the image. *)
Definition name_taken : filesystem :=
  dataset [("a.jpg", "new")] {[ "a.jpg" := "old" ]}.

(** The non-person directory cannot be written to: a file is copied to the
    person directory and cannot be removed from where it is. *)
Definition permission_denied (src : string) : refusal :=
  {| reason := "[Errno 13] Permission denied: '" +:+ src +:+ "'";
     left_behind := λ data, Some data |}.

Definition read_only (model : Model) : world :=
  {| YOLO := λ _, Loaded model;
     refused := λ src _, Some (permission_denied src);
     now := clock;
     os_error := λ _, None; log_encoding := utf8; stdout_encoding := utf8;
     plt_error := λ _, None |}.







(** A file that processing cannot move: its name is not accepted, or the
    detector raises on it, or no box of the answer passes the test, or the
    operating system refuses the move. *)
Definition stuck (model : Model) (os_refused : string → string → option refusal)
    (np pd : string) (t : Q) (f : string) : Prop :=
  accepted f = false ∨
  (∃ e, model (OsPath.join np f) = Raises e) ∨
  (∃ results, model (OsPath.join np f) = Returns results ∧ first_hit t results = None) ∨
  is_Some (os_refused (OsPath.join np f) (OsPath.join pd f)).

(** The same world a while later. *)
Definition later : Fmt.datetime :=
  {| Fmt.year := 2025; Fmt.month := 3; Fmt.day := 9;
     Fmt.hour := 15; Fmt.minute := 0; Fmt.second := 30 |}.

Definition again (w : world) : world :=
  {| YOLO := YOLO w; refused := refused w; now := later;
     os_error := os_error w; log_encoding := log_encoding w;
     stdout_encoding := stdout_encoding w; plt_error := plt_error w |}.

(** Two boxes of a person in one result, the weaker one first. *)
Definition two_boxes : world :=
  world_of (answers [("root/0/a.jpg",
                      Returns [ {| boxes := [person_box (1 # 2); person_box (9 # 10)] |} ])]).

(** Two results for one image, each with a box of a person. *)
Definition two_results : world :=
  world_of (answers [("root/0/a.jpg",
                      Returns [ {| boxes := [person_box (9 # 10)] |};
                                {| boxes := [person_box (8 # 10)] |} ])]).

(** The same answer in one result. *)
Definition one_result : world :=
  world_of (answers [("root/0/a.jpg",
                      Returns [ {| boxes := [person_box (9 # 10); person_box (8 # 10)] |} ])]).

(** No move of a matched file has been refused. *)
Definition allowed (os_refused : string → string → option refusal) (np pd : string)
    (st : state) : Prop :=
  ∀ f c, Moved f c ∈ trace st →
         os_refused (OsPath.join np f) (OsPath.join pd f) = None.

(** The number of moves of a file in a trace. *)
Definition is_move_of (f : string) (ev : event) : bool :=
  match ev with
  | Moved g _ => String.eqb g f
  | _ => false
  end.

Fixpoint moves_of (f : string) (evs : list event) : nat :=
  match evs with
  | [] => 0
  | ev :: evs' => (if is_move_of f ev then 1 else 0) + moves_of f evs'
  end.

(** Between two states a file has not been moved, and stays gone if it was
    gone, or it has been moved once and is gone. *)
Definition once (f : string) (a b : state) : Prop :=
  (moves_of f (trace b) = moves_of f (trace a) ∧
   (lookup_file f (dir0 a) = None → lookup_file f (dir0 b) = None)) ∨
  (moves_of f (trace b) = S (moves_of f (trace a)) ∧
   lookup_file f (dir0 b) = None ∧ is_Some (lookup_file f (dir0 a))).

(** A file has been matched in a trace. *)
Definition is_match_of (f : string) (ev : event) : bool :=
  match ev with
  | Match g _ => String.eqb g f
  | _ => false
  end.

Definition matched (f : string) (evs : list event) : bool := existsb (is_match_of f) evs.

(** What a failed move of the file [f], of content [data], leaves in the
    person directory. *)
Definition residue (os_refused : string → string → option refusal) (np pd : string)
    (f : string) (data : content) : option content :=
  os_refused (OsPath.join np f) (OsPath.join pd f) ≫= λ r, left_behind r data.

(** What the person directory holds under the name [f] after the events
    [evs], when the scan started with the directories [d0] and [d1]: the file
    of that name of [d0] when it was moved; what the failed move of that file
    has left, if it was tried and has left something; what [d1] held
    otherwise. *)
Definition person_entry (os_refused : string → string → option refusal) (np pd : string)
    (d0 : list (string * content)) (d1 : gmap string content)
    (evs : list event) (f : string) : option content :=
  if decide (moves_of f evs = 0) then
    match (if matched f evs then lookup_file f d0 ≫= residue os_refused np pd f
           else None) with
    | Some copy => Some copy
    | None => d1 !! f
    end
  else lookup_file f d0.

(** The two class directories of a state, told from the directories [d0]
    and [d1] the scan started with and from the trace: the entries of [d0]
    that were not moved, and [d1] with the moved files, and what the failed
    moves have left, put under their names. *)
Definition accounted (os_refused : string → string → option refusal) (np pd : string)
    (d0 : list (string * content)) (d1 : gmap string content)
    (st : state) : Prop :=
  dir0 st = filter (λ e, moves_of e.1 (trace st) = 0) d0 ∧
  ∀ f, dir1 st !! f = person_entry os_refused np pd d0 d1 (trace st) f.

(** The person directory has what the failed move of a file that is still
    in the non-person directory leaves there. *)
Definition absorbed (model : Model) (os_refused : string → string → option refusal)
    (np pd : string) (t : Q) (st : state) : Prop :=
  ∀ g data results b copy,
    lookup_file g (dir0 st) = Some data → accepted g = true →
    model (OsPath.join np g) = Returns results → first_hit t results = Some b →
    residue os_refused np pd g data = Some copy →
    dir1 st !! g = Some copy.

(** ** Lines and characters *)

(** The lines of a text, each without the [\n] at its end. *)
Fixpoint splitlines (text : string) : list string :=
  match text with
  | EmptyString => []
  | String c text' =>
      if Ascii.eqb c "010"%char then "" :: splitlines text'
      else match splitlines text' with
           | [] => [String c ""]
           | l :: ls => String c l :: ls
           end
  end.

(** A text without a line break. *)
Definition one_line (text : string) : bool :=
  all_chars (λ c, negb (Ascii.eqb c "010"%char)) text.

(** An event whose line in the log is one line. *)
Definition tidy (ev : event) : Prop :=
  match ev with
  | Moved f _ => one_line f = true
  | Failed f e => one_line f = true ∧ one_line e = true
  | _ => True
  end.

(** The lines that begin with [Moved ]. *)
Definition moved_lines (text : string) : list string :=
  filter (λ l, String.prefix "Moved " l = true) (splitlines text).

(** A character of a number or of a time stamp. *)
Definition is_numeric (c : ascii) : bool :=
  let n := nat_of_ascii c in
  ((48 <=? n)%nat && (n <=? 57)%nat) || Ascii.eqb c "-"%char || Ascii.eqb c "."%char || Ascii.eqb c "_"%char.

(** Both streams of a world can encode a text. *)
Definition speakable (w : world) (text : string) : Prop :=
  encodable (log_encoding w) text = true ∧ encodable (stdout_encoding w) text = true.

(** A name that one of the two streams cannot encode. *)
Definition unspeakable (log out : codec) (f : string) : Prop :=
  encodable log f = false ∨ encodable out f = false.

(** The trace of [b] goes on from the trace of [a]. *)
Definition ahead (a b : state) : Prop := ∃ evs, trace b = trace a ++ evs.

(** Where the text of an error of a scan comes from: the detector, a move
    that was refused, or a move of a file that is no longer there. *)
Definition cause (model : Model) (os_refused : string → string → option refusal)
    (np pd : string) (f e : string) : Prop :=
  model (OsPath.join np f) = Raises e ∨
  e = enoent (OsPath.join np f) ∨
  ∃ r, os_refused (OsPath.join np f) (OsPath.join pd f) = Some r ∧ e = reason r.

(** An environment in which no call of the operating system or of the
    plotting library fails and every text can be written and printed. *)
Definition calm (w : world) : Prop :=
  (∀ c, os_error w c = None) ∧ (∀ c, plt_error w c = None) ∧
  (∀ text, encodable (log_encoding w) text = true) ∧
  (∀ text, encodable (stdout_encoding w) text = true).

(** A name with a character that is not of ASCII. *)
Definition cafe : string := "caf" +:+ String (ascii_of_nat 233) ".jpg".

(** A world whose streams have the characters of ASCII only. *)
Definition plain (model : Model) (os_refused : string → string → option refusal) : world :=
  {| YOLO := λ _, Loaded model; refused := os_refused; now := clock;
     os_error := λ _, None; log_encoding := ascii_only; stdout_encoding := ascii_only;
     plt_error := λ _, None |}.

(** No two entries of the non-person directory have the same name, and each
    move has taken one entry out of it. *)
Definition balanced (a b : state) : Prop :=
  NoDup (listdir (dir0 a)) →
  NoDup (listdir (dir0 b)) ∧
  length (dir0 b) + moved_count b = length (dir0 a) + moved_count a.

(** A name of three lines, the second of which is the line of a move. *)
Definition forged_name : string :=
  "x" +:+ newline +:+ "Moved y.jpg (confidence: 0.50)" +:+ newline +:+ ".jpg".

(** The detector fails on the only image, whose name has three lines. *)
Definition fails_on_forged : world :=
  world_of (answers [("root/0/" +:+ forged_name, Raises "cannot identify image file")]).

Definition forged_image : filesystem := dataset [(forged_name, "X")] ∅.

(** The detector fails on the image [cafe] and finds a person in [b.jpg];
    the streams have the characters of ASCII only. *)
Definition fails_on_cafe : world :=
  plain (answers [("root/0/" +:+ cafe, Raises "cannot identify image file");
                  ("root/0/b.jpg", Returns [ {| boxes := [person_box (1 # 2)] |} ])])
        (λ _ _, None).

Definition cafe_images : filesystem := dataset [(cafe, "A"); ("b.jpg", "B")] ∅.
(** ** [visualize_mislabeled_images]

    The scan again, without the move: the files in which a person is found
    are collected in [mislabelled], as triples of a path, a name and a
    confidence, and the scan stops when [max_images] of them are there.  The
    test on the length is made after a file whose detection did not raise.
    The figure is a grid of 4 rows and 5 columns; [plt.subplot(4, 5, num)]
    raises when [num] is above 20, and [Image.open] when the file cannot be
    read, which is asked to an oracle.  The handlers print; an exception of
    their [print] leaves the function, as one of a call made outside a [try]
    does. *)

Definition entry : Type := string * string * Q.

Section Preview.

Variable model : Model.
Variable out : codec.
Variable non_person_dir : string.
Variable confidence_threshold : Q.
Variable max_images : Z.

(** [for box in result.boxes: ...], with its [break] *)
Fixpoint preview_boxes (file_path filename : string) (bs : list Box)
    (mislabelled : list entry) : list entry :=
  match bs with
  | [] => mislabelled
  | box :: bs' =>
      if qualifies confidence_threshold box
      then mislabelled ++ [(file_path, filename, conf box)]
      else preview_boxes file_path filename bs' mislabelled
  end.

(** [for result in results: ...] *)
Fixpoint preview_results (file_path filename : string) (results : list Result)
    (mislabelled : list entry) : list entry :=
  match results with
  | [] => mislabelled
  | result :: results' =>
      preview_results file_path filename results'
        (preview_boxes file_path filename (boxes result) mislabelled)
  end.

(** [for filename in os.listdir(non_person_dir): ...]: the list when the
    loop is left, and the exception that left it, if any. *)
Fixpoint preview_files (listing : list string) (mislabelled : list entry)
  : list entry * option string :=
  match listing with
  | [] => (mislabelled, None)
  | filename :: listing' =>
      if accepted filename then
        let file_path := OsPath.join non_person_dir filename in
        match model file_path with
        | Raises e =>
            match print out (error_notice filename e) with
            | Some e' => (mislabelled, Some e')
            | None => preview_files listing' mislabelled
            end
        | Returns results =>
            let mislabelled' := preview_results file_path filename results mislabelled in
            if (max_images <=? Z.of_nat (length mislabelled'))%Z then (mislabelled', None)
            else preview_files listing' mislabelled'
        end
      else preview_files listing' mislabelled
  end.

End Preview.

(** What happens to an item of the figure. *)
Inductive drawing :=
| Drawn (num : nat) (filename : string) (title : string)
| Unreadable (filename : string) (e : string)
| OutOfGrid (filename : string) (num : nat).

Definition title_of (filename : string) (confidence : Q) : string :=
  filename +:+ newline +:+ "conf: " +:+ Fmt.format_2f confidence.

(** The text of the [ValueError] of [plt.subplot(4, 5, num)]. *)
Definition subplot_error (num : nat) : string :=
  "num must be an integer with 1 <= num <= 20, not " +:+ Fmt.dec (Z.of_nat num).

Definition display_notice (filename e : string) : string :=
  "Error displaying " +:+ filename +:+ ": " +:+ e.

(** The body of the [try] for one item. *)
Definition draw (image_open : string → option string) (i : nat) (item : entry) : drawing :=
  let '(path, filename, confidence) := item in
  match image_open path with
  | Some e => Unreadable filename e
  | None =>
      if (i + 1 <=? 20)%nat then Drawn (i + 1) filename (title_of filename confidence)
      else OutOfGrid filename (i + 1)
  end.

(** What the handler prints for an item that was not drawn. *)
Definition report_of (d : drawing) : option string :=
  match d with
  | Drawn _ _ _ => None
  | Unreadable filename e => Some (display_notice filename e)
  | OutOfGrid filename num => Some (display_notice filename (subplot_error num))
  end.

(** [for i, (path, filename, conf) in enumerate(mislabelled): ...], from
    index [i] on: the items gone through, and the exception that left the
    loop, if any. *)
Fixpoint display (image_open : string → option string) (out : codec) (i : nat)
    (mislabelled : list entry) : list drawing * option string :=
  match mislabelled with
  | [] => ([], None)
  | item :: rest =>
      let d := draw image_open i item in
      match report_of d ≫= print out with
      | Some e => ([d], Some e)
      | None =>
          let (ds, exn) := display image_open out (i + 1) rest in
          (d :: ds, exn)
      end
  end.

(** What the function leaves to see: the list it found and the figure, if it
    made one. *)
Record preview := {
  found : list entry;
  figure : option (list drawing)
}.

Definition found_notice (n : nat) : string :=
  newline +:+ "Found " +:+ Fmt.dec (Z.of_nat n) +:+ " likely mislabeled images.".

Definition nothing_notice : string := "No mislabeled images found to visualize.".

(** A call that returns nothing of use: the function goes on with [k], or
    the exception of the call leaves it. *)
Definition after {A : Type} (call : option string) (k : error + A) : error + A :=
  match call with
  | Some e => inl (Exception e)
  | None => k
  end.

(** The part of the function that shows what was found. *)
Definition show (w : world) (image_open : string → option string)
    (mislabelled : list entry) : error + preview :=
  match mislabelled with
  | [] =>
      after (print (stdout_encoding w) nothing_notice)
        (inr {| found := mislabelled; figure := None |})
  | _ =>
      after (plt_error w Figure)
        (let (ds, exn) := display image_open (stdout_encoding w) 0 mislabelled in
         after exn
           (after (plt_error w TightLayout)
              (after (plt_error w Show)
                 (inr {| found := mislabelled; figure := Some ds |}))))
  end.

Definition visualize_mislabeled_images (w : world) (image_open : string → option string)
    (fs : filesystem) (model_path dataset_root : string)
    (confidence_threshold : Q) (max_images : Z) : error + preview :=
  match YOLO w model_path with
  | NotFound e =>
      inl (FileNotFoundError
             ("Model file not found at " +:+ model_path +:+ ": " +:+ e))
  | Unloadable e =>
      inl (RuntimeError ("Failed to load YOLO model: " +:+ e))
  | Loaded model =>
      let non_person_dir := OsPath.join dataset_root "0" in
      match non_person fs with
      | None =>
          inl (FileNotFoundError
                 ("Non-person directory not found: " +:+ non_person_dir))
      | Some d0 =>
          after (print (stdout_encoding w) starting_notice)
            (after (os_error w (Listdir non_person_dir))
               (let (mislabelled, exn) :=
                  preview_files model (stdout_encoding w) non_person_dir
                    confidence_threshold max_images (listdir d0) [] in
                after exn
                  (after (print (stdout_encoding w) (found_notice (length mislabelled)))
                     (show w image_open mislabelled))))
      end
  end.

(** The match of a file, if it has one: its name and the confidence of the
    first box of the detector's answer that passes the test. *)
Definition hit_of (model : Model) (np : string) (t : Q) (f : string) : list (string * Q) :=
  if accepted f then
    match model (OsPath.join np f) with
    | Returns results =>
        match first_hit t results with
        | Some b => [(f, conf b)]
        | None => []
        end
    | Raises _ => []
    end
  else [].

(** A detector that answers with one result at most. *)
Definition single_result (model : Model) : Prop :=
  ∀ path results, model path = Returns results → (length results ≤ 1)%nat.

Definition pair_of (e : entry) : string * Q := (e.1.2, e.2).

Definition is_drawn (d : drawing) : bool :=
  match d with Drawn _ _ _ => true | _ => false end.

(** Every image can be read. *)
Definition all_readable : string → option string := λ _, None.

(** A listing of twenty-two images, in each of which a person is found. *)
Definition crowd : list (string * content) :=
  (λ n, (String (ascii_of_nat (97 + n)) ".jpg", "")) <$> seq 0 22.

Definition always_person : world :=
  world_of (λ _, Returns [ {| boxes := [person_box (9 # 10)] |} ]).

(** The items of a figure in which every item is gone through. *)
Fixpoint items (image_open : string → option string) (i : nat)
    (mislabelled : list entry) : list drawing :=
  match mislabelled with
  | [] => []
  | item :: rest => draw image_open i item :: items image_open (i + 1) rest
  end.

(** The list of the scan when no [print] raises. *)
Fixpoint quiet_preview (model : Model) (non_person_dir : string) (confidence_threshold : Q)
    (max_images : Z) (listing : list string) (mislabelled : list entry) : list entry :=
  match listing with
  | [] => mislabelled
  | filename :: listing' =>
      if accepted filename then
        let file_path := OsPath.join non_person_dir filename in
        match model file_path with
        | Raises _ =>
            quiet_preview model non_person_dir confidence_threshold max_images
              listing' mislabelled
        | Returns results =>
            let mislabelled' :=
              preview_results confidence_threshold file_path filename results mislabelled in
            if (max_images <=? Z.of_nat (length mislabelled'))%Z then mislabelled'
            else quiet_preview model non_person_dir confidence_threshold max_images
                   listing' mislabelled'
        end
      else quiet_preview model non_person_dir confidence_threshold max_images
             listing' mislabelled
  end.
(** ** The network of the training script

    The script builds its network layer by layer, each layer applied to the
    output of an earlier one.  What is embedded is what decides whether the
    network can be built: the shape of each output, as Keras computes it from
    the shape of the input (height, width, channels; the batch axis is left
    out).  [None] is a layer that cannot be applied. *)

Module Keras.

Definition shape : Type := nat * nat * nat.

Inductive padding := valid | same.

(** The length of an axis after a window of size [k] has been moved over it
    with the given stride. *)
Definition window (p : padding) (n k stride : nat) : option nat :=
  match p with
  | valid => if (k <=? n)%nat then Some ((n - k) / stride + 1) else None
  | same => Some ((n + stride - 1) / stride)
  end.

Definition Input (s : shape) : option shape := Some s.

Definition ZeroPadding2D (pad : nat * nat) (s : shape) : option shape :=
  let '(h, w, c) := s in Some (h + 2 * pad.1, w + 2 * pad.2, c).

Definition Conv2D (filters : nat) (kernel_size : nat * nat) (p : padding)
    (strides : nat * nat) (s : shape) : option shape :=
  let '(h, w, c) := s in
  h' ← window p h kernel_size.1 strides.1;
  w' ← window p w kernel_size.2 strides.2;
  Some (h', w', filters).

Definition DepthwiseConv2D (kernel_size : nat * nat) (p : padding)
    (strides : nat * nat) (s : shape) : option shape :=
  let '(h, w, c) := s in
  h' ← window p h kernel_size.1 strides.1;
  w' ← window p w kernel_size.2 strides.2;
  Some (h', w', c).

Definition BatchNormalization (s : shape) : option shape := Some s.

Definition ReLU (max_value : nat) (s : shape) : option shape := Some s.

(** The two inputs of [Add] have the same shape. *)
Definition Add (a b : shape) : option shape :=
  if decide (a = b) then Some a else None.

(** [AveragePooling2D(pool_size)]: the stride is the size of the pool, the
    padding is [valid]. *)
Definition AveragePooling2D (pool_size : nat) (s : shape) : option shape :=
  let '(h, w, c) := s in
  h' ← window valid h pool_size pool_size;
  w' ← window valid w pool_size pool_size;
  Some (h', w', c).

(** [Reshape(target)]: the number of elements is kept. *)
Definition Reshape (target : list nat) (s : shape) : option (list nat) :=
  let '(h, w, c) := s in
  if (h * w * c =? foldr Nat.mul 1 target)%nat then Some target else None.

(** The layers of the script, in its order and with its variables; the
    result is the shape of [outputs]. *)
Definition model (input_shape : shape) (num_classes : nat) : option (list nat) :=
  inputs ← Input input_shape;
  x ← ZeroPadding2D (1, 1) inputs;
  x ← Conv2D 16 (3, 3) valid (2, 2) x;
  x ← BatchNormalization x;
  x ← ReLU 6 x;
  x ← ZeroPadding2D (1, 1) x;
  x ← DepthwiseConv2D (3, 3) valid (1, 1) x;
  x ← BatchNormalization x;
  x ← ReLU 6 x;
  x ← ZeroPadding2D (0, 0) x;
  x ← Conv2D 8 (1, 1) valid (1, 1) x;
  x ← ZeroPadding2D (0, 0) x;
  x ← Conv2D 24 (1, 1) valid (1, 1) x;
  x ← BatchNormalization x;
  x ← ReLU 6 x;
  x ← ZeroPadding2D (1, 1) x;
  x ← DepthwiseConv2D (3, 3) valid (2, 2) x;
  x ← BatchNormalization x;
  x ← ReLU 6 x;
  x ← ZeroPadding2D (0, 0) x;
  y ← Conv2D 16 (1, 1) valid (1, 1) x;
  x ← ZeroPadding2D (0, 0) y;
  x ← Conv2D 80 (1, 1) valid (1, 1) x;
  x ← BatchNormalization x;
  x ← ReLU 6 x;
  x ← ZeroPadding2D (1, 1) x;
  x ← DepthwiseConv2D (3, 3) valid (1, 1) x;
  x ← BatchNormalization x;
  x ← ReLU 6 x;
  x ← ZeroPadding2D (0, 0) x;
  x ← Conv2D 16 (1, 1) valid (1, 1) x;
  y ← Add x y;
  x ← ZeroPadding2D (0, 0) y;
  x ← Conv2D 96 (1, 1) valid (1, 1) x;
  x ← BatchNormalization x;
  x ← ReLU 6 x;
  x ← ZeroPadding2D (2, 2) x;
  x ← DepthwiseConv2D (5, 5) valid (1, 1) x;
  x ← BatchNormalization x;
  x ← ReLU 6 x;
  x ← ZeroPadding2D (0, 0) x;
  x ← Conv2D 16 (1, 1) valid (1, 1) x;
  y ← Add x y;
  x ← ZeroPadding2D (0, 0) y;
  x ← Conv2D 48 (1, 1) valid (1, 1) x;
  x ← BatchNormalization x;
  x ← ReLU 6 x;
  x ← ZeroPadding2D (1, 1) x;
  x ← DepthwiseConv2D (3, 3) valid (1, 1) x;
  x ← BatchNormalization x;
  x ← ReLU 6 x;
  x ← ZeroPadding2D (0, 0) x;
  x ← Conv2D 16 (1, 1) valid (1, 1) x;
  x ← Add x y;
  x ← ZeroPadding2D (0, 0) x;
  x ← Conv2D 80 (1, 1) valid (1, 1) x;
  x ← BatchNormalization x;
  x ← ReLU 6 x;
  x ← ZeroPadding2D (3, 3) x;
  x ← DepthwiseConv2D (7, 7) valid (2, 2) x;
  x ← BatchNormalization x;
  x ← ReLU 6 x;
  x ← ZeroPadding2D (0, 0) x;
  y ← Conv2D 24 (1, 1) valid (1, 1) x;
  x ← ZeroPadding2D (0, 0) y;
  x ← Conv2D 96 (1, 1) valid (1, 1) x;
  x ← BatchNormalization x;
  x ← ReLU 6 x;
  x ← ZeroPadding2D (2, 2) x;
  x ← DepthwiseConv2D (5, 5) valid (1, 1) x;
  x ← BatchNormalization x;
  x ← ReLU 6 x;
  x ← ZeroPadding2D (0, 0) x;
  x ← Conv2D 24 (1, 1) valid (1, 1) x;
  y ← Add x y;
  x ← ZeroPadding2D (0, 0) y;
  x ← Conv2D 96 (1, 1) valid (1, 1) x;
  x ← BatchNormalization x;
  x ← ReLU 6 x;
  x ← ZeroPadding2D (1, 1) x;
  x ← DepthwiseConv2D (3, 3) valid (1, 1) x;
  x ← BatchNormalization x;
  x ← ReLU 6 x;
  x ← ZeroPadding2D (0, 0) x;
  x ← Conv2D 24 (1, 1) valid (1, 1) x;
  y ← Add x y;
  x ← ZeroPadding2D (0, 0) y;
  x ← Conv2D 144 (1, 1) valid (1, 1) x;
  x ← BatchNormalization x;
  x ← ReLU 6 x;
  x ← ZeroPadding2D (3, 3) x;
  x ← DepthwiseConv2D (7, 7) valid (1, 1) x;
  x ← BatchNormalization x;
  x ← ReLU 6 x;
  x ← ZeroPadding2D (0, 0) x;
  x ← Conv2D 24 (1, 1) valid (1, 1) x;
  x ← Add x y;
  x ← ZeroPadding2D (0, 0) x;
  x ← Conv2D 144 (1, 1) valid (1, 1) x;
  x ← BatchNormalization x;
  x ← ReLU 6 x;
  x ← ZeroPadding2D (1, 1) x;
  x ← DepthwiseConv2D (3, 3) valid (2, 2) x;
  x ← BatchNormalization x;
  x ← ReLU 6 x;
  x ← ZeroPadding2D (0, 0) x;
  y ← Conv2D 40 (1, 1) valid (1, 1) x;
  x ← ZeroPadding2D (0, 0) y;
  x ← Conv2D 240 (1, 1) valid (1, 1) x;
  x ← BatchNormalization x;
  x ← ReLU 6 x;
  x ← ZeroPadding2D (3, 3) x;
  x ← DepthwiseConv2D (7, 7) valid (1, 1) x;
  x ← BatchNormalization x;
  x ← ReLU 6 x;
  x ← ZeroPadding2D (0, 0) x;
  x ← Conv2D 40 (1, 1) valid (1, 1) x;
  y ← Add x y;
  x ← ZeroPadding2D (0, 0) y;
  x ← Conv2D 160 (1, 1) valid (1, 1) x;
  x ← BatchNormalization x;
  x ← ReLU 6 x;
  x ← ZeroPadding2D (2, 2) x;
  x ← DepthwiseConv2D (5, 5) valid (1, 1) x;
  x ← BatchNormalization x;
  x ← ReLU 6 x;
  x ← ZeroPadding2D (0, 0) x;
  x ← Conv2D 40 (1, 1) valid (1, 1) x;
  y ← Add x y;
  x ← ZeroPadding2D (0, 0) y;
  x ← Conv2D 200 (1, 1) valid (1, 1) x;
  x ← BatchNormalization x;
  x ← ReLU 6 x;
  x ← ZeroPadding2D (1, 1) x;
  x ← DepthwiseConv2D (3, 3) valid (1, 1) x;
  x ← BatchNormalization x;
  x ← ReLU 6 x;
  x ← ZeroPadding2D (0, 0) x;
  x ← Conv2D 40 (1, 1) valid (1, 1) x;
  x ← Add x y;
  x ← ZeroPadding2D (0, 0) x;
  x ← Conv2D 200 (1, 1) valid (1, 1) x;
  x ← BatchNormalization x;
  x ← ReLU 6 x;
  x ← ZeroPadding2D (2, 2) x;
  x ← DepthwiseConv2D (5, 5) valid (1, 1) x;
  x ← BatchNormalization x;
  x ← ReLU 6 x;
  x ← ZeroPadding2D (0, 0) x;
  y ← Conv2D 48 (1, 1) valid (1, 1) x;
  x ← ZeroPadding2D (0, 0) y;
  x ← Conv2D 144 (1, 1) valid (1, 1) x;
  x ← BatchNormalization x;
  x ← ReLU 6 x;
  x ← ZeroPadding2D (2, 2) x;
  x ← DepthwiseConv2D (5, 5) valid (1, 1) x;
  x ← BatchNormalization x;
  x ← ReLU 6 x;
  x ← ZeroPadding2D (0, 0) x;
  x ← Conv2D 48 (1, 1) valid (1, 1) x;
  y ← Add x y;
  x ← ZeroPadding2D (0, 0) y;
  x ← Conv2D 192 (1, 1) valid (1, 1) x;
  x ← BatchNormalization x;
  x ← ReLU 6 x;
  x ← ZeroPadding2D (1, 1) x;
  x ← DepthwiseConv2D (3, 3) valid (1, 1) x;
  x ← BatchNormalization x;
  x ← ReLU 6 x;
  x ← ZeroPadding2D (0, 0) x;
  x ← Conv2D 48 (1, 1) valid (1, 1) x;
  y ← Add x y;
  x ← ZeroPadding2D (0, 0) y;
  x ← Conv2D 144 (1, 1) valid (1, 1) x;
  x ← BatchNormalization x;
  x ← ReLU 6 x;
  x ← ZeroPadding2D (2, 2) x;
  x ← DepthwiseConv2D (5, 5) valid (1, 1) x;
  x ← BatchNormalization x;
  x ← ReLU 6 x;
  x ← ZeroPadding2D (0, 0) x;
  x ← Conv2D 48 (1, 1) valid (1, 1) x;
  x ← Add x y;
  x ← ZeroPadding2D (0, 0) x;
  x ← Conv2D 192 (1, 1) valid (1, 1) x;
  x ← BatchNormalization x;
  x ← ReLU 6 x;
  x ← ZeroPadding2D (1, 1) x;
  x ← DepthwiseConv2D (3, 3) valid (2, 2) x;
  x ← BatchNormalization x;
  x ← ReLU 6 x;
  x ← ZeroPadding2D (0, 0) x;
  y ← Conv2D 96 (1, 1) valid (1, 1) x;
  x ← ZeroPadding2D (0, 0) y;
  x ← Conv2D 480 (1, 1) valid (1, 1) x;
  x ← BatchNormalization x;
  x ← ReLU 6 x;
  x ← ZeroPadding2D (2, 2) x;
  x ← DepthwiseConv2D (5, 5) valid (1, 1) x;
  x ← BatchNormalization x;
  x ← ReLU 6 x;
  x ← ZeroPadding2D (0, 0) x;
  x ← Conv2D 96 (1, 1) valid (1, 1) x;
  y ← Add x y;
  x ← ZeroPadding2D (0, 0) y;
  x ← Conv2D 384 (1, 1) valid (1, 1) x;
  x ← BatchNormalization x;
  x ← ReLU 6 x;
  x ← ZeroPadding2D (2, 2) x;
  x ← DepthwiseConv2D (5, 5) valid (1, 1) x;
  x ← BatchNormalization x;
  x ← ReLU 6 x;
  x ← ZeroPadding2D (0, 0) x;
  x ← Conv2D 96 (1, 1) valid (1, 1) x;
  y ← Add x y;
  x ← ZeroPadding2D (0, 0) y;
  x ← Conv2D 384 (1, 1) valid (1, 1) x;
  x ← BatchNormalization x;
  x ← ReLU 6 x;
  x ← ZeroPadding2D (1, 1) x;
  x ← DepthwiseConv2D (3, 3) valid (1, 1) x;
  x ← BatchNormalization x;
  x ← ReLU 6 x;
  x ← ZeroPadding2D (0, 0) x;
  x ← Conv2D 96 (1, 1) valid (1, 1) x;
  x ← Add x y;
  x ← ZeroPadding2D (0, 0) x;
  x ← Conv2D 480 (1, 1) valid (1, 1) x;
  x ← BatchNormalization x;
  x ← ReLU 6 x;
  x ← ZeroPadding2D (1, 1) x;
  x ← DepthwiseConv2D (3, 3) valid (1, 1) x;
  x ← BatchNormalization x;
  x ← ReLU 6 x;
  x ← ZeroPadding2D (0, 0) x;
  x ← Conv2D 160 (1, 1) valid (1, 1) x;
  x ← AveragePooling2D 5 x;
  x ← Conv2D 2 (1, 1) valid (1, 1) x;
  outputs ← Reshape [num_classes] x;
  Some outputs.

End Keras.

Definition input_shape : Keras.shape := (144, 144, 3).

Definition num_classes : nat := 2.

(** ** The test of the quantized model

    The loop at the end of the training script.  A sample of the test set is
    given by the class of its label and the class the interpreter answers
    for its image ([argmax] of each).  The samples are only counted when the
    input of the interpreter is of type [uint8].  The script then prints
    [correct/(correct+wrong)*100]: a division by zero raises, and otherwise
    the number printed is that of the two counts, which is what is kept. *)

Inductive report :=
| ZeroDivisionError
| Ratio (correct total : nat).

Fixpoint test_loop (input_is_uint8 : bool) (test_ds : list (nat * nat))
    (correct wrong : nat) : nat * nat :=
  match test_ds with
  | [] => (correct, wrong)
  | (label, answer) :: test_ds' =>
      if input_is_uint8 then
        if (label =? answer)%nat
        then test_loop input_is_uint8 test_ds' (correct + 1) wrong
        else test_loop input_is_uint8 test_ds' correct (wrong + 1)
      else test_loop input_is_uint8 test_ds' correct wrong
  end.

Definition test_accuracy (input_is_uint8 : bool) (test_ds : list (nat * nat)) : report :=
  let '(correct, wrong) := test_loop input_is_uint8 test_ds 0 0 in
  if (correct + wrong =? 0)%nat then ZeroDivisionError
  else Ratio correct (correct + wrong).

(** Membership in a trace given as a concatenation. *)
Ltac in_trace := rewrite ?elem_of_app, ?elem_of_cons; eauto 10.


(** * Properties *)

Example lower_mixed : PyStr.lower "Cat.JpG" = "cat.jpg".
Proof. reflexivity. Qed.

Example endswith_jpeg : PyStr.endswith_any "cat.jpeg" [".jpg"; ".jpeg"; ".png"] = true.
Proof. reflexivity. Qed.

Example endswith_txt : PyStr.endswith_any "notes.txt" [".jpg"; ".jpeg"; ".png"] = false.
Proof. reflexivity. Qed.

Example join_plain : OsPath.join "data" "0" = "data/0".
Proof. reflexivity. Qed.

Example join_slash : OsPath.join "data/" "0" = "data/0".
Proof. reflexivity. Qed.

Example format_half : Fmt.format_2f (1 # 2) = "0.50".
Proof. reflexivity. Qed.

Example format_tie : Fmt.format_2f (1 # 8) = "0.12".
Proof. reflexivity. Qed.

Example format_up : Fmt.format_2f (999 # 1000) = "1.00".
Proof. reflexivity. Qed.

Example strftime_ex :
  Fmt.strftime {| Fmt.year := 2025; Fmt.month := 3; Fmt.day := 9;
                  Fmt.hour := 14; Fmt.minute := 5; Fmt.second := 0 |}
  = "20250309_140500".
Proof. reflexivity. Qed.

(** ** Strings and rationals *)

Lemma append_assoc (a b c : string) : (a +:+ b) +:+ c = a +:+ (b +:+ c).
Proof.
  induction a as [|x a IH]; [reflexivity |].
  change (String x ((a +:+ b) +:+ c) = String x (a +:+ (b +:+ c))).
  by rewrite IH.
Qed.

Lemma append_nil_r (a : string) : a +:+ "" = a.
Proof.
  induction a as [|x a IH]; [reflexivity |].
  change (String x (a +:+ "") = String x a). by rewrite IH.
Qed.

Lemma render_app (a b : list event) : render (a ++ b) = render a +:+ render b.
Proof.
  induction a as [|ev a IH]; simpl; [reflexivity |].
  by rewrite IH, append_assoc.
Qed.

Lemma count_moved_app (a b : list event) :
  count_moved (a ++ b) = count_moved a + count_moved b.
Proof. induction a as [|ev a IH]; simpl; [reflexivity | rewrite IH; lia]. Qed.

Lemma Qgtb_lt (x y : Q) : Qgtb x y = true ↔ (y < x)%Q.
Proof.
  unfold Qgtb. rewrite negb_true_iff. split.
  - intros H. apply Qnot_le_lt. intros Hle.
    apply Qle_bool_iff in Hle. congruence.
  - intros H. destruct (Qle_bool x y) eqn:E; [| reflexivity].
    apply Qle_bool_iff in E. exfalso. exact (Qlt_not_le _ _ H E).
Qed.

Lemma qualifies_spec (t : Q) (b : Box) :
  qualifies t b = true ↔ cls b = 0%Z ∧ (t < conf b)%Q.
Proof.
  unfold qualifies. cbv zeta. rewrite andb_true_iff, Z.eqb_eq, Qgtb_lt.
  reflexivity.
Qed.

(** ** A rule for the loops

    A relation between states that is reflexive and transitive holds
    between the state before and the state after a loop as soon as it holds
    across each of the steps the loop is made of. *)

Section Rules.

Variable model : Model.
Variable os_refused : string → string → option refusal.
Variables np pd : string.
Variable t : Q.
Variable P : state → state → Prop.
Hypothesis P_refl : ∀ st, P st st.
Hypothesis P_trans : ∀ a b c, P a b → P b c → P a c.

Lemma quiet_boxes_rule (f p : string) (bs : list Box) (st : state) :
  (∀ b st0, b ∈ bs → qualifies t b = true →
            P st0 (quiet_relocate os_refused pd f p (conf b) st0).1) →
  P st (quiet_boxes os_refused pd t f p bs st).1.
Proof.
  induction bs as [|b bs IH]; intros H; simpl; [apply P_refl |].
  destruct (qualifies t b) eqn:E.
  - apply H; [left | exact E].
  - apply IH. intros b' st0 Hin. apply H. by right.
Qed.

Lemma quiet_results_rule (f p : string) (results : list Result) (st : state) :
  (∀ r b st0, r ∈ results → b ∈ boxes r → qualifies t b = true →
              P st0 (quiet_relocate os_refused pd f p (conf b) st0).1) →
  P st (quiet_results os_refused pd t f p results st).1.
Proof.
  revert st. induction results as [|r results IH]; intros st H; simpl;
    [apply P_refl |].
  pose proof (quiet_boxes_rule f p (boxes r) st) as Hb.
  destruct (quiet_boxes os_refused pd t f p (boxes r) st) as [st' [e|]]; simpl in *.
  - apply Hb. intros b st0 Hin Hq. apply (H r); [left | done | done].
  - apply P_trans with st'.
    + apply Hb. intros b st0 Hin Hq. apply (H r); [left | done | done].
    + apply IH. intros r' b st0 Hin Hin' Hq.
      apply (H r'); [by right | done | done].
Qed.

Lemma quiet_file_rule (f : string) (st : state) :
  (accepted f = true →
   (∀ st0, P st0 (record (Detect (OsPath.join np f)) st0)) ∧
   (∀ e st0, P st0 (quiet_handler f e st0)) ∧
   (∀ results r b st0,
      model (OsPath.join np f) = Returns results →
      r ∈ results → b ∈ boxes r → qualifies t b = true →
      P st0 (quiet_relocate os_refused pd f (OsPath.join np f) (conf b) st0).1)) →
  P st (quiet_file model os_refused np pd t st f).
Proof.
  intros H. unfold quiet_file.
  destruct (accepted f); [| apply P_refl].
  destruct (H eq_refl) as (Hd & Hh & Hr).
  apply P_trans with (record (Detect (OsPath.join np f)) st); [apply Hd |].
  destruct (model (OsPath.join np f)) as [results | e] eqn:Em; [| apply Hh].
  pose proof (quiet_results_rule f (OsPath.join np f) results
                (record (Detect (OsPath.join np f)) st)) as Hres.
  destruct (quiet_results _ _ _ _ _ results _) as [st2 [e|]]; simpl in *.
  - apply P_trans with st2; [| apply Hh].
    apply Hres. intros r b st0. by apply (Hr results).
  - apply Hres. intros r b st0. by apply (Hr results).
Qed.

Lemma quiet_files_rule (listing : list string) (st : state) :
  (∀ f st0, f ∈ listing → P st0 (quiet_file model os_refused np pd t st0 f)) →
  P st (quiet_files model os_refused np pd t listing st).
Proof.
  revert st. induction listing as [|f listing IH]; intros st H; simpl;
    [apply P_refl |].
  apply P_trans with (quiet_file model os_refused np pd t st f).
  - apply H. left.
  - apply IH. intros g st0 Hin. apply H. by right.
Qed.

End Rules.

(** ** The events of a scan *)

Lemma emits_refl (R : event → Prop) (st : state) : emits R st st.
Proof.
  exists []. simpl. rewrite app_nil_r, append_nil_r, Nat.add_0_r.
  repeat split. constructor.
Qed.

Lemma emits_trans (R : event → Prop) (a b c : state) :
  emits R a b → emits R b c → emits R a c.
Proof.
  intros (e1 & Ht1 & HQ1 & Hl1 & Hm1) (e2 & Ht2 & HQ2 & Hl2 & Hm2).
  exists (e1 ++ e2). rewrite render_app, count_moved_app.
  repeat split.
  - by rewrite Ht2, Ht1, app_assoc.
  - by apply Forall_app_2.
  - by rewrite Hl2, Hl1, append_assoc.
  - lia.
Qed.

Lemma emits_weaken (R R' : event → Prop) (st st' : state) :
  (∀ ev, R ev → R' ev) → emits R st st' → emits R' st st'.
Proof.
  intros H (evs & Ht & HQ & Hl & Hm). exists evs. repeat split; try done.
  eapply Forall_impl; eauto.
Qed.

Lemma emits_record (R : event → Prop) (ev : event) (st : state) :
  R ev → line ev = "" → is_moved ev = false → emits R st (record ev st).
Proof.
  intros HQ Hl Hm. exists [ev]. simpl. rewrite Hl, Hm. simpl.
  rewrite append_nil_r, Nat.add_0_r. repeat split. by constructor.
Qed.

Lemma emits_handler (R : event → Prop) (f e : string) (st : state) :
  R (Failed f e) → emits R st (quiet_handler f e st).
Proof.
  intros HQ. exists [Failed f e]. simpl.
  rewrite append_nil_r, Nat.add_0_r. repeat split. by constructor.
Qed.

Lemma emits_relocate (R : event → Prop) os_refused (pd f p : string) (c : Q) (st : state) :
  R (Match f c) → R (Moved f c) →
  emits R st (quiet_relocate os_refused pd f p c st).1.
Proof.
  intros HM HV. unfold quiet_relocate, shutil_move. cbv zeta. simpl.
  destruct (lookup_file f (dir0 st)) as [data|];
    [destruct (os_refused p (OsPath.join pd f)) as [e|] |]; simpl.
  - exists [Match f c]. simpl. rewrite append_nil_r, Nat.add_0_r.
    repeat split. by constructor.
  - exists [Match f c; Moved f c]. simpl.
    rewrite append_nil_r, <- app_assoc. repeat split.
    by repeat constructor.
  - by apply emits_record.
Qed.

Lemma quiet_file_emits model os_refused (np pd : string) (t : Q) (f : string) (st : state) :
  emits (origin model np t [f]) st (quiet_file model os_refused np pd t st f).
Proof.
  apply quiet_file_rule;
    [apply emits_refl | apply emits_trans |].
  intros Ha. split; [| split].
  - intros st0. apply emits_record; try done.
    exists f. repeat split; [left | done].
  - intros e st0. apply emits_handler.
    exists f. repeat split; [left | done].
  - intros results r b st0 Hm Hr Hb Hq.
    apply emits_relocate; exists f;
      (split; [left | split; [done | split; [done |]]]);
      by exists results, r, b.
Qed.

Lemma origin_mono model (np : string) (t : Q) (l l' : list string) (ev : event) :
  l ⊆ l' → origin model np t l ev → origin model np t l' ev.
Proof. intros Hsub (f & Hin & H). exists f. split; [by apply Hsub | done]. Qed.

Lemma quiet_files_emits model os_refused (np pd : string) (t : Q)
    (listing : list string) (st : state) :
  emits (origin model np t listing) st
    (quiet_files model os_refused np pd t listing st).
Proof.
  apply quiet_files_rule;
    [apply emits_refl | apply emits_trans |].
  intros f st0 Hin.
  eapply emits_weaken; [| apply quiet_file_emits].
  intros ev. apply origin_mono. intros g Hg.
  apply list_elem_of_singleton in Hg. by subst.
Qed.

Lemma elem_of_matches (f : string) (c : Q) (evs : list event) :
  (f, c) ∈ matches evs ↔ Match f c ∈ evs.
Proof.
  induction evs as [|ev evs IH]; simpl.
  - split; intros H; inversion H.
  - destruct ev as [p | g c' | g c' | g e]; rewrite ?elem_of_cons, IH.
    + split; [by right | intros [H | H]; [discriminate | done]].
    + split; (intros [H | H]; [left; congruence | by right]).
    + split; [by right | intros [H | H]; [discriminate | done]].
    + split; [by right | intros [H | H]; [discriminate | done]].
Qed.

(** ** The two directories *)

Lemma lookup_remove_eq (f : string) (d : list (string * content)) :
  lookup_file f (remove_file f d) = None.
Proof.
  induction d as [|[name data] d IH]; simpl; [reflexivity |].
  destruct (String.eqb name f) eqn:E; simpl; [exact IH |].
  by rewrite E.
Qed.

Lemma lookup_remove_ne (f g : string) (d : list (string * content)) :
  g ≠ f → lookup_file g (remove_file f d) = lookup_file g d.
Proof.
  intros Hne. induction d as [|[name data] d IH]; simpl; [reflexivity |].
  destruct (String.eqb name f) eqn:E; simpl.
  - apply String.eqb_eq in E. subst name.
    destruct (String.eqb f g) eqn:E'; [| exact IH].
    apply String.eqb_eq in E'. congruence.
  - by rewrite IH.
Qed.

Lemma lookup_remove_None (f g : string) (d : list (string * content)) :
  lookup_file g d = None → lookup_file g (remove_file f d) = None.
Proof.
  intros H. destruct (decide (g = f)) as [-> | Hne].
  - apply lookup_remove_eq.
  - by rewrite lookup_remove_ne.
Qed.

Lemma lookup_file_listdir (f : string) (d : list (string * content)) :
  f ∈ listdir d ↔ is_Some (lookup_file f d).
Proof.
  unfold listdir. induction d as [|[name data] d IH]; simpl.
  - split; [intros H; inversion H | intros [x H]; discriminate].
  - rewrite elem_of_cons, IH. destruct (String.eqb name f) eqn:E.
    + apply String.eqb_eq in E. split; [by eexists | by left].
    + apply eqb_neq in E. split; [intros [H | H]; [congruence | done] | by right].
Qed.

Lemma settled_record (ev : event) (st : state) :
  is_moved ev = false → settled st → settled (record ev st).
Proof.
  intros Hm H f c Hin. simpl in *.
  apply elem_of_app in Hin as [Hin | Hin].
  - destruct (H f c Hin) as (H1 & H2 & H3). repeat split; try done.
    apply elem_of_app. by left.
  - apply list_elem_of_singleton in Hin. subst ev. discriminate.
Qed.

Lemma settled_handler (f e : string) (st : state) :
  settled st → settled (quiet_handler f e st).
Proof. intros H. unfold quiet_handler. by apply settled_record. Qed.

Lemma settled_left_over (f : string) (copy : option content) (st : state) :
  settled st → settled (left_over f copy st).
Proof.
  intros H g c Hin. destruct (H g c Hin) as (H1 & H2 & H3).
  split; [done | split; [| done]].
  destruct copy as [data|]; simpl; [| done].
  apply lookup_insert_is_Some'. by right.
Qed.

Lemma settled_relocate os_refused (pd f p : string) (c : Q) (st : state) :
  settled st → settled (quiet_relocate os_refused pd f p c st).1.
Proof.
  intros H. unfold quiet_relocate, shutil_move. cbv zeta. simpl.
  destruct (lookup_file f (dir0 st)) as [data|];
    [destruct (os_refused p (OsPath.join pd f)) as [e|] |]; simpl;
    try (by apply settled_record);
    try (by apply settled_left_over, settled_record).
  intros g c' Hin. simpl in *.
  apply elem_of_app in Hin as [Hin | Hin].
  - apply elem_of_app in Hin as [Hin | Hin].
    + destruct (H g c' Hin) as (H1 & H2 & H3). repeat split.
      * apply elem_of_app. left. apply elem_of_app. by left.
      * apply lookup_insert_is_Some'. by right.
      * by apply lookup_remove_None.
    + apply list_elem_of_singleton in Hin. discriminate.
  - apply list_elem_of_singleton in Hin. injection Hin as -> ->.
    repeat split.
    + apply elem_of_app. left. apply elem_of_app. right. left.
    + rewrite lookup_insert_eq. by eexists.
    + apply lookup_remove_eq.
Qed.

Lemma quiet_files_settled model os_refused (np pd : string) (t : Q)
    (listing : list string) (st : state) :
  settled st → settled (quiet_files model os_refused np pd t listing st).
Proof.
  apply (quiet_files_rule model os_refused np pd t
           (λ a b, settled a → settled b)); [auto | auto |].
  intros f st0 _.
  apply (quiet_file_rule model os_refused np pd t
           (λ a b, settled a → settled b)); [auto | auto |].
  intros _. split; [| split].
  - intros st1. by apply settled_record.
  - intros e st1. apply settled_handler.
  - intros results r b st1 _ _ _ _. apply settled_relocate.
Qed.

Lemma settled_initial (d0 : list (string * content)) (d1 : gmap string content) :
  settled (initial d0 d1).
Proof. intros f c H. inversion H. Qed.

(** ** The scan as a whole *)

Lemma quiet_scan_spec w model (root : string) (t : Q) d0 d1 :
  let st := quiet_scan w model root t d0 d1 in
  Forall (origin model (OsPath.join root "0") t (listdir d0)) (trace st) ∧
  log_file st = header +:+ render (trace st) ∧
  moved_count st = count_moved (trace st) ∧
  settled st.
Proof.
  cbv zeta. unfold quiet_scan.
  destruct (quiet_files_emits model (refused w) (OsPath.join root "0")
              (OsPath.join root "1") t (listdir d0) (initial d0 d1))
    as (evs & Ht & HQ & Hl & Hm).
  simpl in Ht, Hl, Hm. rewrite Ht, Hl, Hm.
  split; [done | split; [done | split; [done |]]].
  apply quiet_files_settled, settled_initial.
Qed.

Lemma origin_match model (np : string) (t : Q) (listing : list string) (f : string) (c : Q) :
  origin model np t listing (Match f c) ∨ origin model np t listing (Moved f c) →
  f ∈ listing ∧ accepted f = true ∧
  ∃ results r b, model (OsPath.join np f) = Returns results ∧
                 r ∈ results ∧ b ∈ boxes r ∧ cls b = 0%Z ∧ (t < conf b)%Q ∧ conf b = c.
Proof.
  intros [H | H]; destruct H as (g & Hin & Ha & -> & results & r & b & Hm & Hr & Hb & Hq & Hc);
    apply qualifies_spec in Hq as [Hcls Hlt];
    (split; [done | split; [done |]]); by exists results, r, b.
Qed.

(** ** Names and extensions *)

Lemma endswith_unfold (s suffix : string) :
  PyStr.endswith s suffix =
  if String.eqb s suffix then true
  else match s with
       | EmptyString => false
       | String _ s' => PyStr.endswith s' suffix
       end.
Proof. by destruct s. Qed.

Lemma endswith_spec (s suffix : string) :
  PyStr.endswith s suffix = true ↔ ∃ stem, s = stem +:+ suffix.
Proof.
  induction s as [|x s IH]; rewrite endswith_unfold.
  - destruct (String.eqb_spec "" suffix) as [<- | Hne];
      [split; [by exists "" | done] |].
    split; [discriminate |].
    intros [[|y stem] H]; [done | discriminate].
  - destruct (String.eqb_spec (String x s) suffix) as [<- | Hne];
      [split; [by exists "" | done] |].
    rewrite IH. split.
    + intros [stem ->]. by exists (String x stem).
    + intros [[|y stem] H]; [done |].
      change (String x s = String y (stem +:+ suffix)) in H.
      injection H as -> ->. by exists stem.
Qed.

Lemma lower_app (a b : string) :
  PyStr.lower (a +:+ b) = PyStr.lower a +:+ PyStr.lower b.
Proof.
  induction a as [|x a IH]; [reflexivity |].
  change (String (PyStr.lower_char x) (PyStr.lower (a +:+ b))
          = String (PyStr.lower_char x) (PyStr.lower a +:+ PyStr.lower b)).
  by rewrite IH.
Qed.

Lemma lower_split (s a b : string) :
  PyStr.lower s = a +:+ b → ∃ s1 s2, s = s1 +:+ s2 ∧ PyStr.lower s2 = b.
Proof.
  revert s. induction a as [|x a IH]; intros s H.
  - by exists "", s.
  - destruct s as [|y s]; [discriminate |].
    change (String (PyStr.lower_char y) (PyStr.lower s) = String x (a +:+ b)) in H.
    injection H as _ H. destruct (IH s H) as (s1 & s2 & -> & Hl).
    by exists (String y s1), s2.
Qed.

Lemma accepted_spec (f : string) : accepted f = true ↔ has_image_extension f.
Proof.
  unfold accepted, PyStr.endswith_any, has_image_extension, image_extensions.
  simpl. rewrite !orb_true_iff, !endswith_spec. split.
  - intros [[stem H] | [[stem H] | [[stem H] | H]]]; [| | | done];
      destruct (lower_split _ _ _ H) as (s1 & s2 & -> & Hl);
      exists s1, s2; (split; [done |]); rewrite Hl; set_solver.
  - intros (stem & ext & -> & Hin). rewrite lower_app.
    rewrite !elem_of_cons in Hin.
    destruct Hin as [-> | [-> | [-> | Hin]]]; [| | | inversion Hin]; eauto.
Qed.

Lemma quiet_file_skips model os_refused (np pd : string) (t : Q) (f : string) (st : state) :
  accepted f = false → quiet_file model os_refused np pd t st f = st.
Proof. intros H. unfold quiet_file. by rewrite H. Qed.

Lemma quiet_files_filter model os_refused (np pd : string) (t : Q)
    (listing : list string) (st : state) :
  quiet_files model os_refused np pd t listing st =
  quiet_files model os_refused np pd t (filter (λ f, accepted f = true) listing) st.
Proof.
  revert st. induction listing as [|f listing IH]; intros st; [reflexivity |].
  rewrite filter_cons. case_decide as Ha; simpl.
  - apply IH.
  - rewrite quiet_file_skips; [apply IH |]. by destruct (accepted f).
Qed.

Lemma trace_grows model os_refused (np pd : string) (t : Q) (listing : list string) (st : state) :
  ∃ evs, trace (quiet_files model os_refused np pd t listing st) = trace st ++ evs.
Proof.
  destruct (quiet_files_emits model os_refused np pd t listing st) as (evs & H & _).
  by exists evs.
Qed.

Lemma quiet_file_detects model os_refused (np pd : string) (t : Q) (f : string) (st : state) :
  accepted f = true →
  ∃ evs, trace (quiet_file model os_refused np pd t st f)
         = trace st ++ Detect (OsPath.join np f) :: evs.
Proof.
  intros Ha. unfold quiet_file. rewrite Ha. cbv zeta.
  destruct (model (OsPath.join np f)) as [results | e].
  - pose proof (quiet_results_rule os_refused pd t (emits (λ _, True))
                  (emits_refl _) (emits_trans _) f (OsPath.join np f) results
                  (record (Detect (OsPath.join np f)) st)) as H.
    destruct (quiet_results _ _ _ _ _ results _) as [st2 [e|]]; simpl in H;
      destruct H as (evs & Ht & _);
      try (intros; by apply emits_relocate); simpl in Ht.
    + exists (evs ++ [Failed f e]). simpl. rewrite Ht.
      by rewrite <- !app_assoc.
    + exists evs. rewrite Ht. by rewrite <- app_assoc.
  - exists [Failed f e]. simpl. by rewrite <- app_assoc.
Qed.

Lemma quiet_files_detects model os_refused (np pd : string) (t : Q)
    (listing : list string) (f : string) (st : state) :
  f ∈ listing → accepted f = true →
  Detect (OsPath.join np f) ∈ trace (quiet_files model os_refused np pd t listing st).
Proof.
  intros Hin Ha. revert st. induction listing as [|g listing IH]; intros st;
    [inversion Hin |].
  simpl. apply elem_of_cons in Hin as [<- | Hin]; [| by apply IH].
  destruct (quiet_file_detects model os_refused np pd t f st Ha) as [evs Ht].
  destruct (trace_grows model os_refused np pd t listing
              (quiet_file model os_refused np pd t st f)) as [evs' Ht'].
  rewrite Ht', Ht. set_solver.
Qed.

Lemma remove_file_idem (f : string) (d : list (string * content)) :
  remove_file f (remove_file f d) = remove_file f d.
Proof.
  induction d as [|[name data] d IH]; simpl; [reflexivity |].
  destruct (String.eqb name f) eqn:E; simpl; [exact IH |].
  by rewrite E, IH.
Qed.

(** Processing a file leaves the non-person directory as it was or without
    that file. *)
Lemma quiet_file_dir0 model os_refused (np pd : string) (t : Q) (f : string) (st : state) :
  let st' := quiet_file model os_refused np pd t st f in
  dir0 st' = dir0 st ∨ dir0 st' = remove_file f (dir0 st).
Proof.
  cbv zeta.
  apply (quiet_file_rule model os_refused np pd t
           (λ a b, dir0 b = dir0 a ∨ dir0 b = remove_file f (dir0 a))).
  - by left.
  - intros a b c [-> | ->] [-> | ->]; auto. right. apply remove_file_idem.
  - intros _. split; [| split].
    + by left.
    + by left.
    + intros results r b st0 _ _ _ _. unfold quiet_relocate, shutil_move. cbv zeta. simpl.
      destruct (lookup_file f (dir0 st0)) as [data|];
        [destruct (os_refused _ _) as [e|] |]; simpl; auto.
Qed.

Lemma quiet_file_other model os_refused (np pd : string) (t : Q) (f g : string) (st : state) :
  g ≠ f ∨ accepted f = false →
  lookup_file g (dir0 (quiet_file model os_refused np pd t st f))
  = lookup_file g (dir0 st).
Proof.
  intros [Hne | Ha]; [| by rewrite quiet_file_skips].
  destruct (quiet_file_dir0 model os_refused np pd t f st) as [-> | ->];
    [done | by apply lookup_remove_ne].
Qed.

Lemma quiet_files_keeps model os_refused (np pd : string) (t : Q)
    (listing : list string) (f : string) (st : state) :
  (∀ g, g ∈ listing → f ≠ g ∨ accepted g = false) →
  lookup_file f (dir0 (quiet_files model os_refused np pd t listing st))
  = lookup_file f (dir0 st).
Proof.
  intros H.
  apply (quiet_files_rule model os_refused np pd t
           (λ a b, lookup_file f (dir0 b) = lookup_file f (dir0 a))).
  - done.
  - intros a b c Hab Hbc. by rewrite Hbc.
  - intros g st0 Hg. by apply quiet_file_other, H.
Qed.

Lemma quiet_boxes_find os_refused (pd : string) (t : Q) (f p : string) (bs : list Box) (st : state) :
  quiet_boxes os_refused pd t f p bs st =
  match find (qualifies t) bs with
  | Some b => quiet_relocate os_refused pd f p (conf b) st
  | None => (st, None)
  end.
Proof.
  induction bs as [|b bs IH]; simpl; [reflexivity |].
  by destruct (qualifies t b).
Qed.

Lemma quiet_results_raises os_refused (pd : string) (t : Q) (f p : string)
    (results : list Result) (st st1 : state) (b : Box) (e : string) :
  first_hit t results = Some b →
  quiet_relocate os_refused pd f p (conf b) st = (st1, Some e) →
  quiet_results os_refused pd t f p results st = (st1, Some e).
Proof.
  intros Hh Hr. induction results as [|r results IH]; [discriminate |].
  simpl in *. rewrite quiet_boxes_find.
  destruct (find (qualifies t) (boxes r)) as [b'|].
  - injection Hh as ->. by rewrite Hr.
  - by apply IH.
Qed.

(** ** The name of the log and its lines *)







(** ** Hits *)

Lemma first_hit_None (t : Q) (results : list Result) :
  first_hit t results = None →
  ∀ r b, r ∈ results → b ∈ boxes r → qualifies t b = false.
Proof.
  induction results as [|r0 results IH]; intros H r b Hr Hb; [inversion Hr |].
  simpl in H. destruct (find (qualifies t) (boxes r0)) eqn:E; [discriminate |].
  apply elem_of_cons in Hr as [-> | Hr].
  - apply (find_none _ _ E). by apply list_elem_of_In.
  - by apply (IH H r).
Qed.

Lemma first_hit_Some (t : Q) (results : list Result) (b : Box) :
  first_hit t results = Some b →
  qualifies t b = true ∧ ∃ r, r ∈ results ∧ b ∈ boxes r.
Proof.
  induction results as [|r0 results IH]; intros H; [discriminate |].
  simpl in H. destruct (find (qualifies t) (boxes r0)) as [b'|] eqn:E.
  - injection H as ->. apply find_some in E as [Hin Hq].
    split; [done |]. exists r0. split; [left | by apply list_elem_of_In].
  - destruct (IH H) as (Hq & r & Hr & Hb). split; [done |].
    exists r. split; [by right | done].
Qed.

(** ** Files that stay *)

Lemma relocate_dir0 os_refused (pd f p : string) (c : Q) (st : state) :
  let st' := (quiet_relocate os_refused pd f p c st).1 in
  dir0 st' = dir0 st ∨ dir0 st' = remove_file f (dir0 st).
Proof.
  cbv zeta. unfold quiet_relocate, shutil_move. cbv zeta. simpl.
  destruct (lookup_file f (dir0 st)) as [data|];
    [destruct (os_refused _ _) as [e|] |]; simpl; auto.
Qed.

Lemma quiet_results_gone_stays os_refused (pd : string) (t : Q) (f p : string)
    (results : list Result) (st : state) :
  lookup_file f (dir0 st) = None →
  lookup_file f (dir0 (quiet_results os_refused pd t f p results st).1) = None.
Proof.
  apply (quiet_results_rule os_refused pd t
           (λ a b, lookup_file f (dir0 a) = None → lookup_file f (dir0 b) = None));
    [auto | auto |].
  intros r b st0 _ _ _ H.
  destruct (relocate_dir0 os_refused pd f p (conf b) st0) as [-> | ->];
    [done | apply lookup_remove_eq].
Qed.

Lemma quiet_results_gone os_refused (pd : string) (t : Q) (f p : string)
    (results : list Result) (st : state) (b : Box) :
  first_hit t results = Some b → os_refused p (OsPath.join pd f) = None →
  lookup_file f (dir0 (quiet_results os_refused pd t f p results st).1) = None.
Proof.
  intros Hh Hr. revert st. induction results as [|r results IH]; intros st;
    [discriminate |].
  simpl in *. rewrite quiet_boxes_find.
  destruct (find (qualifies t) (boxes r)) as [b'|]; [| by apply IH].
  unfold quiet_relocate, shutil_move. cbv zeta. simpl.
  destruct (lookup_file f (dir0 st)) as [data|] eqn:El; [| by simpl].
  rewrite Hr. apply quiet_results_gone_stays. simpl. apply lookup_remove_eq.
Qed.

Lemma gone_or_stuck model os_refused (np pd : string) (t : Q) (f : string) (st : state) :
  lookup_file f (dir0 (quiet_file model os_refused np pd t st f)) = None ∨
  stuck model os_refused np pd t f.
Proof.
  unfold stuck, quiet_file.
  destruct (accepted f) eqn:Ha; [| by right; left]. cbv zeta.
  destruct (model (OsPath.join np f)) as [results | e] eqn:Em;
    [| right; right; left; by exists e].
  destruct (first_hit t results) as [b|] eqn:Eh;
    [| right; right; right; left; by exists results].
  destruct (os_refused (OsPath.join np f) (OsPath.join pd f)) as [e|] eqn:Er;
    [right; right; right; right; by exists e |].
  left.
  pose proof (quiet_results_gone os_refused pd t f (OsPath.join np f) results
                (record (Detect (OsPath.join np f)) st) b Eh Er) as H.
  by destruct (quiet_results _ _ _ _ _ results _) as [st2 [e|]].
Qed.

Lemma quiet_results_miss os_refused (pd : string) (t : Q) (f p : string)
    (results : list Result) (st : state) :
  first_hit t results = None →
  quiet_results os_refused pd t f p results st = (st, None).
Proof.
  induction results as [|r results IH]; intros Hh; [reflexivity |].
  simpl in *. rewrite quiet_boxes_find.
  destruct (find (qualifies t) (boxes r)); [discriminate |]. by apply IH.
Qed.

(** A file that cannot be moved leaves the two directories and the counter
    as they are, when the person directory has already what a failed move of
    the file leaves there. *)
Lemma stuck_stays model os_refused (np pd : string) (t : Q) (f : string) (st : state) :
  stuck model os_refused np pd t f →
  absorbed model os_refused np pd t st →
  let st' := quiet_file model os_refused np pd t st f in
  dir0 st' = dir0 st ∧ dir1 st' = dir1 st ∧ moved_count st' = moved_count st.
Proof.
  intros Hs Hab. cbv zeta. unfold quiet_file.
  destruct (accepted f) eqn:Ha; [| done]. cbv zeta.
  destruct (model (OsPath.join np f)) as [results | e] eqn:Em; [| done].
  destruct (first_hit t results) as [b|] eqn:Eh.
  - destruct Hs as [Hs | [[e Hs] | [(results' & Hs & Hn) | [r Hs]]]];
      [congruence | congruence | congruence |].
    destruct (lookup_file f (dir0 st)) as [data|] eqn:El.
    + rewrite (quiet_results_raises os_refused pd t f (OsPath.join np f) results _
                 (left_over f (left_behind r data)
                    (record (Match f (conf b)) (record (Detect (OsPath.join np f)) st)))
                 b (reason r) Eh).
      * simpl. split; [done | split; [| done]].
        destruct (left_behind r data) as [copy|] eqn:Ec; [| done].
        apply insert_id. apply (Hab f data results b copy El Ha Em Eh).
        unfold residue. rewrite Hs. exact Ec.
      * unfold quiet_relocate, shutil_move. cbv zeta. simpl. by rewrite El, Hs.
    + rewrite (quiet_results_raises os_refused pd t f (OsPath.join np f) results _
                 (record (Match f (conf b)) (record (Detect (OsPath.join np f)) st))
                 b (enoent (OsPath.join np f)) Eh); [done |].
      unfold quiet_relocate, shutil_move. cbv zeta. simpl. by rewrite El.
  - by rewrite quiet_results_miss.
Qed.

Lemma leftovers_stuck model os_refused (np pd : string) (t : Q)
    (listing : list string) (st : state) :
  (∀ g, is_Some (lookup_file g (dir0 st)) →
        g ∈ listing ∨ stuck model os_refused np pd t g) →
  ∀ g, is_Some (lookup_file g (dir0 (quiet_files model os_refused np pd t listing st))) →
       stuck model os_refused np pd t g.
Proof.
  revert st. induction listing as [|f listing IH]; intros st H g Hg; simpl in *.
  - destruct (H g Hg) as [Hin | Hs]; [inversion Hin | done].
  - apply (IH (quiet_file model os_refused np pd t st f)); [| done].
    clear g Hg. intros g Hg.
    destruct (decide (g = f)) as [-> | Hne].
    + destruct (gone_or_stuck model os_refused np pd t f st) as [Hgone | Hs];
        [| by right].
      rewrite Hgone in Hg. by destruct Hg.
    + rewrite quiet_file_other in Hg by (by left).
      destruct (H g Hg) as [Hin | Hs]; [| by right].
      apply elem_of_cons in Hin as [-> | Hin]; [done | by left].
Qed.

Lemma all_stuck_nothing_moves model os_refused (np pd : string) (t : Q)
    (listing : list string) (st : state) :
  (∀ g, g ∈ listing → stuck model os_refused np pd t g) →
  absorbed model os_refused np pd t st →
  let st' := quiet_files model os_refused np pd t listing st in
  dir0 st' = dir0 st ∧ dir1 st' = dir1 st ∧ moved_count st' = moved_count st.
Proof.
  cbv zeta. revert st. induction listing as [|f listing IH]; intros st H Hab; [done |].
  simpl.
  destruct (stuck_stays model os_refused np pd t f st (H f ltac:(left)) Hab)
    as (E0 & E1 & Ec).
  destruct (IH (quiet_file model os_refused np pd t st f)) as (F0 & F1 & Fc).
  - intros g Hg. apply H. by right.
  - intros g data results b copy. rewrite E0, E1. apply Hab.
  - rewrite F0, F1, Fc. done.
Qed.

(** ** Matches and moves that must happen *)

Lemma first_hit_ex (t : Q) (results : list Result) :
  (∃ r b, r ∈ results ∧ b ∈ boxes r ∧ qualifies t b = true) →
  is_Some (first_hit t results).
Proof.
  intros (r & b & Hr & Hb & Hq).
  destruct (first_hit t results) as [b'|] eqn:E; [by eexists |].
  pose proof (first_hit_None t results E r b Hr Hb). congruence.
Qed.

Lemma quiet_results_trace os_refused (pd : string) (t : Q) (f p : string)
    (results : list Result) (st : state) :
  ∃ evs, trace (quiet_results os_refused pd t f p results st).1 = trace st ++ evs.
Proof.
  destruct (quiet_results_rule os_refused pd t (emits (λ _, True))
              (emits_refl _) (emits_trans _) f p results st) as (evs & Ht & _).
  - intros r b st0 _ _ _. by apply emits_relocate.
  - by exists evs.
Qed.

Lemma quiet_results_hit os_refused (pd : string) (t : Q) (f p : string)
    (results : list Result) (st : state) (b : Box) :
  first_hit t results = Some b →
  ∃ evs, trace (quiet_results os_refused pd t f p results st).1
         = trace st ++ Match f (conf b) :: evs ∧
         (is_Some (lookup_file f (dir0 st)) →
          os_refused p (OsPath.join pd f) = None →
          ∃ evs', evs = Moved f (conf b) :: evs').
Proof.
  intros Hh. revert st. induction results as [|r results IH]; intros st;
    [discriminate |].
  simpl in *. rewrite quiet_boxes_find.
  destruct (find (qualifies t) (boxes r)) as [b'|]; [| by apply IH].
  injection Hh as ->. unfold quiet_relocate, shutil_move. cbv zeta. simpl.
  destruct (lookup_file f (dir0 st)) as [data|] eqn:El.
  - destruct (os_refused p (OsPath.join pd f)) as [e|] eqn:Er; simpl.
    + exists []. split; [done |]. intros _ H. discriminate.
    + match goal with
      | |- context [quiet_results _ _ _ _ _ results ?s] =>
          destruct (quiet_results_trace os_refused pd t f p results s) as [evs Ht]
      end.
      simpl in Ht. exists (Moved f (conf b) :: evs). split; [| by eauto].
      rewrite Ht. by rewrite <- !app_assoc.
  - simpl. exists []. split; [done |]. intros [x Hx]. discriminate.
Qed.

Lemma quiet_file_hit model os_refused (np pd : string) (t : Q) (f : string)
    (st : state) (results : list Result) (b : Box) :
  accepted f = true → model (OsPath.join np f) = Returns results →
  first_hit t results = Some b →
  let st' := quiet_file model os_refused np pd t st f in
  Match f (conf b) ∈ trace st' ∧
  (is_Some (lookup_file f (dir0 st)) →
   os_refused (OsPath.join np f) (OsPath.join pd f) = None →
   Moved f (conf b) ∈ trace st').
Proof.
  intros Ha Hm Hh. cbv zeta. unfold quiet_file. rewrite Ha, Hm. cbv zeta.
  destruct (quiet_results_hit os_refused pd t f (OsPath.join np f) results
              (record (Detect (OsPath.join np f)) st) b Hh) as (evs & Ht & Hmv).
  simpl in Hmv.
  destruct (quiet_results _ _ _ _ _ results _) as [st2 [e|]]; simpl in *.
  - rewrite Ht. split; [in_trace |].
    intros Hl Hr. destruct (Hmv Hl Hr) as [evs' ->]. in_trace.
  - rewrite Ht. split; [in_trace |].
    intros Hl Hr. destruct (Hmv Hl Hr) as [evs' ->]. in_trace.
Qed.

Lemma quiet_files_hit model os_refused (np pd : string) (t : Q)
    (listing : list string) (f : string) (st : state) (results : list Result) (b : Box) :
  f ∈ listing → accepted f = true → model (OsPath.join np f) = Returns results →
  first_hit t results = Some b →
  let st' := quiet_files model os_refused np pd t listing st in
  Match f (conf b) ∈ trace st' ∧
  (is_Some (lookup_file f (dir0 st)) →
   os_refused (OsPath.join np f) (OsPath.join pd f) = None →
   Moved f (conf b) ∈ trace st').
Proof.
  intros Hin Ha Hm Hh. cbv zeta. revert st.
  induction listing as [|g listing IH]; intros st; [inversion Hin |].
  simpl.
  destruct (trace_grows model os_refused np pd t listing
              (quiet_file model os_refused np pd t st g)) as [evs Ht].
  destruct (decide (g = f)) as [-> | Hne].
  - destruct (quiet_file_hit model os_refused np pd t f st results b Ha Hm Hh)
      as [HM HV].
    rewrite Ht. split; [in_trace |]. intros Hl Hr. specialize (HV Hl Hr). in_trace.
  - apply elem_of_cons in Hin as [-> | Hin]; [done |].
    destruct (IH Hin (quiet_file model os_refused np pd t st g)) as [HM HV].
    split; [done |]. intros Hl Hr. apply HV; [| done].
    rewrite quiet_file_other; [done | left; congruence].
Qed.

Lemma quiet_files_allowed model os_refused (np pd : string) (t : Q)
    (listing : list string) (st : state) :
  allowed os_refused np pd st →
  allowed os_refused np pd (quiet_files model os_refused np pd t listing st).
Proof.
  apply (quiet_files_rule model os_refused np pd t
           (λ a b, allowed os_refused np pd a → allowed os_refused np pd b));
    [auto | auto |].
  intros f st0 _.
  apply (quiet_file_rule model os_refused np pd t
           (λ a b, allowed os_refused np pd a → allowed os_refused np pd b));
    [auto | auto |].
  intros _.
  assert (Hrec : ∀ ev st1, is_moved ev = false →
            allowed os_refused np pd st1 → allowed os_refused np pd (record ev st1)).
  { intros ev st1 Hev H g c Hin. simpl in Hin.
    apply elem_of_app in Hin as [Hin | Hin]; [by apply (H g c) |].
    apply list_elem_of_singleton in Hin. subst ev. discriminate. }
  split; [| split].
  - intros st1. by apply Hrec.
  - intros e st1 H. unfold quiet_handler. apply Hrec; [done |]. exact H.
  - intros results r b st1 _ _ _ _ H. unfold quiet_relocate, shutil_move. cbv zeta. simpl.
    destruct (lookup_file f (dir0 st1)) as [data|];
      [destruct (os_refused _ _) as [e|] eqn:Er |]; simpl;
      try (by apply Hrec).
    intros g c Hin. simpl in Hin.
    apply elem_of_app in Hin as [Hin | Hin].
    + apply elem_of_app in Hin as [Hin | Hin]; [by apply (H g c) |].
      apply list_elem_of_singleton in Hin. discriminate.
    + apply list_elem_of_singleton in Hin. by injection Hin as -> ->.
Qed.

(** ** Two decimal places *)




(** ** A file is moved once at most *)

Lemma moves_of_app (f : string) (a b : list event) :
  moves_of f (a ++ b) = moves_of f a + moves_of f b.
Proof. induction a as [|ev a IH]; simpl; [reflexivity | rewrite IH; lia]. Qed.

Lemma once_record (f : string) (ev : event) (st : state) :
  is_move_of f ev = false → once f st (record ev st).
Proof.
  intros H. left. simpl. rewrite moves_of_app. simpl. rewrite H.
  split; [lia | done].
Qed.

Lemma once_handler (f g e : string) (st : state) : once f st (quiet_handler g e st).
Proof.
  left. simpl. rewrite moves_of_app. simpl. split; [lia | done].
Qed.

Lemma once_trans (f : string) (a b c : state) : once f a b → once f b c → once f a c.
Proof.
  intros [[E1 H1] | (E1 & H1 & S1)] [[E2 H2] | (E2 & H2 & S2)].
  - left. split; [congruence | auto].
  - right. split; [congruence | split; [done |]].
    destruct (lookup_file f (dir0 a)) eqn:E; [by eexists |].
    rewrite (H1 eq_refl) in S2. by destruct S2.
  - right. split; [congruence | split; [auto | done]].
  - rewrite H1 in S2. by destruct S2.
Qed.

Lemma once_relocate os_refused (pd f g p : string) (c : Q) (st : state) :
  once f st (quiet_relocate os_refused pd g p c st).1.
Proof.
  unfold quiet_relocate, shutil_move. cbv zeta. simpl.
  destruct (lookup_file g (dir0 st)) as [data|] eqn:El;
    [destruct (os_refused p (OsPath.join pd g)) as [e|] |]; simpl;
    try by apply once_record.
  destruct (String.eqb_spec g f) as [-> | Hne].
  - right. simpl. rewrite !moves_of_app. simpl. rewrite String.eqb_refl.
    split; [lia | split; [apply lookup_remove_eq | by eexists]].
  - left. simpl. rewrite !moves_of_app. simpl.
    replace (String.eqb g f) with false by (symmetry; by apply eqb_neq).
    split; [lia |]. intros H. by apply lookup_remove_None.
Qed.

Lemma quiet_files_once model os_refused (np pd : string) (t : Q)
    (listing : list string) (f : string) (st : state) :
  once f st (quiet_files model os_refused np pd t listing st).
Proof.
  apply quiet_files_rule; [by left | apply once_trans |].
  intros g st0 _.
  apply quiet_file_rule; [by left | apply once_trans |].
  intros _. split; [| split].
  - intros st1. by apply once_record.
  - intros e st1. apply once_handler.
  - intros results r b st1 _ _ _ _. apply once_relocate.
Qed.

(** ** Characters *)

Lemma all_chars_app (p : ascii → bool) (a b : string) :
  all_chars p (a +:+ b) = all_chars p a && all_chars p b.
Proof.
  induction a as [|x a IH]; [reflexivity |].
  change (p x && all_chars p (a +:+ b) = p x && all_chars p a && all_chars p b).
  rewrite IH. by destruct (p x).
Qed.

Lemma all_chars_impl (p q : ascii → bool) (s : string) :
  (∀ c, p c = true → q c = true) → all_chars p s = true → all_chars q s = true.
Proof.
  intros H. induction s as [|x s IH]; [done |]. simpl.
  rewrite !andb_true_iff. intros [Hx Hs]. split; [by apply H | by apply IH].
Qed.

Lemma numeric_digits (d : Decimal.uint) :
  all_chars is_numeric (NilEmpty.string_of_uint d) = true.
Proof. induction d; simpl; by rewrite ?IHd. Qed.

Lemma numeric_uint (d : Decimal.uint) :
  all_chars is_numeric (NilZero.string_of_uint d) = true.
Proof. destruct d; try reflexivity; apply numeric_digits. Qed.

Lemma numeric_dec (n : Z) : all_chars is_numeric (Fmt.dec n) = true.
Proof. apply numeric_uint. Qed.

Lemma numeric_zeros (n : nat) :
  all_chars is_numeric (String.concat "" (replicate n "0")) = true.
Proof.
  induction n as [|n IH]; [reflexivity |].
  destruct n as [|n]; [reflexivity |].
  change (all_chars is_numeric
            ("0" +:+ ("" +:+ String.concat "" (replicate (S n) "0"))) = true).
  by rewrite !all_chars_app, IH.
Qed.

Lemma numeric_zfill (width : nat) (s : string) :
  all_chars is_numeric s = true → all_chars is_numeric (Fmt.zfill width s) = true.
Proof.
  intros H. unfold Fmt.zfill. by rewrite all_chars_app, numeric_zeros, H.
Qed.

Lemma numeric_format_2f (q : Q) : all_chars is_numeric (Fmt.format_2f q) = true.
Proof.
  unfold Fmt.format_2f. cbv zeta.
  rewrite !all_chars_app, numeric_dec, numeric_zfill by apply numeric_dec.
  by destruct (Qnum q <? 0)%Z.
Qed.

Lemma numeric_strftime (dt : Fmt.datetime) :
  all_chars is_numeric (Fmt.strftime dt) = true.
Proof.
  unfold Fmt.strftime, Fmt.field.
  by rewrite !all_chars_app, !numeric_zfill by apply numeric_dec.
Qed.

Lemma numeric_ascii (c : ascii) : is_numeric c = true → is_ascii c = true.
Proof. destruct c as [[] [] [] [] [] [] [] []]; by vm_compute. Qed.

Lemma numeric_not_newline (c : ascii) :
  is_numeric c = true → negb (Ascii.eqb c "010"%char) = true.
Proof. destruct c as [[] [] [] [] [] [] [] []]; by vm_compute. Qed.

Lemma numeric_encodable (k : codec) (s : string) :
  all_chars is_numeric s = true → encodable k s = true.
Proof.
  apply all_chars_impl. intros c Hc. by rewrite (numeric_ascii c Hc).
Qed.

Lemma numeric_one_line (s : string) : all_chars is_numeric s = true → one_line s = true.
Proof. apply all_chars_impl, numeric_not_newline. Qed.

Lemma encodable_app (k : codec) (a b : string) :
  encodable k (a +:+ b) = encodable k a && encodable k b.
Proof. apply all_chars_app. Qed.

Lemma one_line_app (a b : string) : one_line (a +:+ b) = one_line a && one_line b.
Proof. apply all_chars_app. Qed.

Lemma encodable_all (k : codec) (s : string) :
  (∀ c, encodes k c = true) → encodable k s = true.
Proof.
  intros H. induction s as [|x s IH]; [done |].
  unfold encodable in *. simpl. rewrite IH, H. by destruct (is_ascii x).
Qed.

Lemma encodable_moved_line (k : codec) (f : string) (c : Q) :
  encodable k (moved_line f c) = encodable k f.
Proof.
  unfold moved_line. rewrite !encodable_app.
  rewrite (numeric_encodable k _ (numeric_format_2f c)).
  change (encodable k "Moved ") with true.
  change (encodable k " (confidence: ") with true.
  change (encodable k ")") with true.
  change (encodable k newline) with true.
  by destruct (encodable k f).
Qed.

Lemma encodable_moved_notice (k : codec) (f : string) (c : Q) :
  encodable k (moved_notice f c +:+ newline) = encodable k f.
Proof.
  unfold moved_notice. rewrite !encodable_app.
  rewrite (numeric_encodable k _ (numeric_format_2f c)).
  change (encodable k "Moved ") with true.
  change (encodable k " to person directory (confidence: ") with true.
  change (encodable k ")") with true.
  change (encodable k newline) with true.
  by destruct (encodable k f).
Qed.

Lemma error_notice_line (f e : string) : error_notice f e +:+ newline = error_line f e.
Proof. unfold error_notice, error_line. by rewrite !append_assoc. Qed.

Lemma encodable_error_line (k : codec) (f e : string) :
  encodable k (error_line f e) = encodable k f && encodable k e.
Proof.
  unfold error_line. rewrite !encodable_app.
  change (encodable k "Error processing ") with true.
  change (encodable k ": ") with true.
  change (encodable k newline) with true.
  by destruct (encodable k f), (encodable k e).
Qed.

Lemma encodable_completed (k : codec) (n : nat) :
  encodable k (completed_notice n +:+ newline) = true.
Proof.
  unfold completed_notice. rewrite !encodable_app.
  by rewrite (numeric_encodable k _ (numeric_dec _)).
Qed.

Lemma encodable_join (k : codec) (a b : string) :
  encodable k a = true → encodable k b = true → encodable k (OsPath.join a b) = true.
Proof.
  intros Ha Hb. unfold OsPath.join.
  destruct (String.prefix OsPath.sep b); [done |].
  destruct (_ || _); rewrite !encodable_app, Ha, Hb; reflexivity.
Qed.

Lemma encodable_log_name (k : codec) (w : world) : encodable k (log_name w) = true.
Proof.
  unfold log_name. rewrite !encodable_app.
  by rewrite (numeric_encodable k _ (numeric_strftime _)).
Qed.

Lemma encodable_saved (k : codec) (w : world) (root : string) :
  encodable k root = true →
  encodable k (saved_notice (OsPath.join (OsPath.join root "logs") (log_name w)) +:+ newline)
  = true.
Proof.
  intros H. unfold saved_notice. rewrite !encodable_app.
  rewrite encodable_join; [done | | apply encodable_log_name].
  by apply encodable_join.
Qed.

Lemma refuses_None (k : codec) (text : string) :
  refuses k text = None ↔ encodable k text = true.
Proof. unfold refuses. by destruct (encodable k text). Qed.

Lemma refuses_Some (k : codec) (text : string) :
  is_Some (refuses k text) ↔ encodable k text = false.
Proof.
  unfold refuses. destruct (encodable k text); split; try done;
    try (by intros [x Hx]); by eexists.
Qed.

(** ** The scan of the function and the scan when no text is refused *)

Lemma ahead_refl (a : state) : ahead a a.
Proof. exists []. by rewrite app_nil_r. Qed.

Lemma ahead_trans (a b c : state) : ahead a b → ahead b c → ahead a c.
Proof.
  intros [e1 H1] [e2 H2]. exists (e1 ++ e2). by rewrite H2, H1, app_assoc.
Qed.

Lemma ahead_record (ev : event) (st : state) : ahead st (record ev st).
Proof. by exists [ev]. Qed.

Lemma ahead_handler (f e : string) (st : state) : ahead st (quiet_handler f e st).
Proof. by exists [Failed f e]. Qed.

Lemma ahead_quiet_results os_refused (pd : string) (t : Q) (f p : string)
    (results : list Result) (st : state) :
  ahead st (quiet_results os_refused pd t f p results st).1.
Proof. apply quiet_results_trace. Qed.

Lemma ahead_quiet_files model os_refused (np pd : string) (t : Q)
    (listing : list string) (st : state) :
  ahead st (quiet_files model os_refused np pd t listing st).
Proof. apply trace_grows. Qed.

Section Simulation.

Variable model : Model.
Variable os_refused : string → string → option refusal.
Variables log out : codec.
Variables np pd : string.
Variable t : Q.

(** The handler of a file whose name one of the streams cannot encode
    raises, and has done nothing. *)
Lemma handler_unspeakable (f e : string) (st : state) :
  unspeakable log out f → ∃ e', handler log out f e st = (st, Some e').
Proof.
  intros Hu. unfold handler, print, write. rewrite error_notice_line.
  unfold refuses. rewrite !encodable_error_line.
  destruct (encodable out f) eqn:Eo; simpl.
  - destruct Hu as [Hl | Ho]; [| congruence]. rewrite Hl. simpl.
    destruct (encodable out e); by eexists.
  - by eexists.
Qed.

Lemma handler_cases (f e : string) (st : state) :
  (handler log out f e st = (quiet_handler f e st, None) ∧
   encodable out (error_line f e) = true ∧ encodable log (error_line f e) = true) ∨
  (∃ e', handler log out f e st = (st, Some e')).
Proof.
  unfold handler, print, write. rewrite error_notice_line. unfold refuses.
  destruct (encodable out (error_line f e)); [| right; by eexists].
  destruct (encodable log (error_line f e)); [by left | right; by eexists].
Qed.

Lemma handler_returns (f e : string) (st : state) :
  encodable out (error_line f e) = true → encodable log (error_line f e) = true →
  handler log out f e st = (quiet_handler f e st, None).
Proof.
  intros Ho Hl. unfold handler, print, write. rewrite error_notice_line.
  unfold refuses. by rewrite Ho, Hl.
Qed.

(** The body of the test does what it does when no text is refused, or it
    raises on a text with the name of the file, after a part of it. *)
Lemma relocate_sim (f p : string) (c : Q) (st : state) :
  relocate os_refused log out pd f p c st = quiet_relocate os_refused pd f p c st ∨
  (unspeakable log out f ∧
   is_Some (relocate os_refused log out pd f p c st).2 ∧
   ahead (relocate os_refused log out pd f p c st).1
         (quiet_relocate os_refused pd f p c st).1).
Proof.
  unfold relocate, quiet_relocate. cbv zeta.
  destruct (shutil_move os_refused p (OsPath.join pd f) f (record (Match f c) st))
    as [st2 [e|]]; [by left |].
  unfold write, print, refuses.
  rewrite encodable_moved_line, encodable_moved_notice.
  destruct (encodable log f) eqn:El.
  - destruct (encodable out f) eqn:Eo; [by left |].
    right. split; [by right |]. simpl. split; [by eexists | apply ahead_refl].
  - right. split; [by left |]. simpl. split; [by eexists |].
    by exists [Moved f c].
Qed.

Lemma for_boxes_sim (f p : string) (bs : list Box) (st : state) :
  for_boxes os_refused log out pd t f p bs st = quiet_boxes os_refused pd t f p bs st ∨
  (unspeakable log out f ∧
   is_Some (for_boxes os_refused log out pd t f p bs st).2 ∧
   ahead (for_boxes os_refused log out pd t f p bs st).1
         (quiet_boxes os_refused pd t f p bs st).1).
Proof.
  induction bs as [|b bs IH]; simpl; [by left |].
  destruct (qualifies t b); [apply relocate_sim | apply IH].
Qed.

Lemma for_results_sim (f p : string) (results : list Result) (st : state) :
  for_results os_refused log out pd t f p results st
  = quiet_results os_refused pd t f p results st ∨
  (unspeakable log out f ∧
   is_Some (for_results os_refused log out pd t f p results st).2 ∧
   ahead (for_results os_refused log out pd t f p results st).1
         (quiet_results os_refused pd t f p results st).1).
Proof.
  revert st. induction results as [|r results IH]; intros st; simpl; [by left |].
  destruct (for_boxes_sim f p (boxes r) st) as [E | (Hu & Hs & Ha)].
  - rewrite E.
    destruct (quiet_boxes os_refused pd t f p (boxes r) st) as [st' [e|]];
      [by left | apply IH].
  - right.
    destruct (for_boxes os_refused log out pd t f p (boxes r) st) as [st' [e|]];
      simpl in *; [| by destruct Hs].
    split; [done | split; [done |]].
    destruct (quiet_boxes os_refused pd t f p (boxes r) st) as [q [e'|]];
      simpl in *; [done |].
    eapply ahead_trans; [exact Ha | apply ahead_quiet_results].
Qed.

(** A file is processed as it is when no text is refused, or an exception
    leaves the function after a part of that. *)
Lemma process_file_sim (f : string) (st : state) :
  match process_file model os_refused log out np pd t st f with
  | (st', None) => st' = quiet_file model os_refused np pd t st f
  | (st', Some _) => ahead st' (quiet_file model os_refused np pd t st f)
  end.
Proof.
  unfold process_file, quiet_file.
  destruct (accepted f); [| done]. cbv zeta.
  destruct (model (OsPath.join np f)) as [results | e].
  - destruct (for_results_sim f (OsPath.join np f) results
                (record (Detect (OsPath.join np f)) st)) as [E | (Hu & Hs & Ha)].
    + rewrite E.
      destruct (quiet_results os_refused pd t f (OsPath.join np f) results _)
        as [st2 [e|]]; [| done].
      destruct (handler_cases f e st2) as [(-> & _) | [e' ->]];
        [done | apply ahead_handler].
    + destruct (for_results os_refused log out pd t f (OsPath.join np f) results _)
        as [st2 [e|]]; simpl in *; [| by destruct Hs].
      destruct (handler_unspeakable f e st2 Hu) as [e' ->].
      destruct (quiet_results os_refused pd t f (OsPath.join np f) results _)
        as [q [e''|]]; simpl in *; [| done].
      eapply ahead_trans; [exact Ha | apply ahead_handler].
  - destruct (handler_cases f e (record (Detect (OsPath.join np f)) st))
      as [(-> & _) | [e' ->]]; [done | apply ahead_handler].
Qed.

Lemma process_files_sim (listing : list string) (st : state) :
  match process_files model os_refused log out np pd t listing st with
  | (st', None) => st' = quiet_files model os_refused np pd t listing st
  | (st', Some _) => ahead st' (quiet_files model os_refused np pd t listing st)
  end.
Proof.
  revert st. induction listing as [|f listing IH]; intros st; simpl; [done |].
  pose proof (process_file_sim f st) as Hf.
  destruct (process_file model os_refused log out np pd t st f) as [st1 [e|]].
  - eapply ahead_trans; [exact Hf | apply ahead_quiet_files].
  - subst st1. apply IH.
Qed.

(** When every text of the scan can be encoded, no exception leaves it. *)
Lemma process_files_calm (listing : list string) (st : state) :
  (∀ text, encodable log text = true) → (∀ text, encodable out text = true) →
  process_files model os_refused log out np pd t listing st
  = (quiet_files model os_refused np pd t listing st, None).
Proof.
  intros Hl Ho.
  assert (Hrel : ∀ f p c s, relocate os_refused log out pd f p c s
                            = quiet_relocate os_refused pd f p c s).
  { intros f p c s. destruct (relocate_sim f p c s) as [E | ([Hu | Hu] & _)];
      [done | | ]; by rewrite ?Hl, ?Ho in Hu. }
  assert (Hbox : ∀ f p bs s, for_boxes os_refused log out pd t f p bs s
                             = quiet_boxes os_refused pd t f p bs s).
  { intros f p bs s. induction bs as [|b bs IH]; simpl; [done |].
    by destruct (qualifies t b). }
  assert (Hres : ∀ f p results s, for_results os_refused log out pd t f p results s
                                  = quiet_results os_refused pd t f p results s).
  { intros f p results. induction results as [|r results IH]; intros s; simpl; [done |].
    rewrite Hbox. by destruct (quiet_boxes _ _ _ _ _ _ _) as [s' [e|]]. }
  revert st. induction listing as [|f listing IH]; intros st; simpl; [done |].
  assert (Hfile : process_file model os_refused log out np pd t st f
                  = (quiet_file model os_refused np pd t st f, None)).
  { unfold process_file, quiet_file. destruct (accepted f); [| done]. cbv zeta.
    destruct (model (OsPath.join np f)) as [results | e].
    - rewrite Hres. destruct (quiet_results _ _ _ _ _ _ _) as [s' [e|]]; [| done].
      by apply handler_returns.
    - by apply handler_returns. }
  rewrite Hfile. apply IH.
Qed.

End Simulation.

Lemma write_header (k : codec) d0 d1 :
  write k header (opened d0 d1) = (initial d0 d1, None).
Proof. reflexivity. Qed.

Lemma print_starting (k : codec) : print k starting_notice = None.
Proof. reflexivity. Qed.

Lemma scan_sim w model (root : string) (t : Q) d0 d1 :
  match scan w model root t d0 d1 with
  | (st, None) => st = quiet_scan w model root t d0 d1 ∧
                  os_error w (Listdir (OsPath.join root "0")) = None
  | (st, Some _) => ahead st (quiet_scan w model root t d0 d1)
  end.
Proof.
  unfold scan, quiet_scan. cbv zeta. rewrite write_header.
  destruct (os_error w (Listdir (OsPath.join root "0"))) as [e|].
  - exists (trace (quiet_files model (refused w) (OsPath.join root "0")
                     (OsPath.join root "1") t (listdir d0) (initial d0 d1))).
    reflexivity.
  - pose proof (process_files_sim model (refused w) (log_encoding w) (stdout_encoding w)
                  (OsPath.join root "0") (OsPath.join root "1") t (listdir d0)
                  (initial d0 d1)) as H.
    by destruct (process_files _ _ _ _ _ _ _ _ _) as [st [e|]].
Qed.

(** ** The function as a whole *)

(** What a run that returns has gone through. *)
Lemma run_inversion w fs (mp root : string) (t : Q) (n : nat) (path : string) :
  returned (process_mislabeled_images w fs mp root t) = inr (n, path) →
  ∃ model d0 d1,
    YOLO w mp = Loaded model ∧ non_person fs = Some d0 ∧ person fs = Some d1 ∧
    os_error w (Makedirs (OsPath.join root "logs")) = None ∧
    os_error w (Open (OsPath.join (OsPath.join root "logs") (log_name w))) = None ∧
    os_error w (Listdir (OsPath.join root "0")) = None ∧
    scan w model root t d0 d1 = (quiet_scan w model root t d0 d1, None) ∧
    print (stdout_encoding w) (saved_notice path) = None ∧
    process_mislabeled_images w fs mp root t =
    let st := quiet_scan w model root t d0 d1 in
    {| fs_after :=
         {| non_person := Some (dir0 st);
            person := Some (dir1 st);
            logs := Some (<[log_name w := log_file st]> (default ∅ (logs fs))) |};
       events := trace st;
       returned := inr (moved_count st,
                        OsPath.join (OsPath.join root "logs") (log_name w)) |}.
Proof.
  unfold process_mislabeled_images.
  destruct (YOLO w mp) as [model | e | e]; try discriminate.
  destruct (non_person fs) as [d0|]; try discriminate.
  destruct (person fs) as [d1|]; try discriminate.
  cbv zeta.
  destruct (os_error w (Makedirs _)) as [e|]; try discriminate.
  destruct (print (stdout_encoding w) starting_notice) as [e|]; try discriminate.
  destruct (os_error w (Open _)) as [e|]; try discriminate.
  pose proof (scan_sim w model root t d0 d1) as Hsim.
  destruct (scan w model root t d0 d1) as [st [e|]] eqn:Escan; simpl; try discriminate.
  destruct Hsim as [-> Hl].
  destruct (print (stdout_encoding w) (completed_notice _)) as [e|]; try discriminate.
  destruct (print (stdout_encoding w) (saved_notice _)) as [e|] eqn:Es; try discriminate.
  intros [= <- <-]. exists model, d0, d1. by rewrite Es.
Qed.

Lemma run_returned w fs (mp root : string) (t : Q) (n : nat) (path : string) :
  returned (process_mislabeled_images w fs mp root t) = inr (n, path) →
  ∃ model d0 d1,
    YOLO w mp = Loaded model ∧ non_person fs = Some d0 ∧ person fs = Some d1.
Proof.
  intros H. destruct (run_inversion _ _ _ _ _ _ _ H)
    as (model & d0 & d1 & HY & H0 & H1 & _).
  by exists model, d0, d1.
Qed.

(** A run that returns is the run of the scan in which no text is refused. *)
Lemma run_loaded w fs (mp root : string) (t : Q) (n : nat) (path : string) model d0 d1 :
  YOLO w mp = Loaded model → non_person fs = Some d0 → person fs = Some d1 →
  returned (process_mislabeled_images w fs mp root t) = inr (n, path) →
  process_mislabeled_images w fs mp root t =
  let st := quiet_scan w model root t d0 d1 in
  {| fs_after :=
       {| non_person := Some (dir0 st);
          person := Some (dir1 st);
          logs := Some (<[log_name w := log_file st]> (default ∅ (logs fs))) |};
     events := trace st;
     returned := inr (moved_count st,
                      OsPath.join (OsPath.join root "logs") (log_name w)) |}.
Proof.
  intros HY H0 H1 H. destruct (run_inversion _ _ _ _ _ _ _ H)
    as (model' & d0' & d1' & HY' & H0' & H1' & _ & _ & _ & _ & _ & E).
  assert (model' = model) as -> by congruence.
  assert (d0' = d0) as -> by congruence.
  assert (d1' = d1) as -> by congruence.
  exact E.
Qed.

(** What a run has done, whether it returns or raises, is the beginning of
    what the scan does when no text is refused. *)
Lemma run_events w fs (mp root : string) (t : Q) (ev : event) :
  ev ∈ events (process_mislabeled_images w fs mp root t) →
  ∃ model d0 d1,
    YOLO w mp = Loaded model ∧ non_person fs = Some d0 ∧ person fs = Some d1 ∧
    ∃ evs, trace (quiet_scan w model root t d0 d1)
           = events (process_mislabeled_images w fs mp root t) ++ evs.
Proof.
  unfold process_mislabeled_images.
  destruct (YOLO w mp) as [model | e | e]; try (intros H; by inversion H).
  destruct (non_person fs) as [d0|]; try (intros H; by inversion H).
  destruct (person fs) as [d1|]; try (intros H; by inversion H).
  cbv zeta.
  destruct (os_error w (Makedirs _)) as [e|]; try (intros H; by inversion H).
  destruct (print (stdout_encoding w) starting_notice) as [e|];
    try (intros H; by inversion H).
  destruct (os_error w (Open _)) as [e|]; try (intros H; by inversion H).
  pose proof (scan_sim w model root t d0 d1) as Hsim.
  destruct (scan w model root t d0 d1) as [st [e|]]; simpl; intros _;
    exists model, d0, d1; (split; [done | split; [done | split; [done |]]]).
  - exact Hsim.
  - destruct Hsim as [-> _]. exists []. by rewrite app_nil_r.
Qed.

Lemma log_text_loaded w fs (mp root : string) (t : Q) (n : nat) (path : string)
    model d0 d1 :
  YOLO w mp = Loaded model → non_person fs = Some d0 → person fs = Some d1 →
  returned (process_mislabeled_images w fs mp root t) = inr (n, path) →
  log_text w (process_mislabeled_images w fs mp root t) =
  Some (log_file (quiet_scan w model root t d0 d1)).
Proof.
  intros HY H0 H1 H. rewrite (run_loaded _ _ _ _ _ _ _ _ _ _ HY H0 H1 H).
  unfold log_text. simpl. apply lookup_insert_eq.
Qed.

(** In an environment where nothing fails the function returns as soon as
    the model loads and the two class directories are there. *)
Lemma run_calm w fs (mp root : string) (t : Q) model d0 d1 :
  calm w →
  YOLO w mp = Loaded model → non_person fs = Some d0 → person fs = Some d1 →
  returned (process_mislabeled_images w fs mp root t)
  = inr (moved_count (quiet_scan w model root t d0 d1),
         OsPath.join (OsPath.join root "logs") (log_name w)).
Proof.
  intros (Hos & _ & Hlog & Hout) HY H0 H1.
  unfold process_mislabeled_images. rewrite HY, H0, H1. cbv zeta.
  rewrite !Hos, print_starting.
  unfold scan. cbv zeta. rewrite write_header, Hos.
  rewrite process_files_calm by done. simpl.
  unfold print, refuses. by rewrite !Hout.
Qed.

Lemma moves_of_prefix (f : string) (a b : list event) :
  (moves_of f a ≤ moves_of f (a ++ b))%nat.
Proof. rewrite moves_of_app. lia. Qed.

(** In any run a file is moved, and has the line of a move in the log, once
    at most. *)
Lemma moved_at_most_once w fs (mp root : string) (t : Q) (f : string) :
  (moves_of f (events (process_mislabeled_images w fs mp root t)) ≤ 1)%nat.
Proof.
  destruct (events (process_mislabeled_images w fs mp root t)) as [|ev evs] eqn:E;
    [simpl; lia |].
  destruct (run_events w fs mp root t ev) as (model & d0 & d1 & _ & _ & _ & evs' & Ht).
  { rewrite E. left. }
  rewrite <- E.
  pose proof (moves_of_prefix f (events (process_mislabeled_images w fs mp root t)) evs')
    as Hle.
  rewrite <- Ht in Hle. unfold quiet_scan in Hle.
  destruct (quiet_files_once model (refused w) (OsPath.join root "0")
              (OsPath.join root "1") t (listdir d0) f (initial d0 d1))
    as [[E1 _] | (E1 & _)]; rewrite E1 in Hle; simpl in Hle; lia.
Qed.
(** ** Where the files are *)

Lemma moves_of_pos (f : string) (evs : list event) :
  moves_of f evs ≠ 0 ↔ ∃ c, Moved f c ∈ evs.
Proof.
  induction evs as [|ev evs IH]; simpl.
  - split; [done | intros [c H]; inversion H].
  - destruct ev as [p | g c | g c | g e]; simpl;
      try (rewrite IH; split; intros [c' H]; exists c';
           [by right | apply elem_of_cons in H as [H | H]; [discriminate | done]]).
    destruct (String.eqb_spec g f) as [-> | Hne].
    + split; [intros _; exists c; left | lia].
    + simpl. rewrite IH. split; intros [c' H]; exists c'; [by right |].
      apply elem_of_cons in H as [H | H]; [congruence | done].
Qed.

Lemma moves_of_unique (f : string) (c c' : Q) (evs : list event) :
  (moves_of f evs ≤ 1)%nat → Moved f c ∈ evs → Moved f c' ∈ evs → c = c'.
Proof.
  intros Hle Hc Hc'.
  apply list_elem_of_split in Hc as (l1 & l2 & ->).
  rewrite moves_of_app in Hle. simpl in Hle. rewrite String.eqb_refl in Hle.
  apply elem_of_app in Hc' as [H | H]; [| apply elem_of_cons in H as [H | H]].
  - assert (moves_of f l1 ≠ 0) by (apply moves_of_pos; eauto). lia.
  - congruence.
  - assert (moves_of f l2 ≠ 0) by (apply moves_of_pos; eauto). lia.
Qed.

Lemma remove_file_filter (g : string) (l : list (string * content)) :
  remove_file g l = filter (λ e, e.1 ≠ g) l.
Proof.
  induction l as [|[name data] l IH]; [reflexivity |].
  simpl. rewrite filter_cons. simpl.
  destruct (String.eqb_spec name g) as [-> | Hne]; case_decide; try done.
  by rewrite IH.
Qed.

Lemma lookup_file_filter (keep : string → Prop) `{∀ x, Decision (keep x)}
    (g : string) (l : list (string * content)) :
  lookup_file g (filter (λ e, keep e.1) l)
  = if decide (keep g) then lookup_file g l else None.
Proof.
  induction l as [|[name data] l IH]; [by destruct (decide (keep g)) |].
  rewrite filter_cons. simpl.
  destruct (String.eqb_spec name g) as [-> | Hne].
  - destruct (decide (keep g)) as [Hk | Hk]; simpl;
      [by rewrite String.eqb_refl | exact IH].
  - destruct (decide (keep name)); simpl; [| exact IH].
    replace (String.eqb name g) with false by (symmetry; by apply eqb_neq).
    exact IH.
Qed.

Lemma matched_app (f : string) (a b : list event) :
  matched f (a ++ b) = matched f a || matched f b.
Proof. apply existsb_app. Qed.

Lemma matched_elem (f : string) (c : Q) (evs : list event) :
  Match f c ∈ evs → matched f evs = true.
Proof.
  intros Hin. apply existsb_exists. exists (Match f c).
  split; [by apply list_elem_of_In | apply String.eqb_refl].
Qed.

Lemma accounted_same os_refused (np pd : string) d0 d1 (a b : state) :
  dir0 b = dir0 a → dir1 b = dir1 a →
  (∀ f, moves_of f (trace b) = moves_of f (trace a)) →
  (∀ f, matched f (trace b) = matched f (trace a)) →
  accounted os_refused np pd d0 d1 a → accounted os_refused np pd d0 d1 b.
Proof.
  intros E0 E1 Em Ea [H0 H1]. split.
  - rewrite E0, H0. apply list_filter_iff. intros e. by rewrite Em.
  - intros f. rewrite E1, H1. unfold person_entry. by rewrite Em, Ea.
Qed.

Lemma accounted_record os_refused (np pd : string) d0 d1 (ev : event) (st : state) :
  is_moved ev = false → (∀ f, is_match_of f ev = false) →
  accounted os_refused np pd d0 d1 st → accounted os_refused np pd d0 d1 (record ev st).
Proof.
  intros Hev Hma. apply accounted_same; try done.
  - intros f. simpl. rewrite moves_of_app. simpl.
    destruct ev; try discriminate; simpl; lia.
  - intros f. simpl. rewrite matched_app. simpl. rewrite Hma.
    by rewrite !orb_false_r.
Qed.

Lemma person_entry_other os_refused (np pd : string) d0 d1 (evs evs' : list event)
    (f : string) :
  moves_of f evs' = moves_of f evs → matched f evs' = matched f evs →
  person_entry os_refused np pd d0 d1 evs' f = person_entry os_refused np pd d0 d1 evs f.
Proof. intros Em Ea. unfold person_entry. by rewrite Em, Ea. Qed.

Lemma other_file_events (f g : string) (evs : list event) :
  f ≠ g → (∀ ev, ev ∈ evs → ∃ c, ev = Match g c ∨ ev = Moved g c) →
  moves_of f evs = 0 ∧ matched f evs = false.
Proof.
  intros Hne. induction evs as [|ev evs IH]; intros Hevs; [done |].
  destruct IH as [IHm IHa]; [intros ev' Hin; apply Hevs; by right |].
  assert (Eg : String.eqb g f = false) by (apply eqb_neq; congruence).
  change (matched f (ev :: evs)) with (is_match_of f ev || matched f evs).
  change (moves_of f (ev :: evs))
    with ((if is_move_of f ev then 1 else 0) + moves_of f evs).
  rewrite IHm, IHa.
  destruct (Hevs ev ltac:(left)) as [c [-> | ->]]; simpl; by rewrite Eg.
Qed.

Lemma accounted_relocate os_refused (np pd : string) d0 d1 (g : string) (c : Q)
    (st : state) :
  accounted os_refused np pd d0 d1 st →
  accounted os_refused np pd d0 d1
    (quiet_relocate os_refused pd g (OsPath.join np g) c st).1.
Proof.
  intros [H0 H1].
  assert (Hother : ∀ f evs, f ≠ g →
            (∀ ev, ev ∈ evs → ∃ c', ev = Match g c' ∨ ev = Moved g c') →
            moves_of f (trace st ++ evs) = moves_of f (trace st) ∧
            matched f (trace st ++ evs) = matched f (trace st)).
  { intros f evs Hne Hevs. rewrite moves_of_app, matched_app.
    destruct (other_file_events f g evs Hne Hevs) as [-> ->].
    by rewrite Nat.add_0_r, orb_false_r. }
  pose proof (lookup_file_filter (λ x, moves_of x (trace st) = 0) g d0) as Hlf.
  simpl in Hlf.
  unfold quiet_relocate, shutil_move. cbv zeta. simpl.
  destruct (lookup_file g (dir0 st)) as [data|] eqn:El;
    [destruct (os_refused (OsPath.join np g) (OsPath.join pd g)) as [r|] eqn:Er |];
    simpl; rewrite H0, Hlf in El.
  - (* the move is refused *)
    destruct (decide (moves_of g (trace st) = 0)) as [Hg | Hg]; [| discriminate].
    split; simpl.
    + rewrite H0. apply list_filter_iff. intros e.
      rewrite moves_of_app. simpl. lia.
    + intros f. destruct (decide (f = g)) as [-> | Hne].
      * unfold person_entry. rewrite moves_of_app, matched_app. simpl.
        rewrite String.eqb_refl, orb_true_r, Nat.add_0_r, decide_True by done.
        rewrite El. simpl. unfold residue at 1. rewrite Er. simpl.
        destruct (left_behind r data) as [copy|] eqn:Ec.
        -- by rewrite lookup_insert_eq.
        -- rewrite H1. unfold person_entry. rewrite decide_True by done.
           rewrite El. simpl. unfold residue. rewrite Er. simpl. rewrite Ec.
           by destruct (matched g (trace st)).
      * destruct (Hother f [Match g c] Hne) as [Em Ea].
        { intros ev Hev. apply list_elem_of_singleton in Hev. eauto. }
        rewrite (person_entry_other _ _ _ _ _ _ _ _ Em Ea), <- H1.
        destruct (left_behind r data); [apply lookup_insert_ne; congruence | done].
  - (* the file is moved *)
    destruct (decide (moves_of g (trace st) = 0)) as [Hg | Hg]; [| discriminate].
    assert (Hm : ∀ f, moves_of f ((trace st ++ [Match g c]) ++ [Moved g c])
                      = moves_of f (trace st) + (if String.eqb g f then 1 else 0)).
    { intros f. rewrite !moves_of_app. simpl. lia. }
    split; simpl.
    + rewrite H0, remove_file_filter, list_filter_filter.
      apply list_filter_iff. intros [name x]. simpl. rewrite Hm.
      destruct (String.eqb_spec g name) as [-> | Hne]; split; try lia.
      * by intros [].
      * intros H. split; [congruence | lia].
    + intros f. destruct (decide (f = g)) as [-> | Hne].
      * unfold person_entry. rewrite Hm, String.eqb_refl, decide_False by lia.
        by rewrite lookup_insert_eq.
      * rewrite lookup_insert_ne by congruence. rewrite H1, <- app_assoc.
        destruct (Hother f [Match g c; Moved g c] Hne) as [Em Ea].
        { intros ev Hev. rewrite !elem_of_cons in Hev.
          destruct Hev as [-> | [-> | Hev]]; [eauto | eauto | inversion Hev]. }
        symmetry. by apply person_entry_other.
  - (* the file is not there *)
    split; simpl.
    + rewrite H0. apply list_filter_iff. intros e.
      rewrite moves_of_app. simpl. lia.
    + intros f. rewrite H1. destruct (decide (f = g)) as [-> | Hne].
      * unfold person_entry. rewrite moves_of_app, matched_app. simpl.
        rewrite Nat.add_0_r.
        destruct (decide (moves_of g (trace st) = 0)) as [Hg | Hg]; [| done].
        rewrite El. simpl.
        destruct (matched g (trace st)); simpl; by rewrite ?String.eqb_refl.
      * destruct (Hother f [Match g c] Hne) as [Em Ea].
        { intros ev Hev. apply list_elem_of_singleton in Hev. eauto. }
        symmetry. by apply person_entry_other.
Qed.

Lemma quiet_files_accounted d0 d1 model os_refused (np pd : string) (t : Q)
    (listing : list string) (st : state) :
  accounted os_refused np pd d0 d1 st →
  accounted os_refused np pd d0 d1 (quiet_files model os_refused np pd t listing st).
Proof.
  apply (quiet_files_rule model os_refused np pd t
           (λ a b, accounted os_refused np pd d0 d1 a →
                   accounted os_refused np pd d0 d1 b)); [auto | auto |].
  intros f st0 _.
  apply (quiet_file_rule model os_refused np pd t
           (λ a b, accounted os_refused np pd d0 d1 a →
                   accounted os_refused np pd d0 d1 b)); [auto | auto |].
  intros _. split; [| split].
  - intros st1. by apply accounted_record.
  - intros e st1 H. unfold quiet_handler. apply accounted_record; [done | done |].
    revert H. by apply accounted_same.
  - intros results r b st1 _ _ _ _. apply accounted_relocate.
Qed.

Lemma accounted_initial os_refused (np pd : string) d0 d1 :
  accounted os_refused np pd d0 d1 (initial d0 d1).
Proof.
  split; cbn [initial dir0 dir1 trace].
  - symmetry. induction d0 as [|e d0 IH]; [done |].
    rewrite filter_cons.
    destruct (decide (moves_of e.1 [] = 0)) as [_ | Hn]; [by rewrite IH | done].
  - intros f. unfold person_entry.
    by destruct (decide (moves_of f [] = 0)).
Qed.

(** After a scan the person directory has what the failed moves of the
    files that are still in the non-person directory have left. *)
Lemma accounted_absorbed model os_refused (np pd : string) (t : Q) d0 d1 (st : state) :
  accounted os_refused np pd d0 d1 st →
  (∀ g results b,
     g ∈ listdir d0 → accepted g = true →
     model (OsPath.join np g) = Returns results → first_hit t results = Some b →
     Match g (conf b) ∈ trace st) →
  absorbed model os_refused np pd t st.
Proof.
  intros [H0 H1] Hhit g data results b copy El Ha Hm Hh Hres.
  pose proof (lookup_file_filter (λ x, moves_of x (trace st) = 0) g d0) as Hlf.
  simpl in Hlf. rewrite H0, Hlf in El.
  destruct (decide (moves_of g (trace st) = 0)) as [Hg | Hg]; [| discriminate].
  rewrite H1. unfold person_entry. rewrite decide_True by done.
  rewrite (matched_elem g (conf b)).
  - rewrite El. simpl. by rewrite Hres.
  - apply (Hhit g results b); try done. apply lookup_file_listdir. by eexists.
Qed.

Lemma remove_file_absent (g : string) (d : list (string * content)) :
  lookup_file g d = None → remove_file g d = d.
Proof.
  induction d as [|[name data] d IH]; simpl; [done |].
  destruct (String.eqb name g); [discriminate |]. intros H. by rewrite IH.
Qed.

Lemma listdir_remove_file (f g : string) (d : list (string * content)) :
  f ∈ listdir (remove_file g d) → f ∈ listdir d.
Proof.
  rewrite !lookup_file_listdir. destruct (decide (f = g)) as [-> | Hne].
  - rewrite lookup_remove_eq. by intros [x Hx].
  - by rewrite lookup_remove_ne.
Qed.

Lemma NoDup_remove_file (g : string) (d : list (string * content)) :
  NoDup (listdir d) → NoDup (listdir (remove_file g d)).
Proof.
  induction d as [|[name data] d IH]; simpl; [done |].
  intros Hnd. apply NoDup_cons in Hnd as [Hnotin Hnd].
  destruct (String.eqb name g); [by apply IH |].
  simpl. apply NoDup_cons. split; [| by apply IH].
  intros Hin. apply Hnotin. by apply listdir_remove_file in Hin.
Qed.

Lemma length_remove_file (g : string) (d : list (string * content)) :
  NoDup (listdir d) → is_Some (lookup_file g d) →
  length (remove_file g d) + 1 = length d.
Proof.
  induction d as [|[name data] d IH]; simpl; [by intros _ [x Hx] |].
  intros Hnd Hl. apply NoDup_cons in Hnd as [Hnotin Hnd].
  destruct (String.eqb_spec name g) as [-> | Hne].
  - rewrite remove_file_absent; [lia |].
    destruct (lookup_file g d) eqn:E; [| done].
    exfalso. apply Hnotin, lookup_file_listdir. by eexists.
  - simpl. rewrite <- IH by done. lia.
Qed.

Lemma balanced_relocate os_refused (pd g p : string) (c : Q) (st : state) :
  balanced st (quiet_relocate os_refused pd g p c st).1.
Proof.
  intros Hnd. unfold quiet_relocate, shutil_move. cbv zeta. simpl.
  destruct (lookup_file g (dir0 st)) as [data|] eqn:El;
    [destruct (os_refused p (OsPath.join pd g)) as [e|] |]; simpl; try done.
  split; [by apply NoDup_remove_file |].
  pose proof (length_remove_file g (dir0 st) Hnd ltac:(by eexists)). lia.
Qed.

Lemma quiet_files_balanced model os_refused (np pd : string) (t : Q)
    (listing : list string) (st : state) :
  balanced st (quiet_files model os_refused np pd t listing st).
Proof.
  assert (Hrefl : ∀ a, balanced a a) by (by intros a H).
  assert (Htrans : ∀ a b c, balanced a b → balanced b c → balanced a c).
  { intros a b c Hab Hbc Hnd. destruct (Hab Hnd) as [Hb Eb].
    destruct (Hbc Hb) as [Hc Ec]. split; [done | lia]. }
  apply quiet_files_rule; [done | done |].
  intros f st0 _. apply quiet_file_rule; [done | done |].
  intros _. split; [| split].
  - by intros st1 H.
  - by intros e st1 H.
  - intros results r b st1 _ _ _ _. apply balanced_relocate.
Qed.

Lemma filter_length_le {A : Type} (P R : A → Prop)
    `{∀ x, Decision (P x)} `{∀ x, Decision (R x)} (l : list A) :
  (∀ x, x ∈ l → P x → R x) → (length (filter P l) ≤ length (filter R l))%nat.
Proof.
  induction l as [|x l IH]; intros Himp; [done |].
  assert (IH' : (length (filter P l) ≤ length (filter R l))%nat).
  { apply IH. intros y Hy. apply Himp. by right. }
  rewrite !filter_cons.
  destruct (decide (P x)) as [HP | HP].
  - rewrite decide_True by (apply Himp; [left | done]). simpl. lia.
  - destruct (decide (R x)); simpl; lia.
Qed.

Lemma filter_length_split {A : Type} (P : A → Prop) `{∀ x, Decision (P x)} (l : list A) :
  length (filter P l) + length (filter (λ x, ¬ P x) l) = length l.
Proof.
  induction l as [|x l IH]; [done |].
  rewrite !filter_cons.
  destruct (decide (P x)) as [HP | HP].
  - rewrite decide_False by tauto. simpl. lia.
  - rewrite decide_True by done. simpl. lia.
Qed.

Lemma run_scan w fs (mp root : string) (t : Q) (n : nat) (path : string) d0 d1 :
  returned (process_mislabeled_images w fs mp root t) = inr (n, path) →
  non_person fs = Some d0 → person fs = Some d1 →
  ∃ model, YOLO w mp = Loaded model ∧
    let st := quiet_scan w model root t d0 d1 in
    events (process_mislabeled_images w fs mp root t) = trace st ∧
    non_person (fs_after (process_mislabeled_images w fs mp root t)) = Some (dir0 st) ∧
    person (fs_after (process_mislabeled_images w fs mp root t)) = Some (dir1 st) ∧
    n = moved_count st.
Proof.
  intros Hret H0 H1.
  destruct (run_returned _ _ _ _ _ _ _ Hret) as (model & d0' & d1' & HY & H0' & H1').
  assert (d0' = d0) as -> by congruence. assert (d1' = d1) as -> by congruence.
  exists model. split; [done |].
  pose proof (run_loaded _ _ _ _ _ _ _ _ _ _ HY H0 H1 Hret) as E.
  rewrite E in Hret |- *. cbv zeta in *. simpl in *.
  repeat split. congruence.
Qed.

(** ** The lines of the log *)

Lemma splitlines_line (a rest : string) :
  one_line a = true → splitlines (a +:+ newline +:+ rest) = a :: splitlines rest.
Proof.
  induction a as [|x a IH]; intros H; [reflexivity |].
  unfold one_line in H. simpl in H. apply andb_true_iff in H as [Hx Ha].
  change (splitlines (String x (a +:+ newline +:+ rest)) = String x a :: splitlines rest).
  simpl. apply negb_true_iff in Hx. rewrite Hx. by rewrite IH.
Qed.

Lemma one_line_join (a b : string) :
  one_line a = true → one_line b = true → one_line (OsPath.join a b) = true.
Proof.
  intros Ha Hb. unfold OsPath.join.
  destruct (String.prefix OsPath.sep b); [done |].
  destruct (_ || _); rewrite !one_line_app, Ha, Hb; reflexivity.
Qed.

Lemma one_line_enoent (p : string) : one_line p = true → one_line (enoent p) = true.
Proof. intros H. unfold enoent. by rewrite !one_line_app, H. Qed.

Lemma moved_lines_cons (a rest : string) :
  one_line a = true →
  moved_lines ((a +:+ newline) +:+ rest)
  = (if String.prefix "Moved " a then [a] else []) ++ moved_lines rest.
Proof.
  intros H. unfold moved_lines. rewrite append_assoc, splitlines_line by done.
  rewrite filter_cons.
  destruct (String.prefix "Moved " a) eqn:E.
  - by rewrite decide_True.
  - by rewrite decide_False.
Qed.

Lemma moved_line_text (f : string) (c : Q) :
  moved_line f c
  = ("Moved " +:+ f +:+ " (confidence: " +:+ Fmt.format_2f c +:+ ")") +:+ newline.
Proof. unfold moved_line. by rewrite !append_assoc. Qed.

Lemma error_line_text (f e : string) :
  error_line f e = ("Error processing " +:+ f +:+ ": " +:+ e) +:+ newline.
Proof. unfold error_line. by rewrite !append_assoc. Qed.

Lemma prefix_moved (text : string) : String.prefix "Moved " ("Moved " +:+ text) = true.
Proof. by destruct text. Qed.

Lemma moved_lines_render (evs : list event) :
  Forall tidy evs → length (moved_lines (render evs)) = count_moved evs.
Proof.
  induction evs as [|ev evs IH]; intros H; [reflexivity |].
  apply Forall_cons in H as [Hev H]. specialize (IH H).
  change (render (ev :: evs)) with (line ev +:+ render evs).
  change (count_moved (ev :: evs)) with ((if is_moved ev then 1 else 0) + count_moved evs).
  destruct ev as [p | f c | f c | f e]; try exact IH.
  - change (line (Moved f c)) with (moved_line f c).
    rewrite moved_line_text, moved_lines_cons.
    + rewrite prefix_moved. simpl. by rewrite IH.
    + simpl in Hev. rewrite !one_line_app, Hev.
      by rewrite (numeric_one_line _ (numeric_format_2f c)).
  - change (line (Failed f e)) with (error_line f e).
    destruct Hev as [Hf He].
    rewrite error_line_text, moved_lines_cons.
    + change (String.prefix "Moved " ("Error processing " +:+ f +:+ ": " +:+ e))
        with false.
      exact IH.
    + by rewrite !one_line_app, Hf, He.
Qed.

(** ** The texts of the errors *)

Lemma quiet_relocate_exn os_refused (pd f p : string) (c : Q) (st st' : state) (e : string) :
  quiet_relocate os_refused pd f p c st = (st', Some e) →
  e = enoent p ∨ ∃ r, os_refused p (OsPath.join pd f) = Some r ∧ e = reason r.
Proof.
  unfold quiet_relocate, shutil_move. cbv zeta. simpl.
  destruct (lookup_file f (dir0 st)) as [data|];
    [destruct (os_refused p (OsPath.join pd f)) as [r|] |]; intros [= <- <-].
  - right. by exists r.
  - by left.
Qed.

Lemma quiet_results_exn os_refused (pd : string) (t : Q) (f p : string)
    (results : list Result) (st st' : state) (e : string) :
  quiet_results os_refused pd t f p results st = (st', Some e) →
  e = enoent p ∨ ∃ r, os_refused p (OsPath.join pd f) = Some r ∧ e = reason r.
Proof.
  revert st. induction results as [|r results IH]; intros st; simpl; [discriminate |].
  rewrite quiet_boxes_find.
  destruct (find (qualifies t) (boxes r)) as [b|]; [| apply IH].
  destruct (quiet_relocate os_refused pd f p (conf b) st) as [st1 [e1|]] eqn:E.
  - intros [= <- <-]. by eapply quiet_relocate_exn.
  - apply IH.
Qed.

Lemma quiet_results_no_error os_refused (pd : string) (t : Q) (f p : string)
    (results : list Result) (st : state) (g e : string) :
  Failed g e ∈ trace (quiet_results os_refused pd t f p results st).1 →
  Failed g e ∈ trace st.
Proof.
  destruct (quiet_results_rule os_refused pd t (emits (λ ev, is_moved ev = true ∨
              ∃ c, ev = Match f c)) (emits_refl _) (emits_trans _) f p results st)
    as (evs & Ht & Hall & _).
  - intros r b st0 _ _ _. apply emits_relocate; [right; eauto | by left].
  - rewrite Ht, elem_of_app. intros [H | H]; [done |].
    rewrite Forall_forall in Hall. destruct (Hall _ H) as [Hm | [c Hc]]; discriminate.
Qed.

Lemma quiet_file_failed model os_refused (np pd : string) (t : Q) (f : string)
    (st : state) (g e : string) :
  Failed g e ∈ trace (quiet_file model os_refused np pd t st f) →
  Failed g e ∈ trace st ∨ (g = f ∧ cause model os_refused np pd f e).
Proof.
  unfold quiet_file. destruct (accepted f); [| by left]. cbv zeta.
  destruct (model (OsPath.join np f)) as [results | e0] eqn:Em.
  - destruct (quiet_results os_refused pd t f (OsPath.join np f) results
                (record (Detect (OsPath.join np f)) st)) as [st2 [e0|]] eqn:E.
    + pose proof (quiet_results_no_error os_refused pd t f (OsPath.join np f) results
                    (record (Detect (OsPath.join np f)) st) g e) as Hno.
      rewrite E in Hno. simpl in *.
      rewrite elem_of_app. intros [H | H].
      * left. specialize (Hno H). apply elem_of_app in Hno as [Hno | Hno]; [done |].
        apply list_elem_of_singleton in Hno. discriminate.
      * apply list_elem_of_singleton in H. injection H as -> ->. right.
        split; [done |]. right. by eapply quiet_results_exn.
    + pose proof (quiet_results_no_error os_refused pd t f (OsPath.join np f) results
                    (record (Detect (OsPath.join np f)) st) g e) as Hno.
      rewrite E in Hno. simpl in *. intros H. left.
      specialize (Hno H). apply elem_of_app in Hno as [Hno | Hno]; [done |].
      apply list_elem_of_singleton in Hno. discriminate.
  - simpl. rewrite !elem_of_app. intros [[H | H] | H]; [by left | |].
    + apply list_elem_of_singleton in H. discriminate.
    + apply list_elem_of_singleton in H. injection H as -> ->. right.
      split; [done | by left].
Qed.

Lemma quiet_files_failed model os_refused (np pd : string) (t : Q)
    (listing : list string) (st : state) (g e : string) :
  Failed g e ∈ trace (quiet_files model os_refused np pd t listing st) →
  Failed g e ∈ trace st ∨ (g ∈ listing ∧ cause model os_refused np pd g e).
Proof.
  revert st. induction listing as [|f listing IH]; intros st; simpl; [by left |].
  intros H. destruct (IH _ H) as [H' | [Hin Hc]].
  - destruct (quiet_file_failed _ _ _ _ _ _ _ _ _ H') as [H'' | [-> Hc]];
      [by left | right; split; [left | done]].
  - right. split; [by right | done].
Qed.

(** The events of a scan are tidy when the names, the texts of the detector
    and of the refusals and the directory are. *)
Lemma quiet_scan_tidy w model (root : string) (t : Q) d0 d1 :
  one_line root = true →
  (∀ f, f ∈ listdir d0 → one_line f = true) →
  (∀ p e, model p = Raises e → one_line e = true) →
  (∀ src dst x, refused w src dst = Some x → one_line (reason x) = true) →
  Forall tidy (trace (quiet_scan w model root t d0 d1)).
Proof.
  intros Hroot Hnames Hmodel Hos. apply Forall_forall. intros ev Hev.
  destruct (quiet_scan_spec w model root t d0 d1) as (Hor & _).
  rewrite Forall_forall in Hor. specialize (Hor ev Hev).
  destruct ev as [p | f c | f c | f e]; simpl; try done.
  - destruct Hor as (g & Hg & _ & <- & _). by apply Hnames.
  - destruct Hor as (g & Hg & _ & <-).
    split; [by apply Hnames |].
    unfold quiet_scan in Hev.
    destruct (quiet_files_failed _ _ _ _ _ _ _ _ _ Hev) as [Hbad | [Hin Hc]];
      [inversion Hbad |].
    destruct Hc as [Hc | [-> | (r & Hr & ->)]].
    + by eapply Hmodel.
    + apply one_line_enoent, one_line_join; [by apply one_line_join | by apply Hnames].
    + by eapply Hos.
Qed.

(** ** Names that are not accepted, in the loop of the function *)

Lemma process_file_skips model os_refused log out (np pd : string) (t : Q) (f : string)
    (st : state) :
  accepted f = false → process_file model os_refused log out np pd t st f = (st, None).
Proof. intros H. unfold process_file. by rewrite H. Qed.

Lemma process_files_filter model os_refused log out (np pd : string) (t : Q)
    (listing : list string) (st : state) :
  process_files model os_refused log out np pd t listing st =
  process_files model os_refused log out np pd t
    (filter (λ f, accepted f = true) listing) st.
Proof.
  revert st. induction listing as [|f listing IH]; intros st; [reflexivity |].
  rewrite filter_cons. case_decide as Ha; simpl.
  - destruct (process_file _ _ _ _ _ _ _ _ _) as [st' [e|]]; [done | apply IH].
  - rewrite process_file_skips; [apply IH |]. by destruct (accepted f).
Qed.

(** ** The steps of the loop of the function *)

Lemma for_results_raises os_refused log out (pd : string) (t : Q) (f p : string)
    (results : list Result) (st st1 : state) (b : Box) (e : string) :
  first_hit t results = Some b →
  relocate os_refused log out pd f p (conf b) st = (st1, Some e) →
  for_results os_refused log out pd t f p results st = (st1, Some e).
Proof.
  intros Hh Hr. induction results as [|r results IH]; [discriminate |].
  simpl in *.
  assert (Hfind : ∀ bs, for_boxes os_refused log out pd t f p bs st =
            match find (qualifies t) bs with
            | Some b => relocate os_refused log out pd f p (conf b) st
            | None => (st, None)
            end).
  { induction bs as [|b' bs IHb]; simpl; [done |]. by destruct (qualifies t b'). }
  rewrite Hfind.
  destruct (find (qualifies t) (boxes r)) as [b'|].
  - injection Hh as ->. by rewrite Hr.
  - by apply IH.
Qed.

Lemma speakable_error (w : world) (f e : string) :
  speakable w f → speakable w e →
  encodable (stdout_encoding w) (error_line f e) = true ∧
  encodable (log_encoding w) (error_line f e) = true.
Proof.
  intros [Hf1 Hf2] [He1 He2]. rewrite !encodable_error_line.
  by rewrite Hf1, Hf2, He1, He2.
Qed.
Lemma for_boxes_find os_refused log out (pd : string) (t : Q) (f p : string)
    (bs : list Box) (st : state) :
  for_boxes os_refused log out pd t f p bs st =
  match find (qualifies t) bs with
  | Some b => relocate os_refused log out pd f p (conf b) st
  | None => (st, None)
  end.
Proof.
  induction bs as [|b bs IH]; simpl; [reflexivity |].
  by destruct (qualifies t b).
Qed.

(** A file on which the detector raises, when the line of the error can be
    printed and written. *)
Lemma process_file_fails model os_refused log out (np pd : string) (t : Q)
    (f e : string) (st : state) :
  accepted f = true → model (OsPath.join np f) = Raises e →
  encodable out (error_line f e) = true → encodable log (error_line f e) = true →
  process_file model os_refused log out np pd t st f
  = (quiet_handler f e (record (Detect (OsPath.join np f)) st), None).
Proof.
  intros Ha Hm Ho Hl. unfold process_file. rewrite Ha, Hm. cbv zeta.
  by apply handler_returns.
Qed.

(** A file whose move is refused, when the line of the error can be printed
    and written. *)
Lemma process_file_refused model os_refused log out (np pd : string) (t : Q)
    (f : string) (st : state) (results : list Result) (b : Box) (data : content)
    (r : refusal) :
  accepted f = true → model (OsPath.join np f) = Returns results →
  first_hit t results = Some b →
  lookup_file f (dir0 st) = Some data →
  os_refused (OsPath.join np f) (OsPath.join pd f) = Some r →
  encodable out (error_line f (reason r)) = true →
  encodable log (error_line f (reason r)) = true →
  process_file model os_refused log out np pd t st f
  = (quiet_handler f (reason r)
       (left_over f (left_behind r data)
          (record (Match f (conf b)) (record (Detect (OsPath.join np f)) st))), None).
Proof.
  intros Ha Hm Hh Hl Hr Ho Hlog. unfold process_file. rewrite Ha, Hm. cbv zeta.
  rewrite (for_results_raises os_refused log out pd t f (OsPath.join np f) results
             (record (Detect (OsPath.join np f)) st)
             (left_over f (left_behind r data)
                (record (Match f (conf b)) (record (Detect (OsPath.join np f)) st)))
             b (reason r) Hh).
  - by apply handler_returns.
  - unfold relocate, shutil_move. cbv zeta. simpl. by rewrite Hl, Hr.
Qed.

(** A file with one result, in which a box passes the test, when the move
    is not refused and the name can be written and printed. *)
Lemma process_file_moves model os_refused log out (np pd : string) (t : Q)
    (f : string) (st : state) (bs : list Box) (b : Box) (data : content) :
  accepted f = true → model (OsPath.join np f) = Returns [ {| boxes := bs |} ] →
  find (qualifies t) bs = Some b →
  lookup_file f (dir0 st) = Some data →
  os_refused (OsPath.join np f) (OsPath.join pd f) = None →
  encodable log f = true → encodable out f = true →
  process_file model os_refused log out np pd t st f
  = ({| dir0 := remove_file f (dir0 st);
        dir1 := <[f := data]> (dir1 st);
        log_file := log_file st +:+ moved_line f (conf b);
        moved_count := moved_count st + 1;
        trace := trace st ++ [Detect (OsPath.join np f); Match f (conf b);
                              Moved f (conf b)] |}, None).
Proof.
  intros Ha Hm Hfind Hl Hr Hlog Hout. unfold process_file. rewrite Ha, Hm. cbv zeta.
  cbn [for_results boxes]. rewrite for_boxes_find, Hfind.
  unfold relocate, shutil_move. cbv zeta. cbn [record dir0]. rewrite Hl, Hr.
  unfold write, print, refuses.
  rewrite encodable_moved_line, encodable_moved_notice, Hlog, Hout.
  cbn. unfold increment, record, log_append. cbn. by rewrite <- !app_assoc.
Qed.

Lemma process_files_cons model os_refused log out (np pd : string) (t : Q)
    (f : string) (rest : list string) (st st' : state) :
  process_file model os_refused log out np pd t st f = (st', None) →
  process_files model os_refused log out np pd t (f :: rest) st
  = process_files model os_refused log out np pd t rest st'.
Proof. intros H. simpl. by rewrite H. Qed.

(** The run, from the scan on, when the calls of the operating system do
    not fail and the path of the log can be printed. *)
Lemma run_of_scan w fs (mp root : string) (t : Q) model d0 d1 (st : state) :
  YOLO w mp = Loaded model → non_person fs = Some d0 → person fs = Some d1 →
  os_error w (Makedirs (OsPath.join root "logs")) = None →
  os_error w (Open (OsPath.join (OsPath.join root "logs") (log_name w))) = None →
  os_error w (Listdir (OsPath.join root "0")) = None →
  encodable (stdout_encoding w) root = true →
  process_files model (refused w) (log_encoding w) (stdout_encoding w)
    (OsPath.join root "0") (OsPath.join root "1") t (listdir d0) (initial d0 d1)
  = (st, None) →
  process_mislabeled_images w fs mp root t =
  {| fs_after :=
       {| non_person := Some (dir0 st);
          person := Some (dir1 st);
          logs := Some (<[log_name w := log_file st]> (default ∅ (logs fs))) |};
     events := trace st;
     returned := inr (moved_count st,
                      OsPath.join (OsPath.join root "logs") (log_name w)) |}.
Proof.
  intros HY H0 H1 Hmk Hop Hls Hroot Hscan.
  unfold process_mislabeled_images. rewrite HY, H0, H1. cbv zeta.
  rewrite Hmk, print_starting, Hop.
  unfold scan. cbv zeta. rewrite write_header, Hls, Hscan.
  unfold print, refuses. rewrite encodable_completed, encodable_saved by done.
  reflexivity.
Qed.
(** * The claims *)

(** C10, as the code has it: in a run that returns, the count is the number
    of lines of a move that were written to the log.  The log is the header
    followed by the texts of the events in order, which are spelled out; a
    move that succeeds adds one line and one to the counter, after the file
    has changed directory, and nothing else changes the counter.  When the
    dataset root, the names of the directory and the texts of the errors are
    without a line break, the count is the number of lines of the log, after
    the header, that begin with [Moved ]. *)
Theorem moved_count_counts_moved_lines
    w fs (mp root : string) (t : Q) (n : nat) (path : string) :
  returned (process_mislabeled_images w fs mp root t) = inr (n, path) →
  let r := process_mislabeled_images w fs mp root t in
  (∃ body,
     log_text w r = Some ("Moved Files (Person Detected in Non-Person Directory):"
                          +:+ newline +:+ newline +:+ body) ∧
     body = render (events r) ∧
     (one_line root = true →
      (∀ d0 f, non_person fs = Some d0 → f ∈ listdir d0 → one_line f = true) →
      (∀ model p e, YOLO w mp = Loaded model → model p = Raises e → one_line e = true) →
      (∀ src dst x, refused w src dst = Some x → one_line (reason x) = true) →
      n = length (moved_lines body))) ∧
  n = count_moved (events r) ∧
  (∀ f c, line (Moved f c)
          = "Moved " +:+ f +:+ " (confidence: " +:+ Fmt.format_2f c +:+ ")" +:+ newline) ∧
  (∀ f e, line (Failed f e) = "Error processing " +:+ f +:+ ": " +:+ e +:+ newline) ∧
  (∀ p, line (Detect p) = "") ∧ (∀ f c, line (Match f c) = "") ∧
  (∀ f c, Moved f c ∈ events r →
          Match f c ∈ events r ∧
          ∃ d0 d1, non_person (fs_after r) = Some d0 ∧
                   person (fs_after r) = Some d1 ∧
                   lookup_file f d0 = None ∧ is_Some (d1 !! f)) ∧
  (∀ os_refused log out (pd f p : string) (c : Q) (st : state),
     let moved st' :=
       moved_count st' = moved_count st + 1 ∧
       log_file st' = log_file st +:+ "Moved " +:+ f +:+ " (confidence: "
                        +:+ Fmt.format_2f c +:+ ")" +:+ newline ∧
       lookup_file f (dir0 st') = None ∧ is_Some (dir1 st' !! f) in
     match relocate os_refused log out pd f p c st with
     | (st', None) => moved st'
     | (st', Some _) =>
         (moved_count st' = moved_count st ∧ log_file st' = log_file st) ∨ moved st'
     end).
Proof.
  intros Hret. cbv zeta.
  destruct (run_returned _ _ _ _ _ _ _ Hret) as (model & d0 & d1 & HY & H0 & H1).
  rewrite (log_text_loaded _ _ _ _ _ _ _ _ _ _ HY H0 H1 Hret).
  pose proof (run_loaded _ _ _ _ _ _ _ _ _ _ HY H0 H1 Hret) as E.
  rewrite E in Hret |- *. cbv zeta in *. simpl in *.
  destruct (quiet_scan_spec w model root t d0 d1) as (_ & Hl & Hm & Hs).
  injection Hret as Hn _.
  split; [| split; [congruence | split; [done | split; [done | split; [done |
            split; [done | split]]]]]].
  - exists (render (trace (quiet_scan w model root t d0 d1))).
    split; [by rewrite Hl | split; [done |]].
    intros Hroot Hnames Hmodel Hos. rewrite moved_lines_render; [congruence |].
    apply quiet_scan_tidy; try done.
    + intros f. by apply Hnames.
    + intros p e. by apply Hmodel.
  - intros f c Hin. destruct (Hs f c Hin) as (HM & Hp & Hgone).
    split; [done |]. by eexists _, _.
  - intros os_refused log out pd f p c st.
    unfold relocate, shutil_move. cbv zeta. cbn [record dir0].
    destruct (lookup_file f (dir0 st)) as [data|];
      [destruct (os_refused p (OsPath.join pd f)) as [x|] |];
      [left; by split | | left; by split].
    unfold write, print.
    assert (Hmoved : lookup_file f (remove_file f (dir0 st)) = None ∧
                     is_Some (<[f := data]> (dir1 st) !! f)).
    { split; [apply lookup_remove_eq | rewrite lookup_insert_eq; by eexists]. }
    destruct (refuses log (moved_line f c)); [left; by split |].
    destruct (refuses out (moved_notice f c +:+ newline)); [right |]; by split.
Qed.

Lemma moved_count_counts_moved_lines_witness :
  let r := process_mislabeled_images (one_person (1 # 2)) one_image "yolo11x.pt" "root" (2 # 5) in
  returned r = inr (1, "root/logs/moved_files_20250309_140500.txt") ∧
  ∃ body,
    log_text (one_person (1 # 2)) r
    = Some ("Moved Files (Person Detected in Non-Person Directory):"
            +:+ newline +:+ newline +:+ body) ∧
    1 = length (moved_lines body).
Proof.
  cbv zeta.
  assert (H : returned (process_mislabeled_images (one_person (1 # 2)) one_image
                          "yolo11x.pt" "root" (2 # 5))
              = inr (1, "root/logs/moved_files_20250309_140500.txt"))
    by (vm_compute; reflexivity).
  split; [exact H |].
  destruct (moved_count_counts_moved_lines _ _ _ _ _ _ _ H)
    as ((body & Hlog & _ & Hlines) & _).
  exists body. split; [exact Hlog |].
  apply Hlines.
  - reflexivity.
  - intros d0 f [= <-] Hf. apply list_elem_of_singleton in Hf. by subst f.
  - intros model p e HY Hm.
    change (Loaded (answers [("root/0/a.jpg", Returns [ {| boxes := [person_box (1 # 2)] |} ])])
            = Loaded model) in HY.
    assert (Hmodel : model = answers [("root/0/a.jpg",
                                       Returns [ {| boxes := [person_box (1 # 2)] |} ])])
      by congruence.
    rewrite Hmodel in Hm. unfold answers in Hm.
    destruct (String.eqb "root/0/a.jpg" p); discriminate Hm.
  - intros src dst x. discriminate.
Defined.

(** C10, as it is stated, fails on the lines of the log: the name of a file
    can have line breaks in it, and the line of an error then has lines of
    its own.  Here nothing is moved, the count is 0, and the log has the line
    of a move. *)
Lemma error_line_can_read_as_a_move :
  let r := process_mislabeled_images fails_on_forged forged_image
             "yolo11x.pt" "root" (2 # 5) in
  accepted forged_name = true ∧
  returned r = inr (0, "root/logs/moved_files_20250309_140500.txt") ∧
  log_text fails_on_forged r
  = Some ("Moved Files (Person Detected in Non-Person Directory):" +:+ newline +:+ newline
          +:+ "Error processing x" +:+ newline
          +:+ "Moved y.jpg (confidence: 0.50)" +:+ newline
          +:+ ".jpg: cannot identify image file" +:+ newline) ∧
  moved_lines ("Error processing x" +:+ newline
               +:+ "Moved y.jpg (confidence: 0.50)" +:+ newline
               +:+ ".jpg: cannot identify image file" +:+ newline)
  = ["Moved y.jpg (confidence: 0.50)"] ∧
  "Moved y.jpg (confidence: 0.50)" +:+ newline = moved_line "y.jpg" (1 # 2) ∧
  0 ≠ length (moved_lines ("Error processing x" +:+ newline
                           +:+ "Moved y.jpg (confidence: 0.50)" +:+ newline
                           +:+ ".jpg: cannot identify image file" +:+ newline)).
Proof. cbv zeta. repeat split; try (vm_compute; reflexivity). vm_compute. discriminate. Qed.

(** C6: when one of the two class directories is missing the function
    raises, before it creates the logs directory or the log, lists the
    non-person directory, calls the detector or moves a file: the file system
    is as it was and nothing has happened.  When the model has loaded the
    exception is [FileNotFoundError] and names the first missing directory. *)
Theorem missing_directory_aborts w fs (mp root : string) (t : Q) :
  non_person fs = None ∨ person fs = None →
  let r := process_mislabeled_images w fs mp root t in
  (∃ e, returned r = inl e) ∧ fs_after r = fs ∧ events r = [] ∧
  (∀ model, YOLO w mp = Loaded model →
     returned r =
     inl (FileNotFoundError
            ("Dataset directory not found: " +:+
             OsPath.join root (match non_person fs with None => "0" | Some _ => "1" end)))).
Proof.
  intros H. cbv zeta. unfold process_mislabeled_images.
  destruct (YOLO w mp) as [model | e | e]; simpl.
  - destruct (non_person fs) as [d0|] eqn:E0; simpl.
    + destruct (person fs) as [d1|] eqn:E1; simpl.
      * destruct H; discriminate.
      * repeat split; eauto.
    + repeat split; eauto.
  - repeat split; eauto. intros model Hm. discriminate.
  - repeat split; eauto. intros model Hm. discriminate.
Qed.

Lemma missing_directory_aborts_witness :
  let fs := {| non_person := Some [("a.jpg", "A")]; person := None; logs := None |} in
  let r := process_mislabeled_images (one_person (1 # 2)) fs "yolo11x.pt" "root" (2 # 5) in
  fs_after r = fs ∧ events r = [] ∧
  returned r = inl (FileNotFoundError "Dataset directory not found: root/1").
Proof.
  cbv zeta.
  destruct (missing_directory_aborts (one_person (1 # 2))
              {| non_person := Some [("a.jpg", "A")]; person := None; logs := None |}
              "yolo11x.pt" "root" (2 # 5) (or_intror eq_refl))
    as (_ & Hfs & Hev & Hret).
  split; [exact Hfs | split; [exact Hev |]].
  exact (Hret _ eq_refl).
Defined.

(** C5: a box passes the test exactly when its class is 0 and its confidence
    is strictly above the threshold; a confidence equal to the threshold does
    not pass; every match and every move of a run has a confidence strictly
    above the threshold.  With threshold 0.40, a person at 0.40 is not
    matched and nothing is moved; a person at 0.41 is matched and moved. *)
Theorem threshold_is_strict (t : Q) :
  (∀ b, qualifies t b = true ↔ cls b = 0%Z ∧ (t < conf b)%Q) ∧
  (∀ b, (conf b == t)%Q → qualifies t b = false) ∧
  (∀ w fs (mp root f : string) (c : Q),
     Match f c ∈ events (process_mislabeled_images w fs mp root t) ∨
     Moved f c ∈ events (process_mislabeled_images w fs mp root t) →
     (t < c)%Q ∧ ¬ (c == t)%Q) ∧
  (let r := process_mislabeled_images (one_person (40 # 100)) one_image
              "yolo11x.pt" "root" (40 # 100) in
   matches (events r) = [] ∧
   returned r = inr (0, "root/logs/moved_files_20250309_140500.txt")) ∧
  (let r := process_mislabeled_images (one_person (41 # 100)) one_image
              "yolo11x.pt" "root" (40 # 100) in
   matches (events r) = [("a.jpg", 41 # 100)] ∧
   returned r = inr (1, "root/logs/moved_files_20250309_140500.txt")).
Proof.
  split; [intros b; apply qualifies_spec |].
  split; [| split; [| split; vm_compute; split; reflexivity]].
  - intros b Heq. destruct (qualifies t b) eqn:E; [| reflexivity].
    apply qualifies_spec in E as [_ Hlt]. rewrite Heq in Hlt.
    exfalso. exact (Qlt_irrefl _ Hlt).
  - intros w fs mp root f c Hin.
    assert (Hex : ∃ ev, ev ∈ events (process_mislabeled_images w fs mp root t))
      by (destruct Hin; eauto).
    destruct Hex as [ev Hev].
    destruct (run_events _ _ _ _ _ _ Hev) as (model & d0 & d1 & HY & H0 & H1 & evs & Ht).
    destruct (quiet_scan_spec w model root t d0 d1) as (Hor & _).
    rewrite Ht, Forall_app, Forall_forall in Hor. destruct Hor as [Hor _].
    assert (Ho : origin model (OsPath.join root "0") t (listdir d0) (Match f c) ∨
                 origin model (OsPath.join root "0") t (listdir d0) (Moved f c))
      by (destruct Hin as [Hin | Hin]; [left | right]; by apply Hor).
    apply origin_match in Ho as (_ & _ & results & r & b & _ & _ & _ & _ & Hlt & <-).
    split; [exact Hlt |].
    intros Heq. rewrite Heq in Hlt. exact (Qlt_irrefl _ Hlt).
Qed.

Lemma threshold_is_strict_witness :
  qualifies (40 # 100) (person_box (40 # 100)) = false ∧
  ((40 # 100) < (41 # 100))%Q.
Proof.
  destruct (threshold_is_strict (40 # 100)) as (_ & Heq & Hrun & _).
  split.
  - apply Heq. reflexivity.
  - refine (proj1 (Hrun (one_person (41 # 100)) one_image "yolo11x.pt" "root"
                     "a.jpg" (41 # 100) _)).
    left. vm_compute. right. left.
Defined.

(** C9: a name is accepted exactly when it ends with .jpg, .jpeg or .png,
    whatever the case of the letters; an entry that is not accepted leaves
    the state as it is, so that the scan of a listing is the scan of its
    accepted entries; in a run the detector is called on exactly the accepted
    entries of the non-person directory, and an entry that is not accepted
    has no match, no move and no error, and stays where it is. *)
Theorem scan_handles_exactly_images :
  (∀ f, accepted f = true ↔ has_image_extension f) ∧
  (∀ model os_refused log out (np pd : string) (t : Q) (f : string) (st : state),
     accepted f = false →
     process_file model os_refused log out np pd t st f = (st, None)) ∧
  (∀ model os_refused log out (np pd : string) (t : Q) (listing : list string)
     (st : state),
     process_files model os_refused log out np pd t listing st =
     process_files model os_refused log out np pd t
       (filter (λ f, accepted f = true) listing) st) ∧
  (∀ w fs (mp root : string) (t : Q) (n : nat) (path : string) d0,
     returned (process_mislabeled_images w fs mp root t) = inr (n, path) →
     non_person fs = Some d0 →
     let r := process_mislabeled_images w fs mp root t in
     (∀ p, Detect p ∈ events r ↔
           ∃ f, f ∈ listdir d0 ∧ accepted f = true ∧
                p = OsPath.join (OsPath.join root "0") f) ∧
     (∀ f, accepted f = false →
           (∀ c, (Match f c ∉ events r) ∧ (Moved f c ∉ events r)) ∧
           (∀ e, Failed f e ∉ events r) ∧
           ∃ d0', non_person (fs_after r) = Some d0' ∧
                  lookup_file f d0' = lookup_file f d0)).
Proof.
  split; [exact accepted_spec |].
  split; [exact process_file_skips |].
  split; [exact process_files_filter |].
  intros w fs mp root t n path d0 Hret H0. cbv zeta.
  destruct (run_returned _ _ _ _ _ _ _ Hret) as (model & d0' & d1 & HY & H0' & H1).
  assert (d0' = d0) as -> by congruence.
  rewrite (run_loaded _ _ _ _ _ _ _ _ _ _ HY H0 H1 Hret). cbv zeta. simpl.
  destruct (quiet_scan_spec w model root t d0 d1) as (Hor & _).
  rewrite Forall_forall in Hor. split.
  - intros p. split.
    + intros Hin. destruct (Hor _ Hin) as (f & Hf & Ha & ->). by exists f.
    + intros (f & Hf & Ha & ->). by apply quiet_files_detects.
  - intros f Ha. split; [| split].
    + intros c. split; intros Hin; destruct (Hor _ Hin) as (g & _ & Hg & <- & _);
        congruence.
    + intros e Hin. destruct (Hor _ Hin) as (g & _ & Hg & <-). congruence.
    + eexists. split; [reflexivity |]. unfold quiet_scan.
      apply quiet_files_keeps. intros g _.
      destruct (decide (f = g)) as [<- | Hne]; [by right | by left].
Qed.

Lemma scan_handles_exactly_images_witness :
  let r := process_mislabeled_images nothing_found mixed_entries "yolo11x.pt" "root" (2 # 5) in
  (Detect "root/0/b.PNG" ∈ events r) ∧
  (∀ e, Failed "notes.txt" e ∉ events r) ∧
  ∃ d0', non_person (fs_after r) = Some d0' ∧ lookup_file "notes.txt" d0' = Some "N".
Proof.
  cbv zeta.
  destruct scan_handles_exactly_images as (_ & _ & _ & H).
  destruct (H nothing_found mixed_entries "yolo11x.pt" "root" (2 # 5) 0
              "root/logs/moved_files_20250309_140500.txt"
              [("a.jpg", "A"); ("notes.txt", "N"); ("b.PNG", "B")]
              ltac:(vm_compute; reflexivity) eq_refl) as [Hd Hs].
  split; [| exact (proj2 (Hs "notes.txt" eq_refl))].
  apply Hd. exists "b.PNG". split; [| split; reflexivity].
  right. right. left.
Defined.
(** C3, as the code has it: when the detector raises for a file and the
    name of the file and the text of the error can be printed and written to
    the log, the line [Error processing <filename>: <error>] is written to
    the log, nothing is matched, moved or counted for that file, and the scan
    goes on with the files that follow.  When the name or the text cannot be
    encoded by one of the two streams, the exception leaves the handler and
    the scan stops at that file.  With a first file on which the detector
    fails and a second in which it finds a person with a confidence above the
    threshold (0.5 and 0.4, for one), in either order, when the names and the
    texts can be encoded and the calls of the operating system do not fail,
    the run returns 1 and the log has the line of the error and the line of
    the move. *)
Theorem detection_error_is_local :
  (∀ model os_refused log out (np pd : string) (t : Q) (f e : string)
     (rest : list string) (st : state),
     accepted f = true → model (OsPath.join np f) = Raises e →
     encodable out f = true → encodable out e = true →
     encodable log f = true → encodable log e = true →
     ∃ st',
       process_files model os_refused log out np pd t (f :: rest) st
       = process_files model os_refused log out np pd t rest st' ∧
       log_file st' = log_file st +:+ "Error processing " +:+ f +:+ ": " +:+ e +:+ newline ∧
       trace st' = trace st ++ [Detect (OsPath.join np f); Failed f e] ∧
       moved_count st' = moved_count st ∧
       dir0 st' = dir0 st ∧ dir1 st' = dir1 st) ∧
  (∀ model os_refused log out (np pd : string) (t : Q) (f e : string)
     (rest : list string) (st : state),
     accepted f = true → model (OsPath.join np f) = Raises e →
     encodable out f && encodable out e && encodable log f && encodable log e = false →
     ∃ st' e',
       process_files model os_refused log out np pd t (f :: rest) st = (st', Some e') ∧
       log_file st' = log_file st ∧
       trace st' = trace st ++ [Detect (OsPath.join np f)] ∧
       moved_count st' = moved_count st ∧
       dir0 st' = dir0 st ∧ dir1 st' = dir1 st) ∧
  (∀ w fs (mp root : string) (t c : Q) model (A B : string) (a b : content) (e : string) d1,
     YOLO w mp = Loaded model → person fs = Some d1 →
     accepted A = true → accepted B = true → A ≠ B →
     model (OsPath.join (OsPath.join root "0") A) = Raises e →
     model (OsPath.join (OsPath.join root "0") B)
       = Returns [ {| boxes := [person_box c] |} ] →
     (t < c)%Q →
     refused w (OsPath.join (OsPath.join root "0") B)
               (OsPath.join (OsPath.join root "1") B) = None →
     speakable w A → speakable w e → speakable w B →
     encodable (stdout_encoding w) root = true →
     os_error w (Makedirs (OsPath.join root "logs")) = None →
     os_error w (Open (OsPath.join (OsPath.join root "logs") (log_name w))) = None →
     os_error w (Listdir (OsPath.join root "0")) = None →
     let r := process_mislabeled_images w fs mp root t in
     let path := OsPath.join (OsPath.join root "logs") (log_name w) in
     (non_person fs = Some [(A, a); (B, b)] →
      returned r = inr (1, path) ∧
      log_text w r
      = Some ("Moved Files (Person Detected in Non-Person Directory):" +:+ newline +:+ newline
              +:+ "Error processing " +:+ A +:+ ": " +:+ e +:+ newline
              +:+ "Moved " +:+ B +:+ " (confidence: " +:+ Fmt.format_2f c +:+ ")" +:+ newline)) ∧
     (non_person fs = Some [(B, b); (A, a)] →
      returned r = inr (1, path) ∧
      log_text w r
      = Some ("Moved Files (Person Detected in Non-Person Directory):" +:+ newline +:+ newline
              +:+ "Moved " +:+ B +:+ " (confidence: " +:+ Fmt.format_2f c +:+ ")" +:+ newline
              +:+ "Error processing " +:+ A +:+ ": " +:+ e +:+ newline))).
Proof.
  split; [| split].
  - intros model os_refused log out np pd t f e rest st Ha Hm Hof Hoe Hlf Hle.
    eexists. split.
    + apply process_files_cons, process_file_fails; try done;
        rewrite encodable_error_line; by rewrite ?Hof, ?Hoe, ?Hlf, ?Hle.
    + by repeat split; simpl; rewrite <- ?app_assoc.
  - intros model os_refused log out np pd t f e rest st Ha Hm Henc.
    assert (Hfile : ∃ e', process_file model os_refused log out np pd t st f
                          = (record (Detect (OsPath.join np f)) st, Some e')).
    { unfold process_file. rewrite Ha, Hm. cbv zeta.
      destruct (handler_cases log out f e (record (Detect (OsPath.join np f)) st))
        as [(_ & Ho & Hl) | H]; [| exact H].
      rewrite encodable_error_line in Ho, Hl.
      apply andb_true_iff in Ho as [Ho1 Ho2]. apply andb_true_iff in Hl as [Hl1 Hl2].
      by rewrite Ho1, Ho2, Hl1, Hl2 in Henc. }
    destruct Hfile as [e' He']. eexists _, e'. simpl. rewrite He'.
    by repeat split.
  - intros w fs mp root t c model A B a b e d1 HY H1 HA HB Hne HmA HmB Hlt Href
      [HAl HAo] [Hel Heo] [HBl HBo] Hroot Hmk Hop Hls.
    cbv zeta.
    assert (Hq : find (qualifies t) [person_box c] = Some (person_box c)).
    { simpl. assert (Hq : qualifies t (person_box c) = true) by (by apply qualifies_spec).
      by rewrite Hq. }
    assert (EAB : String.eqb A B = false) by (by apply String.eqb_neq).
    assert (EBA : String.eqb B A = false) by (apply String.eqb_neq; congruence).
    split; intros H0.
    + assert (Hscan : process_files model (refused w) (log_encoding w) (stdout_encoding w)
                        (OsPath.join root "0") (OsPath.join root "1") t
                        (listdir [(A, a); (B, b)]) (initial [(A, a); (B, b)] d1)
                      = ({| dir0 := [(A, a)];
                            dir1 := <[B := b]> d1;
                            log_file := (header +:+ error_line A e) +:+ moved_line B c;
                            moved_count := 1;
                            trace := [Detect (OsPath.join (OsPath.join root "0") A);
                                      Failed A e;
                                      Detect (OsPath.join (OsPath.join root "0") B);
                                      Match B c; Moved B c] |}, None)).
      { unfold listdir. cbn [map fst].
        erewrite process_files_cons;
          [| apply process_file_fails; try done;
             rewrite encodable_error_line; by rewrite ?HAl, ?HAo, ?Hel, ?Heo].
        erewrite process_files_cons;
          [| eapply (process_file_moves _ _ _ _ _ _ _ _ _ [person_box c] (person_box c) b);
             try done; simpl; by rewrite EAB, String.eqb_refl].
        simpl. by rewrite EAB, String.eqb_refl. }
      rewrite (run_of_scan _ _ _ _ _ _ _ _ _ HY H0 H1 Hmk Hop Hls Hroot Hscan).
      split; [reflexivity |]. unfold log_text. simpl. rewrite lookup_insert_eq.
      unfold header, error_line, moved_line. by rewrite <- !append_assoc.
    + assert (Hscan : process_files model (refused w) (log_encoding w) (stdout_encoding w)
                        (OsPath.join root "0") (OsPath.join root "1") t
                        (listdir [(B, b); (A, a)]) (initial [(B, b); (A, a)] d1)
                      = ({| dir0 := [(A, a)];
                            dir1 := <[B := b]> d1;
                            log_file := (header +:+ moved_line B c) +:+ error_line A e;
                            moved_count := 1;
                            trace := [Detect (OsPath.join (OsPath.join root "0") B);
                                      Match B c; Moved B c;
                                      Detect (OsPath.join (OsPath.join root "0") A);
                                      Failed A e] |}, None)).
      { unfold listdir. cbn [map fst].
        erewrite process_files_cons;
          [| eapply (process_file_moves _ _ _ _ _ _ _ _ _ [person_box c] (person_box c) b);
             try done; simpl; by rewrite String.eqb_refl].
        erewrite process_files_cons;
          [| apply process_file_fails; try done;
             rewrite encodable_error_line; by rewrite ?HAl, ?HAo, ?Hel, ?Heo].
        simpl. by rewrite ?String.eqb_refl, ?EAB, ?EBA. }
      rewrite (run_of_scan _ _ _ _ _ _ _ _ _ HY H0 H1 Hmk Hop Hls Hroot Hscan).
      split; [reflexivity |]. unfold log_text. simpl. rewrite lookup_insert_eq.
      unfold header, error_line, moved_line. by rewrite <- !append_assoc.
Qed.

Lemma detection_error_is_local_witness :
  let r := process_mislabeled_images fails_then_finds two_images "yolo11x.pt" "root" (2 # 5) in
  returned r = inr (1, "root/logs/moved_files_20250309_140500.txt") ∧
  log_text fails_then_finds r =
  Some ("Moved Files (Person Detected in Non-Person Directory):" +:+ newline +:+ newline
        +:+ "Error processing a.jpg: cannot identify image file" +:+ newline
        +:+ "Moved b.jpg (confidence: 0.50)" +:+ newline).
Proof.
  cbv zeta.
  destruct detection_error_is_local as (_ & _ & H).
  refine (proj1 (H fails_then_finds two_images "yolo11x.pt" "root" (2 # 5) (1 # 2)
                   _ "a.jpg" "b.jpg" "A" "B" "cannot identify image file" ∅
                   eq_refl eq_refl eq_refl eq_refl _ eq_refl eq_refl eq_refl eq_refl
                   (conj eq_refl eq_refl) (conj eq_refl eq_refl) (conj eq_refl eq_refl)
                   eq_refl eq_refl eq_refl eq_refl)
                eq_refl).
  discriminate.
Defined.

(** C3, as it is stated, fails: when the name of the file on which the
    detector fails has a character that the log or the standard output
    cannot encode, the handler raises in its turn, the run ends with that
    exception, and the files that follow are not processed: nothing is
    returned, nothing is moved, and the log is the header alone. *)
Lemma error_line_that_cannot_be_written_aborts :
  let r := process_mislabeled_images fails_on_cafe cafe_images "yolo11x.pt" "root" (2 # 5) in
  accepted cafe = true ∧ accepted "b.jpg" = true ∧
  returned r
  = inl (Exception "'ascii' codec can't encode character: ordinal not in range(128)") ∧
  events r = [Detect ("root/0/" +:+ cafe)] ∧
  non_person (fs_after r) = Some [(cafe, "A"); ("b.jpg", "B")] ∧
  person (fs_after r) = Some ∅ ∧
  log_text fails_on_cafe r
  = Some ("Moved Files (Person Detected in Non-Person Directory):" +:+ newline +:+ newline).
Proof. cbv zeta. repeat split; vm_compute; reflexivity. Qed.

(** C2, as the code has it: when the operating system refuses the move of a
    matched file and the name of the file and the text of the error can be
    printed and written to the log, the line
    [Error processing <filename>: <error>] is written to the log, the file is
    not counted, it stays in the non-person directory and the scan goes on
    with the next file; the person directory is as it was, but for what the
    failed move has left there under the name of the file.  When the name or
    the text cannot be encoded by one of the two streams, the exception
    leaves the handler and the scan stops at that file.  The move of a file
    that is in the non-person directory raises exactly when the operating
    system refuses it: a file of the same name in the person directory does
    not make it fail, the move replaces that file. *)
Theorem failed_move_is_local :
  (∀ model os_refused log out (np pd : string) (t : Q) (f : string) (rest : list string)
     (st : state) (results : list Result) (b : Box) (data : content) (r : refusal),
     accepted f = true → model (OsPath.join np f) = Returns results →
     first_hit t results = Some b →
     lookup_file f (dir0 st) = Some data →
     os_refused (OsPath.join np f) (OsPath.join pd f) = Some r →
     (encodable out f = true → encodable out (reason r) = true →
      encodable log f = true → encodable log (reason r) = true →
      ∃ st',
        process_files model os_refused log out np pd t (f :: rest) st
        = process_files model os_refused log out np pd t rest st' ∧
        log_file st'
        = log_file st +:+ "Error processing " +:+ f +:+ ": " +:+ reason r +:+ newline ∧
        trace st' = trace st ++ [Detect (OsPath.join np f); Match f (conf b);
                                 Failed f (reason r)] ∧
        moved_count st' = moved_count st ∧
        dir0 st' = dir0 st ∧
        dir1 st' = match left_behind r data with
                   | Some copy => <[f := copy]> (dir1 st)
                   | None => dir1 st
                   end) ∧
     (encodable out f && encodable out (reason r)
      && encodable log f && encodable log (reason r) = false →
      ∃ st' e',
        process_files model os_refused log out np pd t (f :: rest) st = (st', Some e') ∧
        log_file st' = log_file st ∧ moved_count st' = moved_count st ∧
        dir0 st' = dir0 st)) ∧
  (∀ os_refused (src dst f : string) (st : state) (data : content) (e : string),
     lookup_file f (dir0 st) = Some data →
     ((shutil_move os_refused src dst f st).2 = Some e ↔
      ∃ r, os_refused src dst = Some r ∧ e = reason r)) ∧
  (∀ os_refused (src dst f : string) (st : state) (data : content),
     lookup_file f (dir0 st) = Some data → os_refused src dst = None →
     ∃ st', shutil_move os_refused src dst f st = (st', None) ∧
            dir1 st' !! f = Some data ∧ lookup_file f (dir0 st') = None ∧
            ∀ g, g ≠ f → dir1 st' !! g = dir1 st !! g).
Proof.
  split; [| split].
  - intros model os_refused log out np pd t f rest st results b data r Ha Hm Hh Hl Hr.
    split.
    + intros Hof Hoe Hlf Hle. eexists. split.
      * eapply process_files_cons, process_file_refused; try done;
          rewrite encodable_error_line; by rewrite ?Hof, ?Hoe, ?Hlf, ?Hle.
      * by repeat split; simpl; rewrite <- ?app_assoc.
    + intros Henc.
      assert (Hfile : ∃ e', process_file model os_refused log out np pd t st f
                = (left_over f (left_behind r data)
                     (record (Match f (conf b)) (record (Detect (OsPath.join np f)) st)),
                   Some e')).
      { unfold process_file. rewrite Ha, Hm. cbv zeta.
        rewrite (for_results_raises os_refused log out pd t f (OsPath.join np f) results
                   (record (Detect (OsPath.join np f)) st)
                   (left_over f (left_behind r data)
                      (record (Match f (conf b)) (record (Detect (OsPath.join np f)) st)))
                   b (reason r) Hh);
          [| unfold relocate, shutil_move; cbv zeta; simpl; by rewrite Hl, Hr].
        match goal with |- ∃ e', handler _ _ _ _ ?s = _ =>
          destruct (handler_cases log out f (reason r) s) as [(_ & Ho & Hlog) | H]
        end; [| exact H].
        rewrite encodable_error_line in Ho, Hlog.
        apply andb_true_iff in Ho as [Ho1 Ho2]. apply andb_true_iff in Hlog as [Hl1 Hl2].
        by rewrite Ho1, Ho2, Hl1, Hl2 in Henc. }
      destruct Hfile as [e' He']. eexists _, e'. simpl. rewrite He'.
      by repeat split.
  - intros os_refused src dst f st data e Hl. unfold shutil_move. rewrite Hl.
    destruct (os_refused src dst) as [r|]; simpl.
    + split.
      * intros [= <-]. by exists r.
      * intros (r' & [= <-] & ->). reflexivity.
    + split; [discriminate |]. intros (r' & Hr' & _). discriminate.
  - intros os_refused src dst f st data Hl Hr. unfold shutil_move.
    rewrite Hl, Hr. eexists. split; [reflexivity |]. simpl.
    split; [apply lookup_insert_eq | split; [apply lookup_remove_eq |]].
    intros g Hne. by apply lookup_insert_ne.
Qed.

Lemma failed_move_is_local_witness :
  let model := answers [("root/0/a.jpg", Returns [ {| boxes := [person_box (1 # 2)] |} ])] in
  ∃ st',
    process_files model (refused (read_only model)) utf8 utf8 "root/0" "root/1" (2 # 5)
      ["a.jpg"] (initial [("a.jpg", "A")] ∅) = (st', None) ∧
    log_file st'
    = header +:+ "Error processing a.jpg: [Errno 13] Permission denied: 'root/0/a.jpg'"
             +:+ newline ∧
    moved_count st' = 0 ∧ dir0 st' = [("a.jpg", "A")] ∧ dir1 st' = {[ "a.jpg" := "A" ]}.
Proof.
  cbv zeta.
  destruct failed_move_is_local as [H _].
  destruct (H (answers [("root/0/a.jpg", Returns [ {| boxes := [person_box (1 # 2)] |} ])])
              (refused (read_only (answers []))) utf8 utf8
              "root/0" "root/1" (2 # 5) "a.jpg" [] (initial [("a.jpg", "A")] ∅)
              [ {| boxes := [person_box (1 # 2)] |} ] (person_box (1 # 2)) "A"
              (permission_denied "root/0/a.jpg")
              eq_refl eq_refl eq_refl eq_refl eq_refl)
    as [Hstep _].
  destruct (Hstep eq_refl eq_refl eq_refl eq_refl) as (st' & H1 & H2 & _ & H3 & H4 & H5).
  exists st'. split; [exact H1 | split; [exact H2 | split; [exact H3 | split; [exact H4 |]]]].
  exact H5.
Defined.

(** C2, as it is stated, fails: with a file of the same name already in the
    person directory the move does not fail; the file is replaced, the move
    is counted and logged, and no error is written. *)
Lemma move_onto_existing_file_replaces_it :
  let w := one_person (9 # 10) in
  let r := process_mislabeled_images w name_taken "yolo11x.pt" "root" (2 # 5) in
  (person name_taken ≫= λ d, d !! "a.jpg") = Some "old" ∧
  returned r = inr (1, "root/logs/moved_files_20250309_140500.txt") ∧
  (person (fs_after r) ≫= λ d, d !! "a.jpg") = Some "new" ∧
  non_person (fs_after r) = Some [] ∧
  events r = [Detect "root/0/a.jpg"; Match "a.jpg" (9 # 10); Moved "a.jpg" (9 # 10)] ∧
  log_text w r
  = Some ("Moved Files (Person Detected in Non-Person Directory):" +:+ newline +:+ newline
          +:+ "Moved a.jpg (confidence: 0.90)" +:+ newline).
Proof. cbv zeta. repeat split; vm_compute; reflexivity. Qed.



(** C8: after a run that moved a file from the non-person directory to the
    person directory, that file is no longer an entry of the non-person
    directory, and a second run on the file system the first one left,
    whatever its detector and its threshold, has no match, no move and no
    error for it.  With the same detector, the same refusals and the same
    threshold a second run that returns moves no more files than the first:
    it moves none, and leaves both directories as it found them; and the
    second run does return when no call of the operating system fails and
    every text can be written and printed. *)
Theorem rerun_does_not_rematch w fs (mp root : string) (t : Q) (n : nat) (path : string) :
  returned (process_mislabeled_images w fs mp root t) = inr (n, path) →
  let r1 := process_mislabeled_images w fs mp root t in
  (∀ A c, Moved A c ∈ events r1 →
     (∃ d0, non_person (fs_after r1) = Some d0 ∧ A ∉ listdir d0) ∧
     ∀ w' (mp' root' : string) (t' : Q),
       let r2 := process_mislabeled_images w' (fs_after r1) mp' root' t' in
       (∀ c', (Match A c' ∉ events r2) ∧ (Moved A c' ∉ events r2)) ∧
       (∀ e, Failed A e ∉ events r2)) ∧
  (∀ w', YOLO w' = YOLO w → refused w' = refused w →
     let r2 := process_mislabeled_images w' (fs_after r1) mp root t in
     (calm w' → ∃ n2, returned r2
                      = inr (n2, OsPath.join (OsPath.join root "logs") (log_name w'))) ∧
     (∀ n2 path2, returned r2 = inr (n2, path2) →
        path2 = OsPath.join (OsPath.join root "logs") (log_name w') ∧
        (n2 ≤ n)%nat ∧ n2 = 0 ∧
        non_person (fs_after r2) = non_person (fs_after r1) ∧
        person (fs_after r2) = person (fs_after r1))).
Proof.
  intros Hret. cbv zeta.
  destruct (run_returned _ _ _ _ _ _ _ Hret) as (model & d0 & d1 & HY & H0 & H1).
  pose proof (run_loaded _ _ _ _ _ _ _ _ _ _ HY H0 H1 Hret) as E.
  rewrite E in Hret |- *. cbv zeta in *. simpl in *. clear E.
  destruct (quiet_scan_spec w model root t d0 d1) as (_ & _ & _ & Hs).
  set (st1 := quiet_scan w model root t d0 d1) in *.
  set (fs1 := {| non_person := Some (dir0 st1); person := Some (dir1 st1);
                 logs := Some (<[log_name w := log_file st1]> (default ∅ (logs fs))) |}).
  split.
  - intros A c Hin. destruct (Hs A c Hin) as (_ & _ & Hgone).
    assert (HA : A ∉ listdir (dir0 st1)).
    { rewrite lookup_file_listdir, Hgone. by intros [x Hx]. }
    split; [by exists (dir0 st1) |].
    intros w' mp' root' t'.
    assert (Hno : ∀ ev, ev ∈ events (process_mislabeled_images w' fs1 mp' root' t') →
              match ev with
              | Match g _ | Moved g _ | Failed g _ => g ≠ A
              | Detect _ => True
              end).
    { intros ev Hev.
      destruct (run_events _ _ _ _ _ _ Hev) as (model' & d0' & d1' & HY' & H0' & H1' & evs & Ht).
      injection H0' as <-. injection H1' as <-.
      destruct (quiet_scan_spec w' model' root' t' (dir0 st1) (dir1 st1)) as (Hor & _).
      rewrite Ht, Forall_app, Forall_forall in Hor. destruct Hor as [Hor _].
      specialize (Hor ev Hev).
      destruct ev as [p | g c' | g c' | g e]; [done | | |];
        destruct Hor as (h & Hh & _ & Hev'); intros ->.
      - destruct Hev' as [<- _]. done.
      - destruct Hev' as [<- _]. done.
      - subst h. done. }
    split; [intros c'; split; intros Hbad | intros e Hbad];
      by apply Hno in Hbad.
  - intros w' HYw Hrw.
    assert (HY' : YOLO w' mp = Loaded model) by (by rewrite HYw).
    assert (Hstuck : ∀ g, g ∈ listdir (dir0 st1) →
              stuck model (refused w) (OsPath.join root "0") (OsPath.join root "1") t g).
    { intros g Hg. apply lookup_file_listdir in Hg. unfold st1, quiet_scan in Hg.
      refine (leftovers_stuck _ _ _ _ _ _ _ _ g Hg).
      intros h Hh. left. by apply lookup_file_listdir. }
    assert (Hab : absorbed model (refused w) (OsPath.join root "0") (OsPath.join root "1") t
                    (initial (dir0 st1) (dir1 st1))).
    { assert (Hab1 : absorbed model (refused w) (OsPath.join root "0")
                       (OsPath.join root "1") t st1).
      { apply (accounted_absorbed _ _ _ _ _ d0 d1).
        - apply quiet_files_accounted, accounted_initial.
        - intros g results b Hg Ha Hm Hh. unfold st1, quiet_scan.
          by apply (quiet_files_hit model (refused w) _ _ t (listdir d0) g _ results b). }
      exact Hab1. }
    assert (Hscan : dir0 (quiet_scan w' model root t (dir0 st1) (dir1 st1)) = dir0 st1 ∧
                    dir1 (quiet_scan w' model root t (dir0 st1) (dir1 st1)) = dir1 st1 ∧
                    moved_count (quiet_scan w' model root t (dir0 st1) (dir1 st1)) = 0).
    { unfold quiet_scan. rewrite Hrw.
      exact (all_stuck_nothing_moves model (refused w) (OsPath.join root "0")
               (OsPath.join root "1") t (listdir (dir0 st1))
               (initial (dir0 st1) (dir1 st1)) Hstuck Hab). }
    destruct Hscan as (Hd0 & Hd1 & Hm).
    split.
    + intros Hcalm. eexists.
      exact (run_calm w' fs1 mp root t model (dir0 st1) (dir1 st1) Hcalm HY' eq_refl eq_refl).
    + intros n2 path2 Hret2.
      pose proof (run_loaded w' fs1 mp root t n2 path2 model (dir0 st1) (dir1 st1)
                    HY' eq_refl eq_refl Hret2) as E2.
      rewrite E2 in Hret2 |- *. cbv zeta in *. simpl in *.
      injection Hret2 as Hn2 Hp2. rewrite Hd0, Hd1. rewrite Hm in Hn2.
      subst n2. repeat split; try done. lia.
Qed.

Lemma rerun_does_not_rematch_witness :
  let w := one_person (1 # 2) in
  let r1 := process_mislabeled_images w one_image "yolo11x.pt" "root" (2 # 5) in
  let r2 := process_mislabeled_images (again w) (fs_after r1) "yolo11x.pt" "root" (2 # 5) in
  returned r1 = inr (1, "root/logs/moved_files_20250309_140500.txt") ∧
  (∀ c', (Match "a.jpg" c' ∉ events r2) ∧ (Moved "a.jpg" c' ∉ events r2)) ∧
  ∃ n2, returned r2
        = inr (n2, OsPath.join (OsPath.join "root" "logs") (log_name (again w))) ∧
        (n2 ≤ 1)%nat.
Proof.
  cbv zeta.
  assert (H : returned (process_mislabeled_images (one_person (1 # 2)) one_image
                          "yolo11x.pt" "root" (2 # 5))
              = inr (1, "root/logs/moved_files_20250309_140500.txt"))
    by (vm_compute; reflexivity).
  destruct (rerun_does_not_rematch _ _ _ _ _ _ _ H) as [Ha Hb].
  split; [exact H | split].
  - refine (proj1 (proj2 (Ha "a.jpg" (1 # 2) _) (again (one_person (1 # 2)))
                     "yolo11x.pt" "root" (2 # 5))).
    vm_compute. right. right. left.
  - destruct (Hb (again (one_person (1 # 2))) eq_refl eq_refl) as [Hcalm Hle].
    destruct Hcalm as [n2 Hn2].
    { repeat split; intros x; try reflexivity; by apply encodable_all. }
    exists n2. split; [exact Hn2 |].
    by destruct (Hle n2 _ Hn2) as (_ & Hle' & _).
Defined.

(** C4, as the code has it: with the same file system and the same detector,
    when the run with the lower of two thresholds returns, a file that is
    matched with the higher threshold is matched with the lower one, and a
    file that is moved with the higher one is moved with the lower one; the
    confidence of the match may differ. *)
Theorem matched_files_monotone w fs (mp root : string) (t1 t2 : Q) (f : string)
    (n : nat) (path : string) :
  (t1 < t2)%Q →
  returned (process_mislabeled_images w fs mp root t1) = inr (n, path) →
  let r1 := process_mislabeled_images w fs mp root t1 in
  let r2 := process_mislabeled_images w fs mp root t2 in
  (f ∈ (matches (events r2)).*1 → f ∈ (matches (events r1)).*1) ∧
  ((∃ c, Moved f c ∈ events r2) → ∃ c, Moved f c ∈ events r1).
Proof.
  intros Hlt Hret. cbv zeta.
  destruct (run_returned _ _ _ _ _ _ _ Hret) as (model & d0 & d1 & HY & H0 & H1).
  pose proof (run_loaded _ _ _ _ _ _ _ _ _ _ HY H0 H1 Hret) as E.
  rewrite E. cbv zeta. simpl. clear E.
  assert (Hkey : ∀ c, Match f c ∈ events (process_mislabeled_images w fs mp root t2) ∨
                      Moved f c ∈ events (process_mislabeled_images w fs mp root t2) →
            (∀ ev, ev ∈ events (process_mislabeled_images w fs mp root t2) →
                   ev ∈ trace (quiet_scan w model root t2 d0 d1)) ∧
            ∃ results b,
              f ∈ listdir d0 ∧ accepted f = true ∧
              model (OsPath.join (OsPath.join root "0") f) = Returns results ∧
              first_hit t1 results = Some b).
  { intros c Hin.
    assert (Hex : ∃ ev, ev ∈ events (process_mislabeled_images w fs mp root t2))
      by (destruct Hin; eauto).
    destruct Hex as [ev Hev].
    destruct (run_events _ _ _ _ _ _ Hev)
      as (model' & d0' & d1' & HY' & H0' & H1' & evs & Ht).
    assert (model' = model) as -> by congruence.
    assert (d0' = d0) as -> by congruence.
    assert (d1' = d1) as -> by congruence.
    assert (Hsub : ∀ ev', ev' ∈ events (process_mislabeled_images w fs mp root t2) →
                          ev' ∈ trace (quiet_scan w model root t2 d0 d1)).
    { intros ev' Hev'. rewrite Ht. apply elem_of_app. by left. }
    split; [exact Hsub |].
    destruct (quiet_scan_spec w model root t2 d0 d1) as (Hor & _).
    rewrite Forall_forall in Hor.
    assert (Ho : origin model (OsPath.join root "0") t2 (listdir d0) (Match f c) ∨
                 origin model (OsPath.join root "0") t2 (listdir d0) (Moved f c))
      by (destruct Hin as [Hin | Hin]; [left | right]; by apply Hor, Hsub).
    apply origin_match in Ho
      as (Hf & Ha & results & r & b & Hm & Hr & Hb & Hcls & Hconf & _).
    destruct (first_hit_ex t1 results) as [b1 Hb1].
    { exists r, b. repeat split; try done. apply qualifies_spec.
      split; [done |]. by apply Qlt_trans with t2. }
    by exists results, b1. }
  split.
  - intros Hin. apply list_elem_of_fmap in Hin as ([g c] & -> & Hin). simpl.
    apply elem_of_matches in Hin.
    destruct (Hkey c (or_introl Hin)) as (_ & results & b & Hf & Ha & Hm & Hh).
    apply list_elem_of_fmap. exists (g, conf b). split; [done |].
    apply elem_of_matches. unfold quiet_scan.
    by apply (quiet_files_hit model (refused w) _ _ t1 (listdir d0) g _ results b).
  - intros [c Hin].
    destruct (Hkey c (or_intror Hin)) as (Hsub & results & b & Hf & Ha & Hm & Hh).
    clear Hkey. apply Hsub in Hin.
    exists (conf b). unfold quiet_scan in *.
    apply (quiet_files_hit model (refused w) _ _ t1 (listdir d0) f _ results b);
      try done.
    + simpl. by apply lookup_file_listdir.
    + assert (Hal : allowed (refused w) (OsPath.join root "0") (OsPath.join root "1")
                      (initial d0 d1)) by (intros g c' Hbad; inversion Hbad).
      exact (quiet_files_allowed model (refused w) _ _ t2 (listdir d0)
               (initial d0 d1) Hal f c Hin).
Qed.

Lemma matched_files_monotone_witness :
  let r1 := process_mislabeled_images two_boxes one_image "yolo11x.pt" "root" (2 # 5) in
  let r2 := process_mislabeled_images two_boxes one_image "yolo11x.pt" "root" (6 # 10) in
  ((2 # 5) < (6 # 10))%Q ∧
  returned r1 = inr (1, "root/logs/moved_files_20250309_140500.txt") ∧
  "a.jpg" ∈ (matches (events r1)).*1 ∧ ∃ c, Moved "a.jpg" c ∈ events r1.
Proof.
  cbv zeta.
  assert (Hlt : ((2 # 5) < (6 # 10))%Q) by reflexivity.
  assert (Hret : returned (process_mislabeled_images two_boxes one_image
                             "yolo11x.pt" "root" (2 # 5))
                 = inr (1, "root/logs/moved_files_20250309_140500.txt"))
    by (vm_compute; reflexivity).
  destruct (matched_files_monotone two_boxes one_image "yolo11x.pt" "root"
              (2 # 5) (6 # 10) "a.jpg" _ _ Hlt Hret) as [H1 H2].
  split; [exact Hlt | split; [exact Hret | split]].
  - apply H1. vm_compute. left.
  - apply H2. exists (9 # 10). vm_compute. right. right. left.
Defined.

(** C4, as it is stated, fails: a match is a file name with a confidence, and
    the match of a file is its first box above the threshold.  With boxes at
    0.5 and 0.9, in this order, the match is (a.jpg, 0.9) with threshold 0.6
    and (a.jpg, 0.5) with threshold 0.4: the first set is not included in the
    second. *)
Lemma matches_not_monotone :
  let r1 := process_mislabeled_images two_boxes one_image "yolo11x.pt" "root" (2 # 5) in
  let r2 := process_mislabeled_images two_boxes one_image "yolo11x.pt" "root" (6 # 10) in
  ((2 # 5) < (6 # 10))%Q ∧
  matches (events r1) = [("a.jpg", 1 # 2)] ∧
  matches (events r2) = [("a.jpg", 9 # 10)] ∧
  ¬ (∀ m, m ∈ matches (events r2) → m ∈ matches (events r1)).
Proof.
  cbv zeta.
  assert (E1 : matches (events (process_mislabeled_images two_boxes one_image
                                  "yolo11x.pt" "root" (2 # 5)))
               = [("a.jpg", 1 # 2)]) by (vm_compute; reflexivity).
  assert (E2 : matches (events (process_mislabeled_images two_boxes one_image
                                  "yolo11x.pt" "root" (6 # 10)))
               = [("a.jpg", 9 # 10)]) by (vm_compute; reflexivity).
  split; [reflexivity | split; [exact E1 | split; [exact E2 |]]].
  rewrite E1, E2. intros H.
  specialize (H ("a.jpg", 9 # 10) ltac:(left)).
  apply list_elem_of_singleton in H. discriminate.
Qed.

(** C1, at an input where the code departs from it: the detector returns two
    results for one image, each with a box of a person.  The file is moved on
    the first box; [break] leaves the loop over the boxes of the first result
    only, the box of the second result is tested and matches, the move is
    tried again and raises, the file being gone, and the log has a line of an
    error for a file that was moved.  With the two boxes in one result the
    second box is not looked at. *)
Lemma second_result_is_evaluated_after_the_move :
  let r := process_mislabeled_images two_results one_image "yolo11x.pt" "root" (2 # 5) in
  let r' := process_mislabeled_images one_result one_image "yolo11x.pt" "root" (2 # 5) in
  events r = [Detect "root/0/a.jpg";
              Match "a.jpg" (9 # 10); Moved "a.jpg" (9 # 10);
              Match "a.jpg" (8 # 10);
              Failed "a.jpg" "[Errno 2] No such file or directory: 'root/0/a.jpg'"] ∧
  matches (events r) = [("a.jpg", 9 # 10); ("a.jpg", 8 # 10)] ∧
  returned r = inr (1, "root/logs/moved_files_20250309_140500.txt") ∧
  log_text two_results r
  = Some (header +:+ moved_line "a.jpg" (9 # 10)
            +:+ error_line "a.jpg" "[Errno 2] No such file or directory: 'root/0/a.jpg'") ∧
  events r' = [Detect "root/0/a.jpg"; Match "a.jpg" (9 # 10); Moved "a.jpg" (9 # 10)].
Proof. cbv zeta. repeat split; vm_compute; reflexivity. Qed.


(** * More on [process_mislabeled_images] *)

(** X1: which files a run moves.  A file has the line of a move, with
    confidence [c], exactly when it is an accepted entry of the non-person
    directory, the detector answers for it, [c] is the confidence of the first
    box of the answer that passes the test, and the move is not refused. *)
Theorem moved_exactly w fs (mp root : string) (t : Q) (n : nat) (path : string) d0 :
  returned (process_mislabeled_images w fs mp root t) = inr (n, path) →
  non_person fs = Some d0 →
  ∀ f c,
    Moved f c ∈ events (process_mislabeled_images w fs mp root t) ↔
    f ∈ listdir d0 ∧ accepted f = true ∧
    refused w (OsPath.join (OsPath.join root "0") f)
              (OsPath.join (OsPath.join root "1") f) = None ∧
    ∃ model results b,
      YOLO w mp = Loaded model ∧
      model (OsPath.join (OsPath.join root "0") f) = Returns results ∧
      first_hit t results = Some b ∧ c = conf b.
Proof.
  intros Hret H0 f c.
  pose proof (moved_at_most_once w fs mp root t f) as Honce.
  destruct (run_returned _ _ _ _ _ _ _ Hret) as (model & d0' & d1 & HY & H0' & H1).
  assert (d0' = d0) as -> by congruence.
  pose proof (run_loaded _ _ _ _ _ _ _ _ _ _ HY H0 H1 Hret) as E.
  rewrite E in Honce |- *. cbv zeta in *. simpl in *. clear E.
  unfold quiet_scan in *.
  destruct (quiet_scan_spec w model root t d0 d1) as (Hor & _). unfold quiet_scan in Hor.
  rewrite Forall_forall in Hor.
  assert (Hal : allowed (refused w) (OsPath.join root "0") (OsPath.join root "1")
                  (initial d0 d1)) by (intros g c' Hbad; inversion Hbad).
  pose proof (quiet_files_allowed model (refused w) _ _ t (listdir d0)
                (initial d0 d1) Hal) as Hall.
  split.
  - intros Hin.
    destruct (origin_match _ _ _ _ _ _ (or_intror (Hor _ Hin)))
      as (Hf & Ha & results & r & b & Hm & Hr & Hb & Hcls & Hlt & _).
    destruct (first_hit_ex t results) as [b1 Hb1].
    { exists r, b. repeat split; try done. by apply qualifies_spec. }
    pose proof (Hall f c Hin) as Href.
    split; [done | split; [done | split; [done |]]].
    exists model, results, b1. repeat split; try done.
    destruct (quiet_files_hit model (refused w) (OsPath.join root "0")
                (OsPath.join root "1") t (listdir d0) f (initial d0 d1)
                results b1 Hf Ha Hm Hb1) as [_ Hmv].
    apply (moves_of_unique f _ _ _ Honce Hin). apply Hmv; [| done].
    simpl. by apply lookup_file_listdir.
  - intros (Hf & Ha & Href & model' & results & b & HY' & Hm & Hh & ->).
    assert (model' = model) as -> by congruence.
    apply (quiet_files_hit model (refused w) (OsPath.join root "0")
             (OsPath.join root "1") t (listdir d0) f (initial d0 d1) results b);
      try done.
    simpl. by apply lookup_file_listdir.
Qed.

Lemma moved_exactly_witness :
  Moved "a.jpg" (1 # 2)
  ∈ events (process_mislabeled_images (one_person (1 # 2)) one_image
              "yolo11x.pt" "root" (2 # 5)).
Proof.
  apply (moved_exactly (one_person (1 # 2)) one_image "yolo11x.pt" "root" (2 # 5) 1
           "root/logs/moved_files_20250309_140500.txt" [("a.jpg", "A")]
           ltac:(vm_compute; reflexivity) eq_refl "a.jpg" (1 # 2)).
  split; [left | split; [reflexivity | split; [reflexivity |]]].
  eexists _, _, (person_box (1 # 2)). repeat split; reflexivity.
Defined.

(** X2: where the files are after a run that returns.  The non-person
    directory holds its former entries, in their order, without those that
    were moved.  The person directory holds, under each name: the moved file
    of that name, with the content it had, if there is one; what it held
    before, if no file of that name was matched; and for a file that was
    matched and not moved, whose move the operating system refused, what the
    failed move has left there, if it has left something, and what the
    directory held before otherwise.  No entry of the non-person directory is
    lost. *)
Theorem directories_after_a_run w fs (mp root : string) (t : Q) (n : nat)
    (path : string) d0 d1 :
  returned (process_mislabeled_images w fs mp root t) = inr (n, path) →
  non_person fs = Some d0 → person fs = Some d1 →
  let r := process_mislabeled_images w fs mp root t in
  let np := OsPath.join root "0" in
  let pd := OsPath.join root "1" in
  non_person (fs_after r) = Some (filter (λ e, moves_of e.1 (events r) = 0) d0) ∧
  (∃ d1', person (fs_after r) = Some d1' ∧
          (∀ f, d1' !! f = person_entry (refused w) np pd d0 d1 (events r) f) ∧
          (∀ f c, Moved f c ∈ events r → d1' !! f = lookup_file f d0) ∧
          (∀ f, (∀ c, Match f c ∉ events r) → d1' !! f = d1 !! f) ∧
          (∀ f c data x,
             Match f c ∈ events r → (∀ c', Moved f c' ∉ events r) →
             lookup_file f d0 = Some data →
             refused w (OsPath.join np f) (OsPath.join pd f) = Some x →
             d1' !! f = match left_behind x data with
                        | Some copy => Some copy
                        | None => d1 !! f
                        end)) ∧
  (∀ f, moves_of f (events r) ≠ 0 ↔ ∃ c, Moved f c ∈ events r) ∧
  (∀ f data, lookup_file f d0 = Some data →
     (∃ d0', non_person (fs_after r) = Some d0' ∧ lookup_file f d0' = Some data) ∨
     (∃ d1', person (fs_after r) = Some d1' ∧ d1' !! f = Some data)).
Proof.
  intros Hret H0 H1. cbv zeta.
  destruct (run_scan _ _ _ _ _ _ _ _ _ Hret H0 H1) as (model & HY & He & Hn & Hp & _).
  rewrite He, Hn, Hp.
  destruct (quiet_files_accounted d0 d1 model (refused w) (OsPath.join root "0")
              (OsPath.join root "1") t (listdir d0) (initial d0 d1)
              (accounted_initial _ _ _ d0 d1)) as [Hd0 Hd1].
  fold (quiet_scan w model root t d0 d1) in Hd0, Hd1.
  set (evs := trace (quiet_scan w model root t d0 d1)) in *.
  assert (Hmatched : ∀ f, matched f evs = true ↔ ∃ c, Match f c ∈ evs).
  { intros f. unfold matched. rewrite existsb_exists. split.
    - intros (ev & Hin & Hev). destruct ev as [p | g c | g c | g e]; try discriminate.
      apply String.eqb_eq in Hev as ->. exists c. by apply list_elem_of_In.
    - intros [c Hin]. exists (Match f c). split; [by apply list_elem_of_In |].
      simpl. apply String.eqb_refl. }
  split; [by rewrite Hd0 at 1 |].
  split.
  { eexists. split; [reflexivity |]. split; [exact Hd1 | split; [| split]].
    - intros f c Hin. rewrite Hd1. unfold person_entry.
      rewrite decide_False; [done |]. apply moves_of_pos. by exists c.
    - intros f Hno. rewrite Hd1. unfold person_entry.
      destruct (decide (moves_of f evs = 0)) as [Hz | Hz].
      + destruct (matched f evs) eqn:Em; [| done].
        apply Hmatched in Em as [c Hc]. by destruct (Hno c).
      + apply moves_of_pos in Hz as [c Hin].
        destruct (quiet_scan_spec w model root t d0 d1) as (_ & _ & _ & Hs).
        destruct (Hs f c Hin) as (Hm & _). by destruct (Hno c).
    - intros f c data x Hm Hno Hl Hx. rewrite Hd1. unfold person_entry.
      rewrite decide_True.
      + assert (Em : matched f evs = true) by (apply Hmatched; by exists c).
        rewrite Em, Hl. simpl. unfold residue. rewrite Hx. simpl.
        by destruct (left_behind x data).
      + destruct (decide (moves_of f evs = 0)) as [Hz | Hz]; [done |].
        apply moves_of_pos in Hz as [c' Hin]. by destruct (Hno c'). }
  split; [intros f; apply moves_of_pos |].
  intros f data Hl.
  destruct (decide (moves_of f evs = 0)) as [Hz | Hz].
  - left. eexists. split; [reflexivity |]. rewrite Hd0.
    pose proof (lookup_file_filter (λ x, moves_of x evs = 0) f d0) as Hlf.
    simpl in Hlf. rewrite Hlf. by rewrite decide_True.
  - right. eexists. split; [reflexivity |]. rewrite Hd1. unfold person_entry.
    by rewrite decide_False.
Qed.

Lemma directories_after_a_run_witness :
  let w := read_only (answers [("root/0/a.jpg",
                                Returns [ {| boxes := [person_box (1 # 2)] |} ])]) in
  let r := process_mislabeled_images w one_image "yolo11x.pt" "root" (2 # 5) in
  returned r = inr (0, "root/logs/moved_files_20250309_140500.txt") ∧
  non_person (fs_after r)
  = Some (filter (λ e, moves_of e.1 (events r) = 0) [("a.jpg", "A")]) ∧
  ∃ d1', person (fs_after r) = Some d1' ∧ d1' !! "a.jpg" = Some "A".
Proof.
  cbv zeta.
  assert (Hret : returned (process_mislabeled_images
                   (read_only (answers [("root/0/a.jpg",
                                         Returns [ {| boxes := [person_box (1 # 2)] |} ])]))
                   one_image "yolo11x.pt" "root" (2 # 5))
                 = inr (0, "root/logs/moved_files_20250309_140500.txt"))
    by (vm_compute; reflexivity).
  destruct (directories_after_a_run _ _ _ _ _ _ _ [("a.jpg", "A")] ∅ Hret eq_refl eq_refl)
    as (Hd0 & (d1' & Hp & _ & _ & _ & Hleft) & _).
  split; [exact Hret | split; [exact Hd0 |]].
  exists d1'. split; [exact Hp |].
  etransitivity; [| reflexivity].
  apply (Hleft "a.jpg" (1 # 2) "A" (permission_denied "root/0/a.jpg"));
    [| | reflexivity | reflexivity].
  - vm_compute. right. left.
  - intros c' Hin. vm_compute in Hin.
    repeat (apply elem_of_cons in Hin as [Hin | Hin]; [discriminate |]).
    inversion Hin.
Defined.

(** X3: when no two entries of the non-person directory have the same name,
    the count a run returns is the number of entries that left that
    directory, and it is at most the number of entries with an accepted
    name. *)
Theorem moved_count_is_files_gone w fs (mp root : string) (t : Q) (n : nat)
    (path : string) d0 d1 :
  returned (process_mislabeled_images w fs mp root t) = inr (n, path) →
  non_person fs = Some d0 → person fs = Some d1 →
  NoDup (listdir d0) →
  ∃ d0', non_person (fs_after (process_mislabeled_images w fs mp root t)) = Some d0' ∧
         NoDup (listdir d0') ∧
         length d0' + n = length d0 ∧
         (n ≤ length (filter (λ e, accepted e.1 = true) d0))%nat.
Proof.
  intros Hret H0 H1 Hnd.
  destruct (run_scan _ _ _ _ _ _ _ _ _ Hret H0 H1) as (model & HY & He & Hn & Hp & Hc).
  cbv zeta in *. rewrite Hn. eexists. split; [reflexivity |].
  destruct (quiet_files_balanced model (refused w) (OsPath.join root "0")
              (OsPath.join root "1") t (listdir d0) (initial d0 d1) Hnd) as [Hnd' Hlen].
  fold (quiet_scan w model root t d0 d1) in Hnd', Hlen. simpl in Hlen.
  split; [done | split; [lia |]].
  destruct (quiet_files_accounted d0 d1 model (refused w) (OsPath.join root "0")
              (OsPath.join root "1") t (listdir d0) (initial d0 d1)
              (accounted_initial _ _ _ d0 d1)) as [Hd0 _].
  fold (quiet_scan w model root t d0 d1) in Hd0.
  destruct (quiet_scan_spec w model root t d0 d1) as (Hor & _).
  rewrite Forall_forall in Hor.
  pose proof (filter_length_split (λ e : string * content, accepted e.1 = true) d0) as Hsplit.
  assert (Hle : (length (filter (λ e : string * content, ¬ accepted e.1 = true) d0)
                 ≤ length (dir0 (quiet_scan w model root t d0 d1)))%nat).
  { rewrite Hd0. apply filter_length_le. intros e _ Hna.
    destruct (decide (moves_of e.1 (trace (quiet_scan w model root t d0 d1)) = 0))
      as [Hz | Hz]; [done |].
    apply moves_of_pos in Hz as [c Hin].
    destruct (origin_match _ _ _ _ _ _ (or_intror (Hor _ Hin))) as (_ & Ha & _).
    done. }
  lia.
Qed.

Lemma moved_count_is_files_gone_witness :
  ∃ d0', non_person (fs_after (process_mislabeled_images fails_then_finds two_images
                                 "yolo11x.pt" "root" (2 # 5))) = Some d0' ∧
         NoDup (listdir d0') ∧ length d0' + 1 = 2 ∧
         (1 ≤ length (filter (λ e, accepted e.1 = true)
                        [("a.jpg", "A"); ("b.jpg", "B")]))%nat.
Proof.
  apply (moved_count_is_files_gone fails_then_finds two_images "yolo11x.pt" "root"
           (2 # 5) 1 "root/logs/moved_files_20250309_140500.txt"
           [("a.jpg", "A"); ("b.jpg", "B")] ∅
           ltac:(vm_compute; reflexivity) eq_refl eq_refl).
  unfold listdir. simpl. apply NoDup_cons. split.
  - intros H. apply list_elem_of_singleton in H. discriminate.
  - apply NoDup_singleton.
Defined.

(** X4: when [process_mislabeled_images] returns.  A run that returns has
    loaded the model, found both class directories, created the logs
    directory, opened the log and listed the non-person directory, and its
    path is the one of the log.  When no call of the operating system fails
    and every text can be written and printed, the function returns exactly
    when the model loads and both class directories exist.  When the model
    does not load or a class directory is missing it raises, with the file
    system as it was and nothing done: [FileNotFoundError] or [RuntimeError]
    for the model according to the failure of the loader, whatever the
    directories.  When the logs directory cannot be created it raises with
    the file system as it was; when the non-person directory cannot be
    listed it raises after it has created the log, which has the header. *)
Theorem returns_when_loaded_and_laid_out w fs (mp root : string) (t : Q) :
  let r := process_mislabeled_images w fs mp root t in
  let log_file_path := OsPath.join (OsPath.join root "logs") (log_name w) in
  (∀ n path, returned r = inr (n, path) →
     (∃ model, YOLO w mp = Loaded model) ∧
     is_Some (non_person fs) ∧ is_Some (person fs) ∧
     os_error w (Makedirs (OsPath.join root "logs")) = None ∧
     os_error w (Open log_file_path) = None ∧
     os_error w (Listdir (OsPath.join root "0")) = None ∧
     path = log_file_path) ∧
  (calm w →
   ((∃ n path, returned r = inr (n, path)) ↔
    (∃ model, YOLO w mp = Loaded model) ∧
    is_Some (non_person fs) ∧ is_Some (person fs))) ∧
  ((∀ model, YOLO w mp ≠ Loaded model) ∨ non_person fs = None ∨ person fs = None →
   (∃ e, returned r = inl e) ∧ fs_after r = fs ∧ events r = []) ∧
  (∀ e, YOLO w mp = NotFound e →
        returned r = inl (FileNotFoundError
                            ("Model file not found at " +:+ mp +:+ ": " +:+ e))) ∧
  (∀ e, YOLO w mp = Unloadable e →
        returned r = inl (RuntimeError ("Failed to load YOLO model: " +:+ e))) ∧
  (∀ model d0 d1 e,
     YOLO w mp = Loaded model → non_person fs = Some d0 → person fs = Some d1 →
     os_error w (Makedirs (OsPath.join root "logs")) = Some e →
     returned r = inl (Exception e) ∧ fs_after r = fs ∧ events r = []) ∧
  (∀ model d0 d1 e,
     YOLO w mp = Loaded model → non_person fs = Some d0 → person fs = Some d1 →
     os_error w (Makedirs (OsPath.join root "logs")) = None →
     os_error w (Open log_file_path) = None →
     os_error w (Listdir (OsPath.join root "0")) = Some e →
     returned r = inl (Exception e) ∧ events r = [] ∧
     non_person (fs_after r) = Some d0 ∧ person (fs_after r) = Some d1 ∧
     log_text w r
     = Some ("Moved Files (Person Detected in Non-Person Directory):" +:+ newline +:+ newline)).
Proof.
  cbv zeta.
  split; [| split; [| split; [| split; [| split; [| split]]]]].
  - intros n path Hret.
    destruct (run_inversion _ _ _ _ _ _ _ Hret)
      as (model & d0 & d1 & HY & H0 & H1 & Hmk & Hop & Hls & _ & _ & E).
    rewrite E in Hret. cbv zeta in Hret. simpl in Hret. injection Hret as _ <-.
    rewrite H0, H1. repeat split; try done; by eexists.
  - intros Hcalm. split.
    + intros (n & path & Hret).
      destruct (run_returned _ _ _ _ _ _ _ Hret) as (model & d0 & d1 & HY & H0 & H1).
      rewrite H0, H1. repeat split; by eexists.
    + intros ([model HY] & [d0 H0] & [d1 H1]).
      eexists _, _. by apply (run_calm w fs mp root t model d0 d1).
  - intros H. unfold process_mislabeled_images.
    destruct (YOLO w mp) as [model | e | e] eqn:HY; simpl.
    + destruct H as [H | H]; [by destruct (H model) |].
      destruct (non_person fs) as [d0|]; simpl; [| repeat split; by eexists].
      destruct (person fs) as [d1|]; simpl; [| repeat split; by eexists].
      destruct H; discriminate.
    + repeat split; by eexists.
    + repeat split; by eexists.
  - intros e HY. unfold process_mislabeled_images. by rewrite HY.
  - intros e HY. unfold process_mislabeled_images. by rewrite HY.
  - intros model d0 d1 e HY H0 H1 Hmk. unfold process_mislabeled_images.
    rewrite HY, H0, H1. cbv zeta. by rewrite Hmk.
  - intros model d0 d1 e HY H0 H1 Hmk Hop Hls. unfold process_mislabeled_images.
    rewrite HY, H0, H1. cbv zeta. rewrite Hmk, print_starting, Hop.
    unfold scan. cbv zeta. rewrite write_header, Hls. simpl.
    repeat split. unfold log_text. simpl. by rewrite lookup_insert_eq.
Qed.

Lemma returns_when_loaded_and_laid_out_witness :
  ∃ n path, returned (process_mislabeled_images (one_person (1 # 2)) one_image
                        "yolo11x.pt" "root" (2 # 5)) = inr (n, path).
Proof.
  destruct (returns_when_loaded_and_laid_out (one_person (1 # 2)) one_image
              "yolo11x.pt" "root" (2 # 5)) as (_ & Hcalm & _).
  apply Hcalm.
  - repeat split; intros x; try reflexivity; by apply encodable_all.
  - split; [by eexists | split; by eexists].
Defined.
(** * Properties of [visualize_mislabeled_images] *)

Lemma preview_boxes_find (t : Q) (p f : string) (bs : list Box) (m : list entry) :
  preview_boxes t p f bs m =
  m ++ match find (qualifies t) bs with
       | Some b => [(p, f, conf b)]
       | None => []
       end.
Proof.
  induction bs as [|b bs IH]; simpl; [by rewrite app_nil_r |].
  by destruct (qualifies t b).
Qed.

Lemma preview_results_sound (t : Q) (p f : string) (results : list Result)
    (m : list entry) (e : entry) :
  e ∈ preview_results t p f results m →
  e ∈ m ∨ ∃ r b, r ∈ results ∧ b ∈ boxes r ∧ qualifies t b = true ∧ e = (p, f, conf b).
Proof.
  revert m. induction results as [|r results IH]; intros m; simpl; [by left |].
  intros Hin. destruct (IH _ Hin) as [Hm | (r' & b & Hr & Hb & Hq & ->)].
  - rewrite preview_boxes_find in Hm. apply elem_of_app in Hm as [Hm | Hm]; [by left |].
    destruct (find (qualifies t) (boxes r)) as [b|] eqn:E; [| inversion Hm].
    apply list_elem_of_singleton in Hm as ->. apply find_some in E as [Hb Hq].
    right. exists r, b. split; [left |]. by rewrite list_elem_of_In.
  - right. exists r', b. split; [by right | done].
Qed.

Lemma quiet_preview_sound model (np : string) (t : Q) (max_images : Z)
    (listing : list string) (m : list entry) (e : entry) :
  e ∈ quiet_preview model np t max_images listing m →
  e ∈ m ∨ ∃ f results r b,
            f ∈ listing ∧ accepted f = true ∧
            model (OsPath.join np f) = Returns results ∧
            r ∈ results ∧ b ∈ boxes r ∧ qualifies t b = true ∧
            e = (OsPath.join np f, f, conf b).
Proof.
  revert m. induction listing as [|f listing IH]; intros m; simpl; [by left |].
  assert (Hrest : e ∈ quiet_preview model np t max_images listing m →
            e ∈ m ∨ ∃ f0 results r b,
              f0 ∈ f :: listing ∧ accepted f0 = true ∧
              model (OsPath.join np f0) = Returns results ∧
              r ∈ results ∧ b ∈ boxes r ∧ qualifies t b = true ∧
              e = (OsPath.join np f0, f0, conf b)).
  { intros Hin. destruct (IH _ Hin) as [Hm | (f0 & results & r & b & Hf & H)];
      [by left |].
    right. exists f0, results, r, b. split; [by right | done]. }
  destruct (accepted f) eqn:Ha; [| done].
  destruct (model (OsPath.join np f)) as [results | err] eqn:Em; [| done].
  assert (Hhere : e ∈ preview_results t (OsPath.join np f) f results m →
            e ∈ m ∨ ∃ f0 results0 r b,
              f0 ∈ f :: listing ∧ accepted f0 = true ∧
              model (OsPath.join np f0) = Returns results0 ∧
              r ∈ results0 ∧ b ∈ boxes r ∧ qualifies t b = true ∧
              e = (OsPath.join np f0, f0, conf b)).
  { intros Hin. destruct (preview_results_sound _ _ _ _ _ _ Hin)
      as [Hm | (r & b & Hr & Hb & Hq & ->)]; [by left |].
    right. exists f, results, r, b. split; [left | done]. }
  destruct (max_images <=? _)%Z; [done |].
  intros Hin. destruct (IH _ Hin) as [Hm | (f0 & results0 & r & b & Hf & H)].
  - by apply Hhere.
  - right. exists f0, results0, r, b. split; [by right | done].
Qed.

Lemma preview_results_single (t : Q) (p f : string) (results : list Result)
    (m : list entry) :
  (length results ≤ 1)%nat →
  preview_results t p f results m =
  m ++ match first_hit t results with
       | Some b => [(p, f, conf b)]
       | None => []
       end.
Proof.
  destruct results as [|r [|r' results]]; simpl; intros H; [| | lia].
  - by rewrite app_nil_r.
  - rewrite preview_boxes_find. by destruct (find (qualifies t) (boxes r)).
Qed.

(** The entries of the files of a listing, each with its match, in order. *)
Lemma quiet_preview_take model (np : string) (t : Q) (max_images : Z)
    (listing : list string) (m : list entry) :
  single_result model → (Z.of_nat (length m) < max_images)%Z →
  quiet_preview model np t max_images listing m =
  m ++ take (Z.to_nat max_images - length m)
         (flat_map (λ f, (λ '(g, c), (OsPath.join np g, g, c)) <$> hit_of model np t f)
            listing).
Proof.
  intros Hs. revert m. induction listing as [|f listing IH]; intros m Hm; simpl.
  - by rewrite take_nil, app_nil_r.
  - unfold hit_of at 1. destruct (accepted f); [| by apply IH].
    destruct (model (OsPath.join np f)) as [results | err] eqn:Em; [| by apply IH].
    rewrite preview_results_single by (by eapply Hs).
    destruct (first_hit t results) as [b|]; simpl.
    + rewrite length_app. simpl.
      destruct (Z.leb_spec max_images (Z.of_nat (length m + 1))) as [Hle | Hgt].
      * replace (Z.to_nat max_images - length m) with 1 by lia. by simpl.
      * rewrite IH by (rewrite length_app; simpl; lia).
        rewrite length_app. simpl. rewrite <- app_assoc. simpl.
        replace (Z.to_nat max_images - length m)
          with (S (Z.to_nat max_images - (length m + 1))) by lia.
        by simpl.
    + rewrite app_nil_r.
      destruct (Z.leb_spec max_images (Z.of_nat (length m))) as [Hle | Hgt]; [lia |].
      by apply IH.
Qed.

Lemma matches_app (a b : list event) : matches (a ++ b) = matches a ++ matches b.
Proof.
  induction a as [|ev a IH]; simpl; [done |].
  destruct ev; simpl; by rewrite ?IH.
Qed.

Lemma quiet_file_matches model os_refused (np pd : string) (t : Q) (f : string)
    (st : state) :
  single_result model →
  matches (trace (quiet_file model os_refused np pd t st f))
  = matches (trace st) ++ hit_of model np t f.
Proof.
  intros Hs. unfold quiet_file, hit_of.
  destruct (accepted f); [| by rewrite app_nil_r]. cbv zeta.
  destruct (model (OsPath.join np f)) as [results | err] eqn:Em.
  - pose proof (Hs _ _ Em) as Hlen.
    destruct results as [|r [|r' results]]; simpl in Hlen; [| | lia]; simpl.
    + by rewrite matches_app.
    + rewrite quiet_boxes_find.
      destruct (find (qualifies t) (boxes r)) as [b|]; simpl.
      * unfold quiet_relocate, shutil_move. cbv zeta. simpl.
        destruct (lookup_file f (dir0 st));
          [destruct (os_refused _ _) |]; simpl;
          rewrite !matches_app; simpl; by rewrite ?app_nil_r, <- ?app_assoc.
      * by rewrite matches_app.
  - simpl. rewrite !matches_app. simpl. by rewrite !app_nil_r.
Qed.

Lemma quiet_files_matches model os_refused (np pd : string) (t : Q)
    (listing : list string) (st : state) :
  single_result model →
  matches (trace (quiet_files model os_refused np pd t listing st))
  = matches (trace st) ++ flat_map (hit_of model np t) listing.
Proof.
  intros Hs. revert st. induction listing as [|f listing IH]; intros st; simpl.
  - by rewrite app_nil_r.
  - rewrite IH, quiet_file_matches by done. by rewrite <- app_assoc.
Qed.

Lemma quiet_preview_bound model (np : string) (t : Q) (max_images : Z)
    (listing : list string) (m : list entry) :
  single_result model →
  (Z.of_nat (length m) < Z.max max_images 1)%Z →
  (Z.of_nat (length (quiet_preview model np t max_images listing m))
   ≤ Z.max max_images 1)%Z.
Proof.
  intros Hs. revert m. induction listing as [|f listing IH]; intros m Hm; simpl;
    [lia |].
  destruct (accepted f); [| by apply IH].
  destruct (model (OsPath.join np f)) as [results | err] eqn:Em; [| by apply IH].
  rewrite preview_results_single by (by eapply Hs).
  assert (Hlen : (length (m ++ match first_hit t results with
                               | Some b => [(OsPath.join np f, f, conf b)]
                               | None => []
                               end) ≤ length m + 1)%nat)
    by (rewrite length_app; destruct (first_hit t results); simpl; lia).
  destruct (Z.leb_spec max_images
              (Z.of_nat (length (m ++ match first_hit t results with
                                      | Some b => [(OsPath.join np f, f, conf b)]
                                      | None => []
                                      end)))) as [Hle | Hgt]; [lia |].
  apply IH. lia.
Qed.

(** ** The preview and the preview when no [print] raises *)

Lemma preview_files_sim model out (np : string) (t : Q) (max_images : Z)
    (listing : list string) (m m' : list entry) :
  preview_files model out np t max_images listing m = (m', None) →
  m' = quiet_preview model np t max_images listing m.
Proof.
  revert m. induction listing as [|f listing IH]; intros m; simpl.
  - by intros [= <-].
  - destruct (accepted f); [| apply IH].
    destruct (model (OsPath.join np f)) as [results | e].
    + destruct (max_images <=? _)%Z; [by intros [= <-] | apply IH].
    + destruct (print out (error_notice f e)); [discriminate | apply IH].
Qed.

Lemma preview_files_calm model out (np : string) (t : Q) (max_images : Z)
    (listing : list string) (m : list entry) :
  (∀ text, encodable out text = true) →
  preview_files model out np t max_images listing m
  = (quiet_preview model np t max_images listing m, None).
Proof.
  intros Hout. revert m. induction listing as [|f listing IH]; intros m; simpl; [done |].
  destruct (accepted f); [| apply IH].
  destruct (model (OsPath.join np f)) as [results | e].
  - destruct (max_images <=? _)%Z; [done | apply IH].
  - unfold print, refuses. rewrite Hout. apply IH.
Qed.

Lemma display_sim image_open out (i : nat) (l : list entry) (ds : list drawing) :
  display image_open out i l = (ds, None) → ds = items image_open i l.
Proof.
  revert i ds. induction l as [|item l IH]; intros i ds; simpl.
  - by intros [= <-].
  - destruct (report_of (draw image_open i item) ≫= print out); [discriminate |].
    destruct (display image_open out (i + 1) l) as [ds' exn] eqn:E.
    intros [= <- ->]. by rewrite (IH _ _ E).
Qed.

Lemma display_calm image_open out (i : nat) (l : list entry) :
  (∀ text, encodable out text = true) →
  display image_open out i l = (items image_open i l, None).
Proof.
  intros Hout. revert i. induction l as [|item l IH]; intros i; simpl; [done |].
  assert (Hnone : report_of (draw image_open i item) ≫= print out = None).
  { destruct (report_of (draw image_open i item)); [| done]. simpl.
    unfold print, refuses. by rewrite Hout. }
  rewrite Hnone. by rewrite IH.
Qed.

Lemma after_inr {A : Type} (call : option string) (k : error + A) (v : A) :
  after call k = inr v → call = None ∧ k = inr v.
Proof. destruct call; [discriminate | done]. Qed.

Lemma visualize_returned w image_open fs (mp root : string) (t : Q) (max_images : Z)
    (v : preview) :
  visualize_mislabeled_images w image_open fs mp root t max_images = inr v →
  ∃ model d0,
    YOLO w mp = Loaded model ∧ non_person fs = Some d0 ∧
    os_error w (Listdir (OsPath.join root "0")) = None ∧
    found v = quiet_preview model (OsPath.join root "0") t max_images (listdir d0) [] ∧
    figure v = match found v with
               | [] => None
               | _ => Some (items image_open 0 (found v))
               end ∧
    (found v ≠ [] →
     plt_error w Figure = None ∧ plt_error w TightLayout = None ∧ plt_error w Show = None).
Proof.
  unfold visualize_mislabeled_images.
  destruct (YOLO w mp) as [model | e | e]; try discriminate.
  destruct (non_person fs) as [d0|]; try discriminate.
  cbv zeta. intros H.
  apply after_inr in H as [_ H]. apply after_inr in H as [Hls H].
  destruct (preview_files model (stdout_encoding w) (OsPath.join root "0") t max_images
              (listdir d0) []) as [m exn] eqn:E.
  apply after_inr in H as [-> H]. apply after_inr in H as [_ H].
  apply preview_files_sim in E. subst m.
  exists model, d0. split; [done | split; [done | split; [done |]]].
  unfold show in H.
  destruct (quiet_preview model (OsPath.join root "0") t max_images (listdir d0) [])
    as [|item rest] eqn:Eq.
  - apply after_inr in H as [_ [= <-]]. simpl.
    split; [done | split; [done | intros Hne; by destruct Hne]].
  - apply after_inr in H as [Hfig H].
    destruct (display image_open (stdout_encoding w) 0 (item :: rest)) as [ds exn] eqn:Ed.
    apply after_inr in H as [-> H]. apply after_inr in H as [Htl H].
    apply after_inr in H as [Hshow [= <-]].
    apply display_sim in Ed. subst ds. simpl. by repeat split.
Qed.

(** In an environment where nothing fails the preview returns as soon as the
    model loads and the non-person directory is there. *)
Lemma visualize_calm w image_open fs (mp root : string) (t : Q) (max_images : Z) model d0 :
  calm w → YOLO w mp = Loaded model → non_person fs = Some d0 →
  ∃ v, visualize_mislabeled_images w image_open fs mp root t max_images = inr v ∧
       found v = quiet_preview model (OsPath.join root "0") t max_images (listdir d0) [].
Proof.
  intros (Hos & Hplt & _ & Hout) HY H0.
  unfold visualize_mislabeled_images. rewrite HY, H0. cbv zeta.
  rewrite print_starting, Hos. simpl.
  rewrite preview_files_calm by done. simpl.
  unfold print at 1, refuses. rewrite Hout. simpl.
  unfold show.
  destruct (quiet_preview model (OsPath.join root "0") t max_images (listdir d0) [])
    as [|item rest] eqn:Eq.
  - unfold print, refuses. rewrite Hout. simpl. by eexists.
  - rewrite !Hplt. unfold after. rewrite display_calm by done. by eexists.
Qed.

(** X5: every entry the preview finds is an accepted entry of the non-person
    directory, with its path, for which the detector answered with a box of
    class 0 whose confidence, the one of the entry, is strictly above the
    threshold. *)
Theorem preview_is_sound w image_open fs (mp root : string) (t : Q) (max_images : Z)
    (v : preview) (p f : string) (c : Q) :
  visualize_mislabeled_images w image_open fs mp root t max_images = inr v →
  (p, f, c) ∈ found v →
  (∃ d0, non_person fs = Some d0 ∧ f ∈ listdir d0) ∧
  accepted f = true ∧ p = OsPath.join (OsPath.join root "0") f ∧ (t < c)%Q ∧
  ∃ model results r b,
    YOLO w mp = Loaded model ∧ model p = Returns results ∧
    r ∈ results ∧ b ∈ boxes r ∧ cls b = 0%Z ∧ conf b = c.
Proof.
  intros Hv Hin.
  destruct (visualize_returned _ _ _ _ _ _ _ _ Hv) as (model & d0 & HY & H0 & _ & Hf & _).
  rewrite Hf in Hin.
  destruct (quiet_preview_sound _ _ _ _ _ _ _ Hin)
    as [Hbad | (f0 & results & r & b & Hl & Ha & Hm & Hr & Hb & Hq & [= -> -> ->])];
    [inversion Hbad |].
  apply qualifies_spec in Hq as [Hcls Hlt].
  split; [by exists d0 | split; [done | split; [done | split; [done |]]]].
  by exists model, results, r, b.
Qed.

Lemma preview_is_sound_witness :
  ((2 # 5) < (1 # 2))%Q ∧ accepted "a.jpg" = true.
Proof.
  destruct (preview_is_sound (one_person (1 # 2)) all_readable one_image
              "yolo11x.pt" "root" (2 # 5) 20
              {| found := [("root/0/a.jpg", "a.jpg", 1 # 2)];
                 figure := Some [Drawn 1 "a.jpg" (title_of "a.jpg" (1 # 2))] |}
              "root/0/a.jpg" "a.jpg" (1 # 2)
              ltac:(vm_compute; reflexivity) ltac:(left))
    as (_ & Ha & _ & Hlt & _).
  by split.
Defined.

(** X6: with a detector that answers with one result at most, the preview
    finds at most [max_images] entries, and at most one when [max_images] is
    below 1: the first accepted file whose detection does not raise is always
    scanned. *)
Theorem preview_is_bounded w image_open fs (mp root : string) (t : Q) (max_images : Z)
    (v : preview) model :
  YOLO w mp = Loaded model → single_result model →
  visualize_mislabeled_images w image_open fs mp root t max_images = inr v →
  (Z.of_nat (length (found v)) ≤ Z.max max_images 1)%Z.
Proof.
  intros HY Hs Hv.
  destruct (visualize_returned _ _ _ _ _ _ _ _ Hv) as (model' & d0 & HY' & H0 & _ & Hf & _).
  assert (model' = model) as -> by congruence.
  rewrite Hf. apply quiet_preview_bound; [done | simpl; lia].
Qed.

Lemma single_result_always_person :
  single_result (λ _, Returns [ {| boxes := [person_box (9 # 10)] |} ]).
Proof. intros path results [= <-]. simpl. lia. Qed.

Lemma preview_is_bounded_witness :
  ∃ v, visualize_mislabeled_images always_person all_readable (dataset crowd ∅)
         "yolo11x.pt" "root" (2 # 5) 3 = inr v ∧
       (Z.of_nat (length (found v)) ≤ Z.max 3 1)%Z.
Proof.
  eexists. split; [vm_compute; reflexivity |].
  eapply (preview_is_bounded always_person all_readable (dataset crowd ∅)
            "yolo11x.pt" "root" (2 # 5) 3 _ _ eq_refl single_result_always_person).
  vm_compute. reflexivity.
Defined.

Lemma pair_of_entries model (np : string) (t : Q) (listing : list string) :
  pair_of <$> flat_map (λ f, (λ '(g, c), (OsPath.join np g, g, c)) <$> hit_of model np t f)
                listing
  = flat_map (hit_of model np t) listing.
Proof.
  induction listing as [|f listing IH]; simpl; [done |].
  rewrite fmap_app, IH. f_equal.
  induction (hit_of model np t f) as [|[g c] l IHl]; [done |].
  change ((g, c) :: (pair_of <$> ((λ '(g, c), (OsPath.join np g, g, c)) <$> l))
          = (g, c) :: l).
  by f_equal.
Qed.

(** X7: the preview shows what the relabelling would match.  With a detector
    that answers with one result at most, [max_images] at least 1 and both
    class directories there, when the preview and the relabelling both
    return, the names and confidences the preview finds are the first
    [max_images] matches of [process_mislabeled_images] on the same file
    system, in the same order; and both return when no call of the operating
    system or of the plotting library fails and every text can be written and
    printed. *)
Theorem preview_agrees_with_relabelling w image_open fs (mp root : string) (t : Q)
    (max_images : Z) model d0 d1 :
  YOLO w mp = Loaded model → single_result model →
  non_person fs = Some d0 → person fs = Some d1 → (1 ≤ max_images)%Z →
  (∀ v n path,
     visualize_mislabeled_images w image_open fs mp root t max_images = inr v →
     returned (process_mislabeled_images w fs mp root t) = inr (n, path) →
     pair_of <$> found v
     = take (Z.to_nat max_images)
         (matches (events (process_mislabeled_images w fs mp root t)))) ∧
  (calm w →
   ∃ v, visualize_mislabeled_images w image_open fs mp root t max_images = inr v ∧
        pair_of <$> found v
        = take (Z.to_nat max_images)
            (matches (events (process_mislabeled_images w fs mp root t)))).
Proof.
  intros HY Hs H0 H1 Hmax.
  assert (Hkey : ∀ v n path,
            visualize_mislabeled_images w image_open fs mp root t max_images = inr v →
            returned (process_mislabeled_images w fs mp root t) = inr (n, path) →
            pair_of <$> found v
            = take (Z.to_nat max_images)
                (matches (events (process_mislabeled_images w fs mp root t)))).
  { intros v n path Hv Hret.
    rewrite (run_loaded _ _ _ _ _ _ _ _ _ _ HY H0 H1 Hret). cbv zeta. simpl.
    destruct (visualize_returned _ _ _ _ _ _ _ _ Hv)
      as (model' & d0' & HY' & H0' & _ & Hf & _).
    assert (model' = model) as -> by congruence.
    assert (d0' = d0) as -> by congruence.
    rewrite Hf, quiet_preview_take by (done || simpl; lia). simpl.
    rewrite Nat.sub_0_r, fmap_take, pair_of_entries.
    unfold quiet_scan. by rewrite quiet_files_matches. }
  split; [exact Hkey |].
  intros Hcalm.
  destruct (visualize_calm w image_open fs mp root t max_images model d0 Hcalm HY H0)
    as (v & Hv & _).
  exists v. split; [exact Hv |].
  eapply Hkey; [exact Hv |]. by apply (run_calm w fs mp root t model d0 d1).
Qed.

Lemma calm_world_of (model : Model) : calm (world_of model).
Proof. repeat split; intros x; try reflexivity; by apply encodable_all. Qed.

Lemma preview_agrees_with_relabelling_witness :
  ∃ v, visualize_mislabeled_images always_person all_readable (dataset crowd ∅)
         "yolo11x.pt" "root" (2 # 5) 3 = inr v ∧
       pair_of <$> found v
       = take 3 (matches (events (process_mislabeled_images always_person
                                    (dataset crowd ∅) "yolo11x.pt" "root" (2 # 5)))).
Proof.
  refine (proj2 (preview_agrees_with_relabelling always_person all_readable
                   (dataset crowd ∅) "yolo11x.pt" "root" (2 # 5) 3 _ crowd ∅ eq_refl
                   single_result_always_person eq_refl eq_refl _) _).
  - lia.
  - apply calm_world_of.
Defined.

Lemma items_lookup image_open (k i : nat) (l : list entry) (p f : string) (c : Q) :
  l !! i = Some (p, f, c) →
  items image_open k l !! i =
  Some (match image_open p with
        | Some e => Unreadable f e
        | None => if (k + i + 1 <=? 20)%nat
                  then Drawn (k + i + 1) f (title_of f c)
                  else OutOfGrid f (k + i + 1)
        end).
Proof.
  revert k i. induction l as [|[[p' f'] c'] l IH]; intros k i Hl; [done |].
  destruct i as [|i]; simpl in *.
  - injection Hl as -> -> ->. by rewrite Nat.add_0_r.
  - rewrite (IH (k + 1) i Hl). by replace (k + 1 + i + 1) with (k + S i + 1) by lia.
Qed.

Lemma items_drawn image_open (k : nat) (l : list entry) :
  (length (filter (λ d, is_drawn d = true) (items image_open k l)) ≤ 20 - k)%nat.
Proof.
  revert k. induction l as [|[[p f] c] l IH]; intros k; simpl; [lia |].
  specialize (IH (k + 1)).
  destruct (image_open p); [| destruct (Nat.leb_spec (k + 1) 20)];
    rewrite filter_cons;
    match goal with |- context [decide ?P] => destruct (decide P) as [Hd | Hd] end;
    simpl in *; try discriminate; lia.
Qed.

Lemma length_items image_open (k : nat) (l : list entry) :
  length (items image_open k l) = length l.
Proof.
  revert k. induction l as [|[[p f] c] l IH]; intros k; simpl; [done |].
  by rewrite IH.
Qed.

(** X8: the figure.  There is a figure exactly when something was found; it
    has one item per entry found, in order; the entry of index [i] is drawn
    at place [i + 1] when its image can be read and [i] is below 20, and is
    not drawn otherwise, so that at most twenty entries are drawn whatever
    [max_images]; an item that is not drawn does not stop the others. *)
Theorem figure_has_twenty_places w image_open fs (mp root : string) (t : Q)
    (max_images : Z) (v : preview) :
  visualize_mislabeled_images w image_open fs mp root t max_images = inr v →
  (figure v = None ↔ found v = []) ∧
  ∀ ds, figure v = Some ds →
    length ds = length (found v) ∧
    (length (filter (λ d, is_drawn d = true) ds) ≤ 20)%nat ∧
    ∀ i p f c, found v !! i = Some (p, f, c) →
      ds !! i = Some (match image_open p with
                      | Some e => Unreadable f e
                      | None => if (i + 1 <=? 20)%nat
                                then Drawn (i + 1) f (title_of f c)
                                else OutOfGrid f (i + 1)
                      end).
Proof.
  intros Hv.
  destruct (visualize_returned _ _ _ _ _ _ _ _ Hv) as (model & d0 & _ & _ & _ & _ & Hfig & _).
  rewrite Hfig. split.
  - by destruct (found v).
  - intros ds Hds.
    assert (ds = items image_open 0 (found v)) as ->
      by (destruct (found v); [discriminate | congruence]).
    split; [apply length_items | split].
    + pose proof (items_drawn image_open 0 (found v)). lia.
    + intros i p f c Hl. by rewrite (items_lookup image_open 0 i _ p f c Hl).
Qed.

Lemma figure_has_twenty_places_witness :
  ∃ v ds, visualize_mislabeled_images always_person all_readable (dataset crowd ∅)
            "yolo11x.pt" "root" (2 # 5) 22 = inr v ∧
          figure v = Some ds ∧ length ds = 22 ∧
          (length (filter (λ d, is_drawn d = true) ds) ≤ 20)%nat ∧
          ds !! 20 = Some (OutOfGrid "u.jpg" 21).
Proof.
  eexists _, _. split; [vm_compute; reflexivity |].
  split; [reflexivity |].
  destruct (figure_has_twenty_places always_person all_readable (dataset crowd ∅)
              "yolo11x.pt" "root" (2 # 5) 22 _ ltac:(vm_compute; reflexivity))
    as [_ H].
  destruct (H _ eq_refl) as (Hlen & Hdrawn & Hat).
  split; [exact Hlen | split; [exact Hdrawn |]].
  exact (Hat 20 "root/0/u.jpg" "u.jpg" (9 # 10) eq_refl).
Defined.

(** X9: the preview needs the model and the non-person directory only.  A
    preview that returns has loaded the model, found the non-person directory
    and listed it.  When no call of the operating system or of the plotting
    library fails and every text can be printed, it returns exactly when the
    model loads and the non-person directory exists, whether or not there is
    a person directory, where [process_mislabeled_images] raises when the
    person directory is missing.  It raises the errors of the model as that
    function does, names the non-person directory when that one is missing,
    and raises when the non-person directory cannot be listed. *)
Theorem preview_needs_only_the_non_person_directory w image_open fs
    (mp root : string) (t : Q) (max_images : Z) :
  let r := visualize_mislabeled_images w image_open fs mp root t max_images in
  (∀ v, r = inr v →
     (∃ model, YOLO w mp = Loaded model) ∧ is_Some (non_person fs) ∧
     os_error w (Listdir (OsPath.join root "0")) = None) ∧
  (calm w →
   ((∃ v, r = inr v) ↔ (∃ model, YOLO w mp = Loaded model) ∧ is_Some (non_person fs))) ∧
  (∀ model, YOLO w mp = Loaded model → non_person fs = None →
     r = inl (FileNotFoundError
                ("Non-person directory not found: " +:+ OsPath.join root "0"))) ∧
  (∀ e, YOLO w mp = NotFound e →
     r = inl (FileNotFoundError ("Model file not found at " +:+ mp +:+ ": " +:+ e))) ∧
  (∀ e, YOLO w mp = Unloadable e →
     r = inl (RuntimeError ("Failed to load YOLO model: " +:+ e))) ∧
  (∀ model d0 e, YOLO w mp = Loaded model → non_person fs = Some d0 →
     os_error w (Listdir (OsPath.join root "0")) = Some e → r = inl (Exception e)) ∧
  (∀ model d0, YOLO w mp = Loaded model → non_person fs = Some d0 → person fs = None →
     (calm w → ∃ v, r = inr v) ∧
     returned (process_mislabeled_images w fs mp root t)
     = inl (FileNotFoundError
              ("Dataset directory not found: " +:+ OsPath.join root "1"))).
Proof.
  cbv zeta.
  split; [| split; [| split; [| split; [| split; [| split]]]]].
  - intros v Hv.
    destruct (visualize_returned _ _ _ _ _ _ _ _ Hv) as (model & d0 & HY & H0 & Hls & _).
    rewrite H0. split; [by eexists | split; [by eexists | done]].
  - intros Hcalm. split.
    + intros [v Hv].
      destruct (visualize_returned _ _ _ _ _ _ _ _ Hv) as (model & d0 & HY & H0 & _).
      rewrite H0. split; by eexists.
    + intros ([model HY] & [d0 H0]).
      destruct (visualize_calm w image_open fs mp root t max_images model d0 Hcalm HY H0)
        as (v & Hv & _).
      by exists v.
  - intros model HY H0. unfold visualize_mislabeled_images. by rewrite HY, H0.
  - intros e HY. unfold visualize_mislabeled_images. by rewrite HY.
  - intros e HY. unfold visualize_mislabeled_images. by rewrite HY.
  - intros model d0 e HY H0 Hls. unfold visualize_mislabeled_images.
    rewrite HY, H0. cbv zeta. by rewrite print_starting, Hls.
  - intros model d0 HY H0 H1. split.
    + intros Hcalm.
      destruct (visualize_calm w image_open fs mp root t max_images model d0 Hcalm HY H0)
        as (v & Hv & _).
      by exists v.
    + unfold process_mislabeled_images. by rewrite HY, H0, H1.
Qed.

Lemma preview_needs_only_the_non_person_directory_witness :
  ∃ v, visualize_mislabeled_images (one_person (1 # 2)) all_readable
         {| non_person := Some [("a.jpg", "A")]; person := None; logs := None |}
         "yolo11x.pt" "root" (2 # 5) 20 = inr v.
Proof.
  destruct (preview_needs_only_the_non_person_directory (one_person (1 # 2))
              all_readable
              {| non_person := Some [("a.jpg", "A")]; person := None; logs := None |}
              "yolo11x.pt" "root" (2 # 5) 20) as (_ & Hcalm & _).
  apply Hcalm.
  - repeat split; intros x; try reflexivity; by apply encodable_all.
  - split; by eexists.
Defined.
(** * The network of the training script *)

Lemma bind_some {A B : Type} (a : A) (f : A → option B) : Some a ≫= f = f a.
Proof. reflexivity. Qed.

Lemma pad_eq (p q h w c : nat) :
  Keras.ZeroPadding2D (p, q) (h, w, c) = Some (h + 2 * p, w + 2 * q, c).
Proof. reflexivity. Qed.

Lemma window_valid (n k stride n' : nat) :
  (k ≤ n)%nat → (n - k) / stride + 1 = n' → Keras.window Keras.valid n k stride = Some n'.
Proof.
  intros Hk <-. unfold Keras.window. by rewrite (proj2 (Nat.leb_le k n) Hk).
Qed.

Lemma conv_eq (h' w' f kh kw sh sw h w c : nat) :
  (kh ≤ h)%nat → (kw ≤ w)%nat →
  (h - kh) / sh + 1 = h' → (w - kw) / sw + 1 = w' →
  Keras.Conv2D f (kh, kw) Keras.valid (sh, sw) (h, w, c) = Some (h', w', f).
Proof.
  intros Hh Hw Eh Ew. unfold Keras.Conv2D. simpl fst. simpl snd.
  by rewrite (window_valid h kh sh h' Hh Eh), (window_valid w kw sw w' Hw Ew).
Qed.

Lemma dw_eq (h' w' kh kw sh sw h w c : nat) :
  (kh ≤ h)%nat → (kw ≤ w)%nat →
  (h - kh) / sh + 1 = h' → (w - kw) / sw + 1 = w' →
  Keras.DepthwiseConv2D (kh, kw) Keras.valid (sh, sw) (h, w, c) = Some (h', w', c).
Proof.
  intros Hh Hw Eh Ew. unfold Keras.DepthwiseConv2D. simpl fst. simpl snd.
  by rewrite (window_valid h kh sh h' Hh Eh), (window_valid w kw sw w' Hw Ew).
Qed.

Lemma add_same (s : Keras.shape) : Keras.Add s s = Some s.
Proof. unfold Keras.Add. by rewrite decide_True. Qed.

Lemma same_size (n k p : nat) :
  k = 2 * p + 1 → (1 ≤ n)%nat → (n + 2 * p - k) / 1 + 1 = n.
Proof. intros -> Hn. rewrite Nat.div_1_r. lia. Qed.

Lemma halve (n k p : nat) :
  k = 2 * p + 1 → (1 ≤ n)%nat →
  ∃ n', (n + 2 * p - k) / 2 + 1 = n' ∧ (1 ≤ n')%nat ∧ (2 * n' ≤ n + 1)%nat ∧ (n ≤ 2 * n')%nat.
Proof.
  intros -> Hn. eexists. split; [reflexivity |].
  replace (n + 2 * p - (2 * p + 1)) with (n - 1) by lia.
  pose proof (Nat.div_mod_eq (n - 1) 2) as E.
  pose proof (Nat.mod_upper_bound (n - 1) 2 ltac:(lia)) as B.
  lia.
Qed.

Lemma conv_none (f kh kw sh sw h w c : nat) :
  (h < kh)%nat →
  Keras.Conv2D f (kh, kw) Keras.valid (sh, sw) (h, w, c) = None.
Proof.
  intros Hh. unfold Keras.Conv2D, Keras.window. simpl fst.
  by rewrite (proj2 (Nat.leb_gt kh h) Hh).
Qed.

Lemma conv_none_w (f kh kw sh sw h w c : nat) :
  (w < kw)%nat →
  Keras.Conv2D f (kh, kw) Keras.valid (sh, sw) (h, w, c) = None.
Proof.
  intros Hw. unfold Keras.Conv2D, Keras.window. simpl fst. simpl snd.
  rewrite (proj2 (Nat.leb_gt kw w) Hw). by destruct (kh <=? h)%nat.
Qed.

Ltac layer :=
  lazymatch goal with
  | |- context [Keras.Input ?s ≫= _] =>
      change (Keras.Input s) with (Some s)
  | |- context [Keras.ZeroPadding2D (?p, ?q) (?n, ?m, ?c) ≫= _] =>
      rewrite (pad_eq p q n m c)
  | |- context [Keras.BatchNormalization ?s ≫= _] =>
      change (Keras.BatchNormalization s) with (Some s)
  | |- context [Keras.ReLU ?v ?s ≫= _] =>
      change (Keras.ReLU v s) with (Some s)
  | |- context [Keras.Add ?s ?s ≫= _] =>
      rewrite (add_same s)
  | |- context [Keras.Conv2D ?f (?kh, ?kw) Keras.valid (1, 1) (?n + 2 * ?p, ?m + 2 * ?q, ?c) ≫= _] =>
      rewrite (conv_eq n m f kh kw 1 1 (n + 2 * p) (m + 2 * q) c)
        by (lia || (apply same_size; lia))
  | |- context [Keras.DepthwiseConv2D (?kh, ?kw) Keras.valid (1, 1) (?n + 2 * ?p, ?m + 2 * ?q, ?c) ≫= _] =>
      rewrite (dw_eq n m kh kw 1 1 (n + 2 * p) (m + 2 * q) c)
        by (lia || (apply same_size; lia))
  | |- context [Keras.Conv2D ?f (?kh, ?kw) Keras.valid (2, 2) (?n + 2 * ?p, ?m + 2 * ?q, ?c) ≫= _] =>
      let n' := fresh "n" in let m' := fresh "m" in
      let En := fresh "En" in let Em := fresh "Em" in
      destruct (halve n kh p) as (n' & En & ? & ? & ?); [lia | lia |];
      destruct (halve m kw q) as (m' & Em & ? & ? & ?); [lia | lia |];
      rewrite (conv_eq n' m' f kh kw 2 2 (n + 2 * p) (m + 2 * q) c)
        by (lia || assumption);
      clear En Em
  | |- context [Keras.DepthwiseConv2D (?kh, ?kw) Keras.valid (2, 2) (?n + 2 * ?p, ?m + 2 * ?q, ?c) ≫= _] =>
      let n' := fresh "n" in let m' := fresh "m" in
      let En := fresh "En" in let Em := fresh "Em" in
      destruct (halve n kh p) as (n' & En & ? & ? & ?); [lia | lia |];
      destruct (halve m kw q) as (m' & Em & ? & ? & ?); [lia | lia |];
      rewrite (dw_eq n' m' kh kw 2 2 (n + 2 * p) (m + 2 * q) c)
        by (lia || assumption);
      clear En Em
  end;
  rewrite bind_some; cbv beta.

Lemma pool_cases (n : nat) :
  ((n < 5)%nat ∧ Keras.window Keras.valid n 5 5 = None) ∨
  ((5 ≤ n ≤ 9)%nat ∧ Keras.window Keras.valid n 5 5 = Some 1) ∨
  ((10 ≤ n)%nat ∧ ∃ a, Keras.window Keras.valid n 5 5 = Some a ∧ (2 ≤ a)%nat).
Proof.
  destruct (Nat.lt_ge_cases n 5) as [H5 | H5].
  - left. split; [done |]. unfold Keras.window.
    by rewrite (proj2 (Nat.leb_gt 5 n) H5).
  - right. destruct (Nat.lt_ge_cases n 10) as [H10 | H10].
    + left. split; [lia |]. apply window_valid; [lia |].
      rewrite Nat.div_small by lia. lia.
    + right. split; [done |]. eexists. split; [by apply window_valid |].
      assert (1 ≤ (n - 5) / 5)%nat by (apply Nat.div_le_lower_bound; lia). lia.
Qed.

(** The end of the network, from the output of the last block on. *)
Lemma head_shape (n m : nat) :
  (Keras.AveragePooling2D 5 (n, m, 160)
   ≫= λ x, Keras.Conv2D 2 (1, 1) Keras.valid (1, 1) x
   ≫= λ x, Keras.Reshape [num_classes] x
   ≫= λ outputs, Some outputs)
  = if decide ((5 ≤ n ≤ 9)%nat ∧ (5 ≤ m ≤ 9)%nat) then Some [num_classes] else None.
Proof.
  change (Keras.AveragePooling2D 5 (n, m, 160))
    with (h' ← Keras.window Keras.valid n 5 5;
          w' ← Keras.window Keras.valid m 5 5; Some (h', w', 160)).
  assert (Hconv : ∀ a b, (1 ≤ a)%nat → (1 ≤ b)%nat →
            Keras.Conv2D 2 (1, 1) Keras.valid (1, 1) (a, b, 160) = Some (a, b, 2)).
  { intros a b Ha Hb. apply conv_eq; try done; rewrite Nat.div_1_r; lia. }
  assert (Hbig : ∀ a b, (1 ≤ a)%nat → (1 ≤ b)%nat → (2 ≤ a)%nat ∨ (2 ≤ b)%nat →
            Keras.Reshape [num_classes] (a, b, 2) = None).
  { intros a b Ha Hb Hab. unfold Keras.Reshape, num_classes.
    replace (a * b * 2 =? foldr Nat.mul 1 [2])%nat with false; [done |].
    symmetry. apply Nat.eqb_neq. simpl. nia. }
  destruct (pool_cases n) as [[Hn ->] | [[Hn ->] | (Hn & a & -> & Ha)]];
    [by rewrite decide_False by lia | |];
    (destruct (pool_cases m) as [[Hm ->] | [[Hm ->] | (Hm & b & -> & Hb)]];
     [by rewrite decide_False by lia | |]).
  - by rewrite decide_True by lia.
  - rewrite decide_False by lia. rewrite !bind_some. cbv beta.
    rewrite Hconv by lia. rewrite bind_some. cbv beta. by rewrite Hbig by lia.
  - rewrite decide_False by lia. rewrite !bind_some. cbv beta.
    rewrite Hconv by lia. rewrite bind_some. cbv beta. by rewrite Hbig by lia.
  - rewrite decide_False by lia. rewrite !bind_some. cbv beta.
    rewrite Hconv by lia. rewrite bind_some. cbv beta. by rewrite Hbig by lia.
Qed.

(** X10: the network of the script can be built, and its output has the
    shape [(num_classes,)], exactly for the inputs of height and width from
    129 to 288: the last block has an output of height and width the
    thirty-second part of those of the input, rounded up, which the pooling
    over 5 by 5 and the reshaping accept from 5 to 9.  The input of the script,
    144 by 144 by 3, is one of them. *)
Theorem network_builds (h w c : nat) :
  (1 ≤ c)%nat →
  Keras.model (h, w, c) num_classes
  = if decide ((129 ≤ h ≤ 288)%nat ∧ (129 ≤ w ≤ 288)%nat)
    then Some [num_classes] else None.
Proof.
  intros _. unfold Keras.model.
  destruct (Nat.lt_ge_cases h 1) as [Hh | Hh].
  { do 2 layer. rewrite conv_none by lia. by rewrite decide_False by lia. }
  destruct (Nat.lt_ge_cases w 1) as [Hw | Hw].
  { do 2 layer. rewrite conv_none_w by lia. by rewrite decide_False by lia. }
  repeat layer.
  rewrite head_shape.
  destruct (decide ((129 ≤ h ≤ 288)%nat ∧ (129 ≤ w ≤ 288)%nat)) as [Hin | Hout].
  - by rewrite decide_True by lia.
  - by rewrite decide_False by lia.
Qed.

Lemma network_builds_witness : Keras.model input_shape num_classes = Some [num_classes].
Proof.
  unfold input_shape. rewrite network_builds by lia. by rewrite decide_True by lia.
Defined.

(** * The test of the quantized model *)

Lemma test_loop_counts (test_ds : list (nat * nat)) (correct wrong : nat) :
  test_loop true test_ds correct wrong
  = (correct + length (filter (λ s, s.1 = s.2) test_ds),
     wrong + length (filter (λ s, s.1 ≠ s.2) test_ds)).
Proof.
  revert correct wrong. induction test_ds as [|[label answer] test_ds IH];
    intros correct wrong; simpl.
  - by rewrite !Nat.add_0_r.
  - rewrite !filter_cons. simpl.
    destruct (Nat.eqb_spec label answer) as [E | E]; rewrite IH.
    + rewrite decide_True by done.
      rewrite decide_False by (intros H; by apply H). simpl. f_equal; lia.
    + rewrite decide_False by done. rewrite decide_True by done.
      simpl. f_equal; lia.
Qed.

Lemma test_loop_skips (test_ds : list (nat * nat)) (correct wrong : nat) :
  test_loop false test_ds correct wrong = (correct, wrong).
Proof.
  revert correct wrong. induction test_ds as [|[label answer] test_ds IH];
    intros correct wrong; simpl; [done | apply IH].
Qed.

(** X11: the test of the quantized model raises [ZeroDivisionError] exactly
    when the input of the interpreter is not of type [uint8], no sample being
    counted then, or the test set is empty.  Otherwise the accuracy printed
    is that of the number of samples whose label and answer agree over the
    number of samples. *)
Theorem test_accuracy_counts (input_is_uint8 : bool) (test_ds : list (nat * nat)) :
  (test_accuracy input_is_uint8 test_ds = ZeroDivisionError ↔
   input_is_uint8 = false ∨ test_ds = []) ∧
  (∀ correct total,
     test_accuracy input_is_uint8 test_ds = Ratio correct total →
     input_is_uint8 = true ∧ total = length test_ds ∧ (1 ≤ total)%nat ∧
     correct = length (filter (λ s, s.1 = s.2) test_ds) ∧ (correct ≤ total)%nat).
Proof.
  unfold test_accuracy. destruct input_is_uint8.
  - rewrite test_loop_counts. simpl.
    pose proof (filter_length_split (λ s : nat * nat, s.1 = s.2) test_ds) as Hsplit.
    cbv beta in Hsplit.
    destruct (Nat.eqb_spec (length (filter (λ s : nat * nat, s.1 = s.2) test_ds)
                            + length (filter (λ s : nat * nat, s.1 ≠ s.2) test_ds)) 0)
      as [E | E].
    + split; [| discriminate]. split; [| done].
      intros _. right. assert (Hlen : length test_ds = 0) by lia.
      by destruct test_ds.
    + split.
      * split; [discriminate |]. intros [H | ->]; [discriminate | by simpl in E].
      * intros correct total [= <- <-]. repeat split; lia.
  - rewrite test_loop_skips. simpl. split; [| discriminate].
    split; [by left | done].
Qed.

Lemma test_accuracy_counts_witness :
  test_accuracy true [(0, 0); (1, 0); (1, 1)] = Ratio 2 3 ∧
  2 = length (filter (λ s : nat * nat, s.1 = s.2) [(0, 0); (1, 0); (1, 1)]).
Proof.
  split; [reflexivity |].
  exact (proj1 (proj2 (proj2 (proj2 (proj2 (test_accuracy_counts true
           [(0, 0); (1, 0); (1, 1)]) 2 3 eq_refl))))).
Defined.


(** * One line of a move per file *)

(** X12: in any run, whatever the detector returns, several results for one
    file included, a file has one line of a move at most: before and after
    the line of a move of a file there is no other line of a move of that
    file. *)
Theorem one_moved_line_per_file w fs (mp root : string) (t : Q) (f : string) (c : Q)
    (l1 l2 : list event) :
  events (process_mislabeled_images w fs mp root t) = l1 ++ Moved f c :: l2 →
  (∀ c', Moved f c' ∉ l1) ∧ (∀ c', Moved f c' ∉ l2).
Proof.
  intros E. pose proof (moved_at_most_once w fs mp root t f) as H.
  rewrite E, moves_of_app in H. simpl in H. rewrite String.eqb_refl in H.
  split; intros c' Hin.
  - assert (moves_of f l1 ≠ 0) by (apply moves_of_pos; eauto). lia.
  - assert (moves_of f l2 ≠ 0) by (apply moves_of_pos; eauto). lia.
Qed.

Lemma one_moved_line_per_file_witness :
  Moved "a.jpg" (8 # 10) ∉ [Match "a.jpg" (8 # 10);
                            Failed "a.jpg" "[Errno 2] No such file or directory: 'root/0/a.jpg'"].
Proof.
  refine (proj2 (one_moved_line_per_file two_results one_image "yolo11x.pt" "root" (2 # 5)
                  "a.jpg" (9 # 10)
                  [Detect "root/0/a.jpg"; Match "a.jpg" (9 # 10)]
                  [Match "a.jpg" (8 # 10);
                   Failed "a.jpg" "[Errno 2] No such file or directory: 'root/0/a.jpg'"]
                  ltac:(vm_compute; reflexivity)) (8 # 10)).
Defined.


